(** * Handestiy API: a shallow embedding of [main.py] and [schemas.py]

    The handlers of [main.py] are embedded as functions over an explicit
    document store.  The clock ([datetime.now]), the entropy source
    ([secrets]), the digest ([hashlib.sha256]) and the request parameters
    are arguments of the handlers; a handler that writes returns the new
    store next to its response.

    Conventions.
    - [datetime] is an instant on the UTC time line counted in
      microseconds, a [timedelta] a number of microseconds; the store
      keeps a [datetime] to the whole millisecond.
    - [int] is [Z]; the store takes integers of up to 8 bytes.
    - [float] fields are rationals: the handlers only compare them.
    - [str] is [string], holding the UTF-8 bytes of the text; its
      characters are the code points [Utf8.decode] reads from it.
    - A raised exception is the [Raise] outcome; FastAPI answers an
      [HTTPException] with its status code, a body that fails
      validation with 422, and anything else with 500. *)

From Stdlib Require Import List String Ascii Bool Arith ZArith NArith QArith Lia.
From Stdlib Require Import Sorting.Sorted Sorting.Permutation.
Import ListNotations.

Local Open Scope string_scope.
Local Open Scope Z_scope.

(** ** Outcomes *)

Inductive exn : Type :=
| HTTPException (status_code : Z) (detail : string)
| RequestValidationError (msg : string)
| ValueError (msg : string)
| IndexError (msg : string)
| OverflowError (msg : string).

Inductive result (A : Type) : Type :=
| Ok (a : A)
| Raise (e : exn).

Arguments Ok {A} a.
Arguments Raise {A} e.

(** Status code FastAPI answers with. *)
Definition http_status {A} (r : result A) : Z :=
  match r with
  | Ok _ => 200
  | Raise (HTTPException c _) => c
  | Raise (RequestValidationError _) => 422
  | Raise _ => 500
  end.

Definition Unauthorized {A} (r : result A) : Prop := http_status r = 401.

Definition bind {A B} (r : result A) (k : A -> result B) : result B :=
  match r with Ok a => k a | Raise e => Raise e end.

Notation "x <- r ;; k" := (bind r (fun x => k))
  (at level 61, r at next level, right associativity).

(** ** Python strings *)

Module Py.

(** Truth value of a [str]: only the empty string is falsy. *)
Definition truthy (s : string) : bool :=
  match s with EmptyString => false | String _ _ => true end.

(** Truth value of an [Optional[str]]. *)
Definition truthy_opt (o : option string) : bool :=
  match o with None => false | Some s => truthy s end.

Definition startswith (s pre : string) : bool := String.prefix pre s.

(** [s.split(sep, 1)] for a one-character separator: cut at the first
    occurrence of [sep], or the whole string in a singleton list. *)
Fixpoint cut (sep : ascii) (s : string) : option (string * string) :=
  match s with
  | EmptyString => None
  | String c rest =>
      if Ascii.eqb c sep then Some (EmptyString, rest)
      else match cut sep rest with
           | Some (a, b) => Some (String c a, b)
           | None => None
           end
  end.

Definition split1 (sep : ascii) (s : string) : list string :=
  match cut sep s with
  | Some (a, b) => [a; b]
  | None => [s]
  end.

(** [l[i]], raising [IndexError] out of range. *)
Definition index {A} (l : list A) (i : nat) : result A :=
  match nth_error l i with
  | Some x => Ok x
  | None => Raise (IndexError "list index out of range")
  end.

(** [str.lower] on ASCII letters. *)
Definition lower_ascii (c : ascii) : ascii :=
  let n := N_of_ascii c in
  if (65 <=? n)%N && (n <=? 90)%N then ascii_of_N (n + 32) else c.

Fixpoint lower (s : string) : string :=
  match s with
  | EmptyString => EmptyString
  | String c r => String (lower_ascii c) (lower r)
  end.

End Py.

(** ** Hexadecimal text ([binascii.hexlify], [bytes.fromhex]) *)

Module Hex.

Definition digit (n : N) : ascii :=
  if (n <? 10)%N then ascii_of_N (48 + n) else ascii_of_N (87 + n).

Definition of_byte (b : Byte.byte) : string :=
  let n := Byte.to_N b in
  String (digit (n / 16)) (String (digit (n mod 16)) EmptyString).

Fixpoint hexlify (bs : list Byte.byte) : string :=
  match bs with
  | [] => EmptyString
  | b :: r => of_byte b ++ hexlify r
  end.

Definition value (c : ascii) : option N :=
  let n := N_of_ascii c in
  if (48 <=? n)%N && (n <=? 57)%N then Some (n - 48)%N
  else if (97 <=? n)%N && (n <=? 102)%N then Some (n - 87)%N
  else if (65 <=? n)%N && (n <=? 70)%N then Some (n - 55)%N
  else None.

(** Big-endian value of a string of hex digits, [None] on any other
    character. *)
Fixpoint to_N (acc : N) (s : string) : option N :=
  match s with
  | EmptyString => Some acc
  | String c r =>
      match value c with
      | Some d => to_N (16 * acc + d)%N r
      | None => None
      end
  end.

(** [width] hex digits of [n], most significant first. *)
Fixpoint of_N (width : nat) (n : N) : string :=
  match width with
  | O => EmptyString
  | S w => of_N w (n / 16)%N ++ String (digit (n mod 16)%N) EmptyString
  end.

End Hex.

(** ** Time *)

Definition datetime := Z.
Definition timedelta_hours (h : Z) : Z := h * 3600 * 1000000.

(** ** Store identifiers and values ([bson]) *)

(** The identifier the store assigns to a document is a 12-byte
    [ObjectId]; it is held here as the number its bytes spell, and [str]
    prints it as 24 lower-case hex digits. *)
Definition ObjectId := N.

Module Bson.

Definition str (o : ObjectId) : string := Hex.of_N 24 o.

(** The identifier a string of 24 hex digits spells; these are the
    strings from which [construct] below builds a 12-byte identifier. *)
Definition parse (s : string) : option ObjectId :=
  if Nat.eqb (String.length s) 24 then Hex.to_N 0%N s else None.

(** ASCII whitespace, which [bytes.fromhex] skips between bytes. *)
Definition is_space (c : ascii) : bool :=
  let n := N_of_ascii c in
  (n =? 32)%N || ((9 <=? n)%N && (n <=? 13)%N).

(** [bytes.fromhex(s)], as the number the bytes spell after [acc] and
    their count after [count]: whitespace is skipped where a byte may
    start, a byte is two hex digits side by side, and anything else is an
    error. *)
Fixpoint fromhex (acc : N) (count : nat) (s : string) : option (N * nat) :=
  match s with
  | EmptyString => Some (acc, count)
  | String c r =>
      if is_space c then fromhex acc count r
      else
        match Hex.value c, r with
        | Some hi, String d r' =>
            match Hex.value d with
            | Some lo => fromhex (256 * acc + 16 * hi + lo)%N (S count) r'
            | None => None
            end
        | _, _ => None
        end
  end.

(** What [ObjectId(s)] builds from a string: the 12 bytes of an
    identifier, or fewer bytes, which no stored document carries. *)
Inductive constructed : Type :=
| Full (o : ObjectId)
| Short.

(** [ObjectId(s)]: the string must have 24 characters and be accepted by
    [bytes.fromhex]; [None] stands for [InvalidId]. *)
Definition construct (s : string) : option constructed :=
  if Nat.eqb (String.length s) 24 then
    match fromhex 0%N 0%nat s with
    | Some (v, n) => if Nat.eqb n 12 then Some (Full v) else Some Short
    | None => None
    end
  else None.

(** The integers the store takes: 8 bytes, signed. *)
Definition int64 (z : Z) : bool := (- 2 ^ 63 <=? z) && (z <? 2 ^ 63).

(** The [datetime] the store keeps: whole milliseconds, rounded down. *)
Definition millis (t : datetime) : datetime := 1000 * (t / 1000).

Definition too_big {A} : result A :=
  Raise (OverflowError "MongoDB can only handle up to 8-byte ints").

End Bson.

(** What the store keeps of a value the driver is given, or the error of
    the driver when it cannot send the value. *)
Class BsonValue (A : Type) := { encode : A -> result A }.

(** ** The document store

    [database.py], which exports the handle [db], is not among the
    sources.  [db] is the document database of the spec: named
    collections of documents, each carrying a store-assigned unique
    [_id].  A collection is the list of its documents in insertion
    order, and the operations are those of the MongoDB driver the
    handlers call, with the behaviour its documentation gives them. *)

(** Order the store sorts values by. *)
Class BsonOrd (K : Type) := { ord_leb : K -> K -> bool }.

(** The comparison is a total preorder. *)
Class BsonOrdLaws (K : Type) `{BsonOrd K} := {
  ord_total : forall a b, ord_leb a b = true \/ ord_leb b a = true;
  ord_trans : forall a b c,
      ord_leb a b = true -> ord_leb b c = true -> ord_leb a c = true
}.

(** Sort directions of [cursor.sort(key, direction)]: [1] and [-1]. *)
Inductive direction : Type := ASCENDING | DESCENDING.

Definition direction_of (d : Z) : direction :=
  if d =? 1 then ASCENDING else DESCENDING.

(** A stored document: the identifier the store assigned and the fields
    the handler wrote.  After [d["_id"] = str(d["_id"])] the identifier
    is a string, hence the parameter [I]. *)
Record doc (I A : Type) : Type := Doc { _id : I; fields : A }.
Arguments Doc {I A} _ _.
Arguments _id {I A} _.
Arguments fields {I A} _.

Module Store.
Section Collection.
Context {A : Type}.
Abbreviation document := (doc ObjectId A).

(** [collection.find_one(q)]: the first document satisfying the query,
    [None] when there is none. *)
Definition find_one (q : document -> bool) (c : list document)
  : option document := List.find q c.

(** [collection.find(q)]: a cursor over the documents satisfying the
    query. *)
Definition find (q : document -> bool) (c : list document)
  : list document := List.filter q c.

(** [collection.count_documents(q)], and the [cursor.count()] of older
    drivers, which ignores skip and limit. *)
Definition count_documents (q : document -> bool) (c : list document)
  : Z := Z.of_nat (List.length (find q c)).

Definition append (oid : ObjectId) (d : A) (c : list document)
  : list document := c ++ [Doc oid d].

(** [collection.insert_one(d)]: what the store keeps of the document is
    added under the identifier [oid] generated for it, unless the driver
    cannot send the document. *)
Definition insert_one `{BsonValue A} (oid : ObjectId) (d : A)
    (c : list document) : result (list document) :=
  d' <- encode d ;; Ok (append oid d' c).

Fixpoint set_first (q : document -> bool) (set : A -> A)
    (c : list document) : list document :=
  match c with
  | [] => []
  | d :: r =>
      if q d then Doc (_id d) (set (fields d)) :: r
      else d :: set_first q set r
  end.

(** [collection.update_one(q, {"$set": v})]: what the store keeps of the
    values [v] is set in the first document satisfying [q], and nothing
    happens when there is none; the driver raises when it cannot send
    the values, whether a document satisfies [q] or not. *)
Definition update_one {V} `{BsonValue V} (q : document -> bool) (v : V)
    (set : V -> A -> A) (c : list document) : result (list document) :=
  v' <- encode v ;; Ok (set_first q (set v') c).

(** [collection.delete_one(q)]: the first document satisfying [q] is
    removed, and nothing happens when there is none. *)
Fixpoint delete_one (q : document -> bool) (c : list document)
  : list document :=
  match c with
  | [] => []
  | d :: r => if q d then r else d :: delete_one q r
  end.

Definition by_id (oid : ObjectId) (d : document) : bool :=
  N.eqb (_id d) oid.

(** The query [{"_id": ObjectId(s)}]. *)
Definition by_oid (o : Bson.constructed) : document -> bool :=
  match o with
  | Bson.Full oid => by_id oid
  | Bson.Short => fun _ => false
  end.

(** [d["_id"] = str(d["_id"])]. *)
Definition stringify (d : document) : doc string A :=
  Doc (Bson.str (_id d)) (fields d).

Section Cursor.
Context {K : Type} `{BsonOrd K}.

Definition before (key : A -> K) (dir : direction) (x y : document)
  : bool :=
  match dir with
  | ASCENDING => ord_leb (key (fields x)) (key (fields y))
  | DESCENDING => ord_leb (key (fields y)) (key (fields x))
  end.

Fixpoint insert_sorted (key : A -> K) (dir : direction)
    (x : document) (l : list document) : list document :=
  match l with
  | [] => [x]
  | y :: r =>
      if before key dir x y then x :: l
      else y :: insert_sorted key dir x r
  end.

(** [cursor.sort(key, direction)], as a stable insertion sort. *)
Fixpoint sort (key : A -> K) (dir : direction) (l : list document)
  : list document :=
  match l with
  | [] => []
  | x :: r => insert_sorted key dir x (sort key dir r)
  end.
End Cursor.

(** [cursor.skip(n)]: the driver raises [ValueError] on a negative
    count, and cannot send a count beyond 8 bytes when the cursor is
    read. *)
Definition skip (n : Z) (l : list document) : result (list document) :=
  if n <? 0 then Raise (ValueError "skip must be >= 0")
  else if 2 ^ 63 <=? n then Bson.too_big
  else Ok (List.skipn (Z.to_nat n) l).

(** [cursor.limit(n)]: a limit of 0 is no limit, the driver sends the
    absolute value of a negative one, and cannot send a value beyond 8
    bytes when the cursor is read. *)
Definition limit (n : Z) (l : list document) : result (list document) :=
  if 2 ^ 63 <=? Z.abs n then Bson.too_big
  else Ok (if n =? 0 then l else List.firstn (Z.to_nat (Z.abs n)) l).

End Collection.
End Store.

(** ** Orders on the keys the handlers sort by *)

#[export] Instance BsonOrd_datetime : BsonOrd datetime :=
  {| ord_leb := Z.leb |}.

#[export] Instance BsonOrd_float : BsonOrd Q := {| ord_leb := Qle_bool |}.

(** Strings compare byte by byte (the store's simple binary collation). *)
Fixpoint str_leb (a b : string) : bool :=
  match a, b with
  | EmptyString, _ => true
  | String _ _, EmptyString => false
  | String x a', String y b' =>
      if (N_of_ascii x <? N_of_ascii y)%N then true
      else if (N_of_ascii y <? N_of_ascii x)%N then false
      else str_leb a' b'
  end.

#[export] Instance BsonOrd_str : BsonOrd string := {| ord_leb := str_leb |}.

(** A missing or null value sorts before every present one. *)
Definition opt_leb {K} `{BsonOrd K} (a b : option K) : bool :=
  match a, b with
  | None, _ => true
  | Some _, None => false
  | Some x, Some y => ord_leb x y
  end.

#[export] Instance BsonOrd_option {K} `{BsonOrd K} : BsonOrd (option K) :=
  {| ord_leb := opt_leb |}.

(** ** Characters of a string *)

Module Utf8.

(** The payload of a continuation byte. *)
Definition cont (c : ascii) : option N :=
  let b := N_of_ascii c in
  if (128 <=? b)%N && (b <? 192)%N then Some (b - 128)%N else None.

(** A byte that starts no well-formed sequence stands as a character of
    its own, outside Unicode; the text of a [str] has none. *)
Definition stray (b : N) : N := (1114112 + b)%N.

(** The code points of a string. *)
Fixpoint decode (s : string) : list N :=
  match s with
  | EmptyString => []
  | String c r =>
      let b := N_of_ascii c in
      if (b <? 128)%N then b :: decode r
      else if (194 <=? b)%N && (b <? 224)%N then
        match r with
        | String c1 r1 =>
            match cont c1 with
            | Some x1 => ((b - 192) * 64 + x1)%N :: decode r1
            | None => stray b :: decode r
            end
        | EmptyString => stray b :: decode r
        end
      else if (224 <=? b)%N && (b <? 240)%N then
        match r with
        | String c1 (String c2 r2) =>
            match cont c1, cont c2 with
            | Some x1, Some x2 =>
                let v := ((b - 224) * 4096 + x1 * 64 + x2)%N in
                if (2048 <=? v)%N && negb ((55296 <=? v)%N && (v <? 57344)%N)
                then v :: decode r2
                else stray b :: decode r
            | _, _ => stray b :: decode r
            end
        | _ => stray b :: decode r
        end
      else if (240 <=? b)%N && (b <? 245)%N then
        match r with
        | String c1 (String c2 (String c3 r3)) =>
            match cont c1, cont c2, cont c3 with
            | Some x1, Some x2, Some x3 =>
                let v := ((b - 240) * 262144 + x1 * 4096 + x2 * 64 + x3)%N in
                if (65536 <=? v)%N && (v <? 1114112)%N
                then v :: decode r3
                else stray b :: decode r
            | _, _, _ => stray b :: decode r
            end
        | _ => stray b :: decode r
        end
      else stray b :: decode r
  end.

End Utf8.

(** ** Regular expressions of the store ([$regex] with [$options: "i"])

    The store searches the field for a match of the pattern anywhere in
    it.  Two kinds of pattern items are covered: a character that is not
    a metacharacter stands for itself, caselessly, and [.] stands for any
    character but a newline.  [compile] answers [None] on a pattern that
    uses any other metacharacter.

    Two characters are the same letter when the simple case folding of
    Unicode sends them to the same character; the folding is a table of
    the store's library and comes in as the argument [fold]. *)
Module Regex.

Inductive item : Type := Lit (c : N) | AnyChar.

Definition metacharacters : list N :=
  List.map N_of_ascii (list_ascii_of_string "\^$.|?*+()[]{}").

Definition is_meta (c : N) : bool := existsb (N.eqb c) metacharacters.

Fixpoint compile_items (p : list N) : option (list item) :=
  match p with
  | [] => Some []
  | c :: r =>
      match compile_items r with
      | None => None
      | Some items =>
          if (c =? 46)%N then Some (AnyChar :: items)
          else if is_meta c then None
          else Some (Lit c :: items)
      end
  end.

Definition compile (p : string) : option (list item) :=
  compile_items (Utf8.decode p).

Definition item_matches (fold : N -> N) (i : item) (c : N) : bool :=
  match i with
  | Lit x => (fold x =? fold c)%N
  | AnyChar => negb (c =? 10)%N
  end.

(** The items match a prefix of the text. *)
Fixpoint matches_here (fold : N -> N) (items : list item) (t : list N)
  : bool :=
  match items, t with
  | [], _ => true
  | _ :: _, [] => false
  | i :: r, c :: t' => item_matches fold i c && matches_here fold r t'
  end.

(** The items match somewhere in the text. *)
Fixpoint find (fold : N -> N) (items : list item) (t : list N) : bool :=
  matches_here fold items t ||
  match t with
  | [] => false
  | _ :: t' => find fold items t'
  end.

(** The pattern is found in the string. *)
Definition search (fold : N -> N) (items : list item) (text : string)
  : bool := find fold items (Utf8.decode text).

End Regex.

(** ** Schemas ([schemas.py]) *)

Record Category : Type := {
  cat_name : string;
  cat_slug : string;
  cat_description : option string;
  cat_active : bool
}.

Record Product : Type := {
  title : string;
  slug : string;
  short_description : option string;
  long_description : option string;
  price : Q;
  discount_price : option Q;
  category : string;
  stock : Z;
  materials : option string;
  dimensions : option string;
  images : list string;
  active : bool
}.

Record OrderItem : Type := {
  product_id : string;
  item_title : string;
  item_price : Q;
  quantity : Z;
  image : option string
}.

Record CustomerInfo : Type := {
  name : string;
  email : string;
  phone : option string;
  address : string
}.

Inductive ShippingMethod : Type := Standard_Shipping | Express_Shipping.
Inductive OrderStatus : Type := Pending | Shipped | Delivered | Cancelled.

Definition ShippingMethod_str (m : ShippingMethod) : string :=
  match m with
  | Standard_Shipping => "Standard Shipping"
  | Express_Shipping => "Express Shipping"
  end.

Definition OrderStatus_str (s : OrderStatus) : string :=
  match s with
  | Pending => "Pending"
  | Shipped => "Shipped"
  | Delivered => "Delivered"
  | Cancelled => "Cancelled"
  end.

(** A validated [Order]. *)
Record Order : Type := {
  items : list OrderItem;
  subtotal : Q;
  shipping : Q;
  total : Q;
  customer : CustomerInfo;
  shipping_method : ShippingMethod;
  status : OrderStatus;
  created_at : option datetime
}.

(** The JSON body of an order before validation: the three fields that
    carry a default may be left out. *)
Record OrderBody : Type := {
  body_items : list OrderItem;
  body_subtotal : Q;
  body_shipping : Q;
  body_total : Q;
  body_customer : CustomerInfo;
  body_shipping_method : option ShippingMethod;
  body_status : option OrderStatus;
  body_created_at : option datetime
}.

Definition or_default {A} (o : option A) (d : A) : A :=
  match o with Some x => x | None => d end.

Definition set_email (c : CustomerInfo) (e : string) : CustomerInfo :=
  {| name := name c; email := e; phone := phone c; address := address c |}.

(** Validation of the body by the [Order] model.  [EmailStr] hands the
    customer's e-mail to the e-mail validator, here the argument
    [validate_email], which answers the normalised address or refuses
    the string; the fields left out take their defaults. *)
Definition Order_validate (validate_email : string -> option string)
    (b : OrderBody) : result Order :=
  match validate_email (email (body_customer b)) with
  | None =>
      Raise (RequestValidationError "value is not a valid email address")
  | Some e =>
      Ok {| items := body_items b;
            subtotal := body_subtotal b;
            shipping := body_shipping b;
            total := body_total b;
            customer := set_email (body_customer b) e;
            shipping_method :=
              or_default (body_shipping_method b) Standard_Shipping;
            status := or_default (body_status b) Pending;
            created_at := body_created_at b |}
  end.

(** ** Documents as the handlers write them *)

(** [{**body.model_dump(), "created_at": now}]. *)
Record stamped (A : Type) : Type := Stamped { data : A; stamp : datetime }.
Arguments Stamped {A} _ _.
Arguments data {A} _.
Arguments stamp {A} _.

Record TokenInfo : Type := {
  token : string;
  expires_at : datetime
}.

(** Documents of collection [adminuser]. *)
Record AdminFields : Type := {
  admin_email : string;
  admin_password : string;
  admin_created_at : datetime;
  current_token : option TokenInfo
}.

(** Documents of collection [order]: [order.model_dump()] with
    [created_at] overwritten; [status] is a plain string in the store. *)
Record OrderFields : Type := {
  o_items : list OrderItem;
  o_subtotal : Q;
  o_shipping : Q;
  o_total : Q;
  o_customer : CustomerInfo;
  o_shipping_method : string;
  o_status : string;
  o_created_at : option datetime
}.

Definition model_dump (o : Order) : OrderFields :=
  {| o_items := items o;
     o_subtotal := subtotal o;
     o_shipping := shipping o;
     o_total := total o;
     o_customer := customer o;
     o_shipping_method := ShippingMethod_str (shipping_method o);
     o_status := OrderStatus_str (status o);
     o_created_at := created_at o |}.

(** *** What the store keeps of each kind of value *)

#[export] Instance BsonValue_str : BsonValue string := {| encode := Ok |}.

#[export] Instance BsonValue_Category : BsonValue Category :=
  {| encode := Ok |}.

(** [stock] is the one integer of a product. *)
#[export] Instance BsonValue_Product : BsonValue Product :=
  {| encode := fun p => if Bson.int64 (stock p) then Ok p else Bson.too_big |}.

#[export] Instance BsonValue_stamped {A} `{BsonValue A}
  : BsonValue (stamped A) :=
  {| encode := fun s =>
       d <- encode (data s) ;; Ok (Stamped d (Bson.millis (stamp s))) |}.

Definition TokenInfo_kept (t : TokenInfo) : TokenInfo :=
  {| token := token t; expires_at := Bson.millis (expires_at t) |}.

#[export] Instance BsonValue_TokenInfo : BsonValue TokenInfo :=
  {| encode := fun t => Ok (TokenInfo_kept t) |}.

Definition AdminFields_kept (f : AdminFields) : AdminFields :=
  {| admin_email := admin_email f;
     admin_password := admin_password f;
     admin_created_at := Bson.millis (admin_created_at f);
     current_token := option_map TokenInfo_kept (current_token f) |}.

#[export] Instance BsonValue_AdminFields : BsonValue AdminFields :=
  {| encode := fun f => Ok (AdminFields_kept f) |}.

Definition OrderFields_kept (d : OrderFields) : OrderFields :=
  {| o_items := o_items d; o_subtotal := o_subtotal d;
     o_shipping := o_shipping d; o_total := o_total d;
     o_customer := o_customer d;
     o_shipping_method := o_shipping_method d;
     o_status := o_status d;
     o_created_at := option_map Bson.millis (o_created_at d) |}.

(** [quantity] is the one integer of an order line. *)
#[export] Instance BsonValue_OrderFields : BsonValue OrderFields :=
  {| encode := fun d =>
       if forallb (fun i => Bson.int64 (quantity i)) (o_items d)
       then Ok (OrderFields_kept d) else Bson.too_big |}.

(** Modelled from the spec: the database behind the handle [db] of the
    missing [database.py], with the four collections the handlers name
    ([adminuser], [category], [product], [order]) and the counter the
    store-assigned identifiers come from. *)
Record DB : Type := {
  adminuser : list (doc ObjectId AdminFields);
  categories : list (doc ObjectId (stamped Category));
  products : list (doc ObjectId (stamped Product));
  orders : list (doc ObjectId OrderFields);
  next_oid : ObjectId
}.

Definition empty_db : DB :=
  {| adminuser := []; categories := []; products := []; orders := [];
     next_oid := 0%N |}.

(** Store updates, one collection at a time. *)
Definition set_adminuser (db : DB) l : DB :=
  {| adminuser := l; categories := categories db; products := products db;
     orders := orders db; next_oid := next_oid db |}.
Definition set_categories (db : DB) l : DB :=
  {| adminuser := adminuser db; categories := l; products := products db;
     orders := orders db; next_oid := next_oid db |}.
Definition set_products (db : DB) l : DB :=
  {| adminuser := adminuser db; categories := categories db; products := l;
     orders := orders db; next_oid := next_oid db |}.
Definition set_orders (db : DB) l : DB :=
  {| adminuser := adminuser db; categories := categories db;
     products := products db; orders := l; next_oid := next_oid db |}.

(** Modelled from the spec: the store-assigned unique identifier of
    the next inserted document (the missing [database.py] hands out the
    driver's [ObjectId]s; here they are counted up). *)
Definition take_oid (db : DB) : ObjectId * DB :=
  (next_oid db,
   {| adminuser := adminuser db; categories := categories db;
      products := products db; orders := orders db;
      next_oid := N.succ (next_oid db) |}).

(** ** Queries *)

(** The query dictionary of [list_products]: keys [active] and
    [category], each present or not. *)
Record ProductQuery : Type := {
  q_active : option bool;
  q_category : option string
}.

Definition field_eqb {A} (eqb : A -> A -> bool) (q : option A) (v : A)
  : bool :=
  match q with None => true | Some x => eqb v x end.

(** Modelled from the spec: a document satisfies a query when each key
    of the query equals the document's field. *)
Definition product_matches (q : ProductQuery)
    (d : doc ObjectId (stamped Product)) : bool :=
  field_eqb Bool.eqb (q_active q) (active (data (fields d))) &&
  field_eqb String.eqb (q_category q) (category (data (fields d))).

(** The query dictionary of [list_orders]: key [status], and key [$or]
    holding the pattern searched in [customer.name] and
    [customer.email]. *)
Record OrderQuery : Type := {
  q_status : option string;
  q_or_regex : option (list Regex.item)
}.

Definition order_matches (fold : N -> N) (q : OrderQuery)
    (d : doc ObjectId OrderFields) : bool :=
  field_eqb String.eqb (q_status q) (o_status (fields d)) &&
  match q_or_regex q with
  | None => true
  | Some items =>
      Regex.search fold items (name (o_customer (fields d))) ||
      Regex.search fold items (email (o_customer (fields d)))
  end.

(** ** Handlers ([main.py]) *)

Definition admin_doc := doc ObjectId AdminFields.

(** [secrets.token_hex(nbytes)] over the bytes [rng 0], [rng 1], ... the
    operating system hands out. *)
Definition token_bytes (rng : nat -> Byte.byte) (nbytes : nat)
  : list Byte.byte := List.map rng (List.seq 0 nbytes).

Definition token_hex (rng : nat -> Byte.byte) (nbytes : nat) : string :=
  Hex.hexlify (token_bytes rng nbytes).

Record SeedAdminBody : Type := { seed_email : string; seed_password : string }.
Record LoginBody : Type := { login_email : string; login_password : string }.

(** [{"items": ..., "total": ..., "page": ..., "limit": ...}]. *)
Record ProductPage : Type := {
  page_items : list (doc string (stamped Product));
  page_total : Z;
  page_page : Z;
  page_limit : Z
}.

Inductive ack : Type := created | updated | deleted.

(** The query [{"current_token.token": token}]. *)
Definition has_token (tok : string) (a : admin_doc) : bool :=
  match current_token (fields a) with
  | Some ct => String.eqb (token ct) tok
  | None => false
  end.

(** The query [{"email": e}]. *)
Definition has_email (e : string) (a : admin_doc) : bool :=
  String.eqb (admin_email (fields a)) e.

Definition get_admin_by_token (db : DB) (now : datetime) (tok : string)
  : option admin_doc :=
  if negb (Py.truthy tok) then None
  else
    let admin := Store.find_one (has_token tok) (adminuser db) in
    match admin with
    | Some a =>
        match current_token (fields a) with
        | Some ct => if now >? expires_at ct then None else admin
        | None => admin
        end
    | None => admin
    end.

Definition require_admin (db : DB) (now : datetime)
    (authorization : option string) : result admin_doc :=
  if negb (Py.truthy_opt authorization) ||
     negb (Py.startswith (or_default authorization "") "Bearer ")
  then Raise (HTTPException 401 "Unauthorized")
  else
    tok <- Py.index (Py.split1 " " (or_default authorization "")) 1 ;;
    match get_admin_by_token db now tok with
    | None => Raise (HTTPException 401 "Invalid or expired token")
    | Some admin => Ok admin
    end.

(** [admin=Depends(require_admin)]: the dependency is resolved first, and
    the handler body runs only on its value. *)
Definition Depends_require_admin {A} (db : DB) (now : datetime)
    (authorization : option string)
    (handler : admin_doc -> result A * DB) : result A * DB :=
  match require_admin db now authorization with
  | Raise e => (Raise e, db)
  | Ok admin => handler admin
  end.

(** A handler that writes answers and keeps what the store answered,
    and leaves the store as it was when the driver raised. *)
Definition commit {A R} (db : DB) (written : result A) (answer : R)
    (keep : A -> DB) : result R * DB :=
  match written with
  | Ok l => (Ok answer, keep l)
  | Raise e => (Raise e, db)
  end.

Section Handlers.

(** [hashlib.sha256(...).hexdigest()]. *)
Variable sha256_hexdigest : string -> string.

Definition hash_password (password : string) : string :=
  sha256_hexdigest password.

Definition seed_admin (body : SeedAdminBody) (db : DB) (now : datetime)
  : result ack * DB :=
  let existing :=
    Store.find_one (has_email (seed_email body)) (adminuser db) in
  match existing with
  | Some _ => (Raise (HTTPException 400 "Admin already exists"), db)
  | None =>
      let (oid, db1) := take_oid db in
      commit db
        (Store.insert_one oid
           {| admin_email := seed_email body;
              admin_password := hash_password (seed_password body);
              admin_created_at := now;
              current_token := None |}
           (adminuser db1))
        created (set_adminuser db1)
  end.

Definition set_current_token (t : TokenInfo) (f : AdminFields)
  : AdminFields :=
  {| admin_email := admin_email f;
     admin_password := admin_password f;
     admin_created_at := admin_created_at f;
     current_token := Some t |}.

Definition admin_login (body : LoginBody) (rng : nat -> Byte.byte)
    (db : DB) (now : datetime) : result TokenInfo * DB :=
  let admin :=
    Store.find_one (has_email (login_email body)) (adminuser db) in
  match admin with
  | None => (Raise (HTTPException 401 "Invalid credentials"), db)
  | Some a =>
      if negb (String.eqb (admin_password (fields a))
                 (hash_password (login_password body)))
      then (Raise (HTTPException 401 "Invalid credentials"), db)
      else
        let tok := token_hex rng 24 in
        let exp := now + timedelta_hours 8 in
        let info := {| token := tok; expires_at := exp |} in
        commit db
          (Store.update_one (Store.by_id (_id a)) info set_current_token
             (adminuser db))
          info (set_adminuser db)
  end.

End Handlers.

(** *** Categories *)

Definition list_categories (active : option bool) (db : DB)
  : list (doc string (stamped Category)) :=
  let active := or_default active true in
  let q : doc ObjectId (stamped Category) -> bool :=
    if active then (fun c => Bool.eqb (cat_active (data (fields c))) true)
    else (fun _ => true) in
  let cats :=
    Store.sort (fun f => cat_name (data f)) (direction_of 1)
      (Store.find q (categories db)) in
  List.map Store.stringify cats.

Definition invalid_id {A} : result A :=
  Raise (HTTPException 400 "Invalid ID").

Definition create_category (body : Category) (admin : admin_doc)
    (db : DB) (now : datetime) : result string * DB :=
  match Store.find_one
          (fun c => String.eqb (cat_slug (data (fields c))) (cat_slug body))
          (categories db) with
  | Some _ => (Raise (HTTPException 400 "Slug already exists"), db)
  | None =>
      let (oid, db1) := take_oid db in
      commit db (Store.insert_one oid (Stamped body now) (categories db1))
        (Bson.str oid) (set_categories db1)
  end.

Definition update_category (cat_id : string) (body : Category)
    (admin : admin_doc) (db : DB) : result ack * DB :=
  match Bson.construct cat_id with
  | None => (invalid_id, db)
  | Some oid =>
      commit db
        (Store.update_one (Store.by_oid oid) body
           (fun v f => Stamped v (stamp f)) (categories db))
        updated (set_categories db)
  end.

Definition delete_category (cat_id : string) (admin : admin_doc) (db : DB)
  : result ack * DB :=
  match Bson.construct cat_id with
  | None => (invalid_id, db)
  | Some oid =>
      (Ok deleted,
       set_categories db (Store.delete_one (Store.by_oid oid) (categories db)))
  end.

(** *** Products *)

Definition list_products (category : option string) (sort : option string)
    (page limit : option Z) (db : DB) : result ProductPage :=
  let sort := or_default sort "newest" in
  let page := or_default page 1 in
  let limit := or_default limit 12 in
  let q :=
    {| q_active := Some true;
       q_category :=
         if Py.truthy_opt category &&
            negb (String.eqb (or_default category "") "All")
         then category else None |} in
  let cursor := Store.find (product_matches q) (products db) in
  let cursor :=
    if String.eqb sort "price_asc" then
      Store.sort (fun f => price (data f)) (direction_of 1) cursor
    else if String.eqb sort "price_desc" then
      Store.sort (fun f => price (data f)) (direction_of (-1)) cursor
    else
      Store.sort (fun f => stamp f) (direction_of (-1)) cursor in
  let total := Store.count_documents (product_matches q) (products db) in
  cursor <- Store.skip ((page - 1) * limit) cursor ;;
  cursor <- Store.limit limit cursor ;;
  Ok {| page_items := List.map Store.stringify cursor;
        page_total := total;
        page_page := page;
        page_limit := limit |}.

Definition not_found {A} (what : string) : result A :=
  Raise (HTTPException 404 what).

Definition get_product_by_slug (s : string) (db : DB)
  : result (doc string (stamped Product)) :=
  match Store.find_one
          (fun p => String.eqb (slug (data (fields p))) s &&
                    Bool.eqb (active (data (fields p))) true)
          (products db) with
  | None => not_found "Product not found"
  | Some p => Ok (Store.stringify p)
  end.

Definition get_product_by_id (pid : string) (db : DB)
  : result (doc string (stamped Product)) :=
  match Bson.construct pid with
  | None => invalid_id
  | Some oid =>
      match Store.find_one (Store.by_oid oid) (products db) with
      | None => not_found "Product not found"
      | Some p => Ok (Store.stringify p)
      end
  end.

Definition create_product (body : Product) (admin : admin_doc)
    (db : DB) (now : datetime) : result string * DB :=
  match Store.find_one
          (fun p => String.eqb (slug (data (fields p))) (slug body))
          (products db) with
  | Some _ => (Raise (HTTPException 400 "Slug already exists"), db)
  | None =>
      let (oid, db1) := take_oid db in
      commit db (Store.insert_one oid (Stamped body now) (products db1))
        (Bson.str oid) (set_products db1)
  end.

Definition update_product (pid : string) (body : Product)
    (admin : admin_doc) (db : DB) : result ack * DB :=
  match Bson.construct pid with
  | None => (invalid_id, db)
  | Some oid =>
      commit db
        (Store.update_one (Store.by_oid oid) body
           (fun v f => Stamped v (stamp f)) (products db))
        updated (set_products db)
  end.

Definition delete_product (pid : string) (admin : admin_doc) (db : DB)
  : result ack * DB :=
  match Bson.construct pid with
  | None => (invalid_id, db)
  | Some oid =>
      (Ok deleted,
       set_products db (Store.delete_one (Store.by_oid oid) (products db)))
  end.

(** *** Orders *)

Definition set_created_at (d : OrderFields) (t : datetime) : OrderFields :=
  {| o_items := o_items d; o_subtotal := o_subtotal d;
     o_shipping := o_shipping d; o_total := o_total d;
     o_customer := o_customer d;
     o_shipping_method := o_shipping_method d;
     o_status := o_status d; o_created_at := Some t |}.

Definition set_status (s : string) (d : OrderFields) : OrderFields :=
  {| o_items := o_items d; o_subtotal := o_subtotal d;
     o_shipping := o_shipping d; o_total := o_total d;
     o_customer := o_customer d;
     o_shipping_method := o_shipping_method d;
     o_status := s; o_created_at := o_created_at d |}.

Definition create_order (order : Order) (db : DB) (now : datetime)
  : result string * DB :=
  let data := model_dump order in
  let data := set_created_at data now in
  let (oid, db1) := take_oid db in
  commit db (Store.insert_one oid data (orders db1))
    (Bson.str oid) (set_orders db1).

(** [POST /api/orders]: the body is validated into an [Order] and handed
    to [create_order]; a body that fails validation is answered before
    the handler runs. *)
Definition post_order (validate_email : string -> option string)
    (body : OrderBody) (db : DB) (now : datetime) : result string * DB :=
  match Order_validate validate_email body with
  | Ok order => create_order order db now
  | Raise e => (Raise e, db)
  end.

Definition get_order (oid : string) (db : DB)
  : result (doc string OrderFields) :=
  match Bson.construct oid with
  | None => invalid_id
  | Some i =>
      match Store.find_one (Store.by_oid i) (orders db) with
      | None => not_found "Order not found"
      | Some o => Ok (Store.stringify o)
      end
  end.

(** [None]: the search text is a pattern outside the fragment [Regex]
    covers, and the outcome is left open. *)
Definition list_orders (fold : N -> N) (status search : option string)
    (admin : admin_doc) (db : DB) : option (list (doc string OrderFields)) :=
  let q_regex :=
    if Py.truthy_opt search
    then option_map Some (Regex.compile (or_default search ""))
    else Some None in
  match q_regex with
  | None => None
  | Some re =>
      let q :=
        {| q_status := if Py.truthy_opt status then status else None;
           q_or_regex := re |} in
      Some (List.map Store.stringify
              (Store.sort (fun f => o_created_at f) (direction_of (-1))
                 (Store.find (order_matches fold q) (orders db))))
  end.

Definition update_order_status (oid : string) (new_status : string)
    (admin : admin_doc) (db : DB) : result ack * DB :=
  match Bson.construct oid with
  | None => (invalid_id, db)
  | Some i =>
      commit db
        (Store.update_one (Store.by_oid i) new_status set_status (orders db))
        updated (set_orders db)
  end.

(** ** Admin-gated routes

    A route declared with [admin=Depends(require_admin)] resolves the
    dependency on the request's [Authorization] header at [now] and then
    runs its handler (whose own clock reading, if any, is [t]). *)
Module Route.

Definition create_category body authorization db now t :=
  Depends_require_admin db now authorization
    (fun admin => create_category body admin db t).

Definition update_category cat_id body authorization db now :=
  Depends_require_admin db now authorization
    (fun admin => update_category cat_id body admin db).

Definition delete_category cat_id authorization db now :=
  Depends_require_admin db now authorization
    (fun admin => delete_category cat_id admin db).

Definition create_product body authorization db now t :=
  Depends_require_admin db now authorization
    (fun admin => create_product body admin db t).

Definition update_product pid body authorization db now :=
  Depends_require_admin db now authorization
    (fun admin => update_product pid body admin db).

Definition delete_product pid authorization db now :=
  Depends_require_admin db now authorization
    (fun admin => delete_product pid admin db).

Definition list_orders fold status search authorization db now :=
  Depends_require_admin db now authorization
    (fun admin => (Ok (list_orders fold status search admin db), db)).

Definition update_order_status oid new_status authorization db now :=
  Depends_require_admin db now authorization
    (fun admin => update_order_status oid new_status admin db).

End Route.

(** ** Runs of the service *)

Section Runs.

Variable sha256_hexdigest : string -> string.

(** One request that may write to the store.  The e-mail validator is
    taken afresh at each order, so that the runs of the service under
    any one validator are among these. *)
Inductive step : DB -> DB -> Prop :=
| step_seed_admin body now db :
    step db (snd (seed_admin sha256_hexdigest body db now))
| step_admin_login body rng now db :
    step db (snd (admin_login sha256_hexdigest body rng db now))
| step_create_category body auth now t db :
    step db (snd (Route.create_category body auth db now t))
| step_update_category cat_id body auth now db :
    step db (snd (Route.update_category cat_id body auth db now))
| step_delete_category cat_id auth now db :
    step db (snd (Route.delete_category cat_id auth db now))
| step_create_product body auth now t db :
    step db (snd (Route.create_product body auth db now t))
| step_update_product pid body auth now db :
    step db (snd (Route.update_product pid body auth db now))
| step_delete_product pid auth now db :
    step db (snd (Route.delete_product pid auth db now))
| step_post_order validate_email body now db :
    step db (snd (post_order validate_email body db now))
| step_update_order_status oid s auth now db :
    step db (snd (Route.update_order_status oid s auth db now)).

(** The stores the service can be in, starting from the empty one. *)
Inductive reachable : DB -> Prop :=
| reachable_empty : reachable empty_db
| reachable_step db db' : reachable db -> step db db' -> reachable db'.

End Runs.

(** ** Store invariants *)

Definition ids {A} (c : list (doc ObjectId A)) : list ObjectId :=
  List.map _id c.

(** Identifiers are unique in a collection and were all handed out
    already. *)
Definition ids_ok {A} (bound : ObjectId) (c : list (doc ObjectId A))
  : Prop :=
  NoDup (ids c) /\ Forall (fun i => (i < bound)%N) (ids c).

(** No account holds the empty string as its token. *)
Definition tokens_nonempty (c : list admin_doc) : Prop :=
  forall a t, In a c -> current_token (fields a) = Some t ->
              token t <> "".

Record wf (db : DB) : Prop := {
  wf_adminuser : ids_ok (next_oid db) (adminuser db);
  wf_categories : ids_ok (next_oid db) (categories db);
  wf_products : ids_ok (next_oid db) (products db);
  wf_orders : ids_ok (next_oid db) (orders db);
  wf_tokens : tokens_nonempty (adminuser db)
}.

(** ** Vocabulary of the properties *)

(** The token is held by no account. *)
Definition unknown_token (db : DB) (tok : string) : Prop :=
  forall a ct, In a (adminuser db) ->
               current_token (fields a) = Some ct -> token ct <> tok.

(** The route hands the request to its handler only once
    [require_admin] has answered an account, and otherwise answers the
    exception of [require_admin] and leaves the store as it was. *)
Definition gated {A} (route : option string -> DB -> datetime -> result A * DB)
    (handler : admin_doc -> DB -> result A * DB) : Prop :=
  forall authorization db now,
    match require_admin db now authorization with
    | Raise e => route authorization db now = (Raise e, db)
    | Ok admin => route authorization db now = handler admin db
    end.

(** The query dictionary [list_products] builds. *)
Definition catalog_query (category : option string) : ProductQuery :=
  {| q_active := Some true;
     q_category :=
       if Py.truthy_opt category &&
          negb (String.eqb (or_default category "") "All")
       then category else None |}.

(** The cursor of [list_products] before [skip] and [limit]. *)
Definition catalog_cursor (category sort : option string) (db : DB)
  : list (doc ObjectId (stamped Product)) :=
  let found := Store.find (product_matches (catalog_query category))
                 (products db) in
  if String.eqb (or_default sort "newest") "price_asc" then
    Store.sort (fun f => price (data f)) ASCENDING found
  else if String.eqb (or_default sort "newest") "price_desc" then
    Store.sort (fun f => price (data f)) DESCENDING found
  else
    Store.sort (fun f => stamp f) DESCENDING found.







(** The order document [create_order] hands to the store, as the store
    keeps it. *)
Definition order_kept (order : Order) (now : datetime) : OrderFields :=
  OrderFields_kept (set_created_at (model_dump order) now).

(** The query [{"slug": s, "active": True}]. *)
Definition active_slug (s : string) (p : doc ObjectId (stamped Product))
  : bool :=
  String.eqb (slug (data (fields p))) s &&
  Bool.eqb (active (data (fields p))) true.

(** ** A small shop to run the handlers on *)

Definition root : admin_doc :=
  Doc 0%N
    {| admin_email := "root@shop.example";
       admin_password := "digest-of-secret";
       admin_created_at := 0;
       current_token := Some {| token := "c0ffee"; expires_at := 1000 |} |}.

Definition mk_category (n s : string) (a : bool) : Category :=
  {| cat_name := n; cat_slug := s; cat_description := None;
     cat_active := a |}.

Definition mk_product (t s c : string) (p : Q) (a : bool) : Product :=
  {| title := t; slug := s; short_description := None;
     long_description := None; price := p; discount_price := None;
     category := c; stock := 3; materials := None; dimensions := None;
     images := []; active := a |}.

Definition mk_order (n e st : string) (t : datetime) : OrderFields :=
  {| o_items := []; o_subtotal := 0; o_shipping := 0; o_total := 0;
     o_customer := {| name := n; email := e; phone := None;
                      address := "1 Kiln Lane" |};
     o_shipping_method := "Standard Shipping";
     o_status := st; o_created_at := Some t |}.

Definition shop_db : DB :=
  {| adminuser := [root];
     categories :=
       [Doc 1%N (Stamped (mk_category "Vases" "vases" true) 10000);
        Doc 2%N (Stamped (mk_category "Bowls" "bowls" false) 20000)];
     products :=
       [Doc 3%N (Stamped (mk_product "Mug" "mug" "mugs" 12 true) 100000);
        Doc 4%N (Stamped (mk_product "Vase" "vase" "vases" 30 true) 200000);
        Doc 5%N (Stamped (mk_product "Bowl" "bowl" "bowls" 20 false) 300000)];
     orders :=
       [Doc 6%N (mk_order "Alice" "a.liddell@example.com" "Pending" 400000);
        Doc 7%N (mk_order "Bob" "bob@example.com" "Shipped" 500000)];
     next_oid := 8%N |}.

Definition toy_digest (s : string) : string := "digest-of-" ++ s.


(** An e-mail validator for the shop: an address has an [@], and its
    domain is put in lower case. *)
Definition toy_validate_email (s : string) : option string :=
  match Py.cut "@" s with
  | Some (String c l, String d r) =>
      Some (String c l ++ "@" ++ Py.lower (String d r))
  | _ => None
  end.

Definition root_login : LoginBody :=
  {| login_email := "root@shop.example"; login_password := "secret" |}.

Definition cancelled_order : OrderBody :=
  {| body_items := []; body_subtotal := 0; body_shipping := 0;
     body_total := 0;
     body_customer := {| name := "Eve"; email := "eve@Example.COM";
                         phone := None; address := "2 Kiln Lane" |};
     body_shipping_method := None;
     body_status := Some Cancelled;
     body_created_at := Some 1 |}.

Definition relogged_db : DB :=
  snd (admin_login toy_digest root_login (fun _ => Byte.x2b)
         (snd (admin_login toy_digest root_login (fun _ => Byte.x2a)
                 shop_db 5)) 9).

(** ** Vocabulary of the further properties *)

(** Any number of requests in a row. *)
Inductive steps (H : string -> string) : DB -> DB -> Prop :=
| steps_refl db : steps H db db
| steps_step db db1 db2 :
    steps H db db1 -> step H db1 db2 -> steps H db db2.

(** The e-mails of the admin accounts, in store order. *)
Definition emails (db : DB) : list string :=
  map (fun a : admin_doc => admin_email (fields a)) (adminuser db).

(** The requests that may write to the store. *)
Inductive request : Type :=
| Seed (body : SeedAdminBody) (now : datetime)
| Login (body : LoginBody) (rng : nat -> Byte.byte) (now : datetime)
| CreateCategory (body : Category) (authorization : option string)
    (now t : datetime)
| UpdateCategory (cat_id : string) (body : Category)
    (authorization : option string) (now : datetime)
| DeleteCategory (cat_id : string) (authorization : option string)
    (now : datetime)
| CreateProduct (body : Product) (authorization : option string)
    (now t : datetime)
| UpdateProduct (pid : string) (body : Product)
    (authorization : option string) (now : datetime)
| DeleteProduct (pid : string) (authorization : option string)
    (now : datetime)
| PostOrder (validate_email : string -> option string) (body : OrderBody)
    (now : datetime)
| UpdateOrderStatus (oid new_status : string)
    (authorization : option string) (now : datetime).

(** The store after the request was served. *)
Definition serve (H : string -> string) (r : request) (db : DB) : DB :=
  match r with
  | Seed body now => snd (seed_admin H body db now)
  | Login body rng now => snd (admin_login H body rng db now)
  | CreateCategory body a now t =>
      snd (Route.create_category body a db now t)
  | UpdateCategory i body a now => snd (Route.update_category i body a db now)
  | DeleteCategory i a now => snd (Route.delete_category i a db now)
  | CreateProduct body a now t => snd (Route.create_product body a db now t)
  | UpdateProduct i body a now => snd (Route.update_product i body a db now)
  | DeleteProduct i a now => snd (Route.delete_product i a db now)
  | PostOrder v body now => snd (post_order v body db now)
  | UpdateOrderStatus i s a now =>
      snd (Route.update_order_status i s a db now)
  end.

Definition is_login (r : request) : bool :=
  match r with Login _ _ _ => true | _ => false end.

(** The string is bytes in hex, two digits side by side for each, with
    whitespace before, between and after the bytes at most; [n] counts
    the bytes. *)
Inductive hex_bytes : string -> nat -> Prop :=
| hex_bytes_end : hex_bytes "" 0
| hex_bytes_space c s n :
    Bson.is_space c = true -> hex_bytes s n -> hex_bytes (String c s) n
| hex_bytes_byte c d s n hi lo :
    Hex.value c = Some hi -> Hex.value d = Some lo -> hex_bytes s n ->
    hex_bytes (String c (String d s)) (S n).

(** What [ObjectId] makes of a string it accepts: the identifier that
    24 hex digits spell, or, of 24 characters with whitespace among
    them, fewer than 12 bytes. *)
Inductive spells : string -> Bson.constructed -> Prop :=
| spells_id s oid :
    String.length s = 24%nat -> Hex.to_N 0 s = Some oid ->
    spells s (Bson.Full oid)
| spells_short s n :
    String.length s = 24%nat -> hex_bytes s n -> (n < 12)%nat ->
    spells s Bson.Short.

(** [ObjectId] refuses the string: it has not 24 characters, or it is
    not bytes in hex. *)
Definition refused (s : string) : Prop :=
  String.length s <> 24%nat \/ forall n, ~ hex_bytes s n.

(** Some document of the collection carries the identifier built from
    the string. *)
Definition carried {A} (o : Bson.constructed) (c : list (doc ObjectId A))
  : Prop :=
  match o with
  | Bson.Full oid => In oid (ids c)
  | Bson.Short => False
  end.

(** The order [sort] asks for: the first product may come before the
    second. *)
Definition sorted_as (sort : option string)
    (x y : doc ObjectId (stamped Product)) : Prop :=
  if String.eqb (or_default sort "newest") "price_asc"
  then (price (data (fields x)) <= price (data (fields y)))%Q
  else if String.eqb (or_default sort "newest") "price_desc"
  then (price (data (fields y)) <= price (data (fields x)))%Q
  else stamp (fields y) <= stamp (fields x).

(** The two products have the same value under the key [list_products]
    sorts by. *)
Definition same_sort_key (sort : option string)
    (x y : doc ObjectId (stamped Product)) : Prop :=
  if String.eqb (or_default sort "newest") "price_asc" ||
     String.eqb (or_default sort "newest") "price_desc"
  then (price (data (fields x)) == price (data (fields y)))%Q
  else stamp (fields x) = stamp (fields y).

(** The items of a listing response, none when it is an error. *)
Definition items_of (r : result ProductPage)
  : list (doc string (stamped Product)) :=
  match r with Ok p => page_items p | Raise _ => [] end.

(** The order documents agree on every field but [status]. *)
Definition same_but_status (f g : OrderFields) : Prop :=
  o_items f = o_items g /\ o_subtotal f = o_subtotal g /\
  o_shipping f = o_shipping g /\ o_total f = o_total g /\
  o_customer f = o_customer g /\
  o_shipping_method f = o_shipping_method g /\
  o_created_at f = o_created_at g.

(** More of the shop, for the further properties. *)

Definition ops : admin_doc :=
  Doc 8%N
    {| admin_email := "ops@shop.example";
       admin_password := "digest-of-hunter2";
       admin_created_at := 600000;
       current_token := None |}.

Definition staffed_db : DB :=
  {| adminuser := [root; ops];
     categories := categories shop_db;
     products := products shop_db;
     orders := orders shop_db;
     next_oid := 9%N |}.

Definition ops_login : LoginBody :=
  {| login_email := "ops@shop.example"; login_password := "hunter2" |}.

Definition ops_seed : SeedAdminBody :=
  {| seed_email := "ops@shop.example"; seed_password := "hunter2" |}.

Definition ana_seed : SeedAdminBody :=
  {| seed_email := "ana@shop.example"; seed_password := "tr0ub4dor" |}.

(** The store after two accounts were seeded into the empty one and
    the first of them logged in. *)
Definition duo_db : DB :=
  snd (admin_login toy_digest ops_login (fun _ => Byte.x2a)
         (snd (seed_admin toy_digest ana_seed
                 (snd (seed_admin toy_digest ops_seed empty_db 600000))
                 700000))
         800000).

Definition cups : Category := mk_category "Cups" "cups" true.

Definition plate : Product := mk_product "Plate" "plate" "plates" 15 true.

Definition mug_doc : doc ObjectId (stamped Product) :=
  Doc 3%N (Stamped (mk_product "Mug" "mug" "mugs" 12 true) 100000).

Definition vase_doc : doc ObjectId (stamped Product) :=
  Doc 4%N (Stamped (mk_product "Vase" "vase" "vases" 30 true) 200000).

Definition bowl_doc : doc ObjectId (stamped Product) :=
  Doc 5%N (Stamped (mk_product "Bowl" "bowl" "bowls" 20 false) 300000).

Definition vases_doc : doc ObjectId (stamped Category) :=
  Doc 1%N (Stamped (mk_category "Vases" "vases" true) 10000).


Definition alice_order : doc ObjectId OrderFields :=
  Doc 6%N (mk_order "Alice" "a.liddell@example.com" "Pending" 400000).

(** * Properties *)

(** ** The orders are total preorders *)

Lemma Zleb_total (a b : Z) : (a <=? b) = true \/ (b <=? a) = true.
Proof. rewrite !Z.leb_le. lia. Qed.

Lemma Zleb_trans (a b c : Z) :
  (a <=? b) = true -> (b <=? c) = true -> (a <=? c) = true.
Proof. rewrite !Z.leb_le. lia. Qed.

#[export] Instance BsonOrdLaws_datetime : BsonOrdLaws datetime.
Proof. split; [exact Zleb_total | exact Zleb_trans]. Qed.

Lemma Qleb_total (a b : Q) : Qle_bool a b = true \/ Qle_bool b a = true.
Proof.
  rewrite !Qle_bool_iff.
  destruct (Qlt_le_dec a b) as [Hlt | Hle];
    [left; apply Qlt_le_weak, Hlt | right; exact Hle].
Qed.

Lemma Qleb_trans (a b c : Q) :
  Qle_bool a b = true -> Qle_bool b c = true -> Qle_bool a c = true.
Proof. rewrite !Qle_bool_iff. apply Qle_trans. Qed.

#[export] Instance BsonOrdLaws_float : BsonOrdLaws Q.
Proof. split; [exact Qleb_total | exact Qleb_trans]. Qed.

Lemma str_leb_total (a b : string) :
  str_leb a b = true \/ str_leb b a = true.
Proof.
  revert b; induction a as [|x a IH]; intros [|y b]; simpl; auto.
  destruct (N.ltb_spec (N_of_ascii x) (N_of_ascii y)),
           (N.ltb_spec (N_of_ascii y) (N_of_ascii x)); auto; lia.
Qed.

Lemma str_leb_trans (a b c : string) :
  str_leb a b = true -> str_leb b c = true -> str_leb a c = true.
Proof.
  revert b c; induction a as [|x a IH]; intros [|y b] [|z c]; simpl;
    try congruence.
  destruct (N.ltb_spec (N_of_ascii x) (N_of_ascii y)),
           (N.ltb_spec (N_of_ascii y) (N_of_ascii x)),
           (N.ltb_spec (N_of_ascii y) (N_of_ascii z)),
           (N.ltb_spec (N_of_ascii z) (N_of_ascii y)),
           (N.ltb_spec (N_of_ascii x) (N_of_ascii z)),
           (N.ltb_spec (N_of_ascii z) (N_of_ascii x));
    try congruence; try lia; eauto.
Qed.

#[export] Instance BsonOrdLaws_str : BsonOrdLaws string.
Proof. split; [exact str_leb_total | exact str_leb_trans]. Qed.

Lemma opt_leb_total {K} `{BsonOrdLaws K} (a b : option K) :
  opt_leb a b = true \/ opt_leb b a = true.
Proof. destruct a, b; simpl; auto using ord_total. Qed.

Lemma opt_leb_trans {K} `{BsonOrdLaws K} (a b c : option K) :
  opt_leb a b = true -> opt_leb b c = true -> opt_leb a c = true.
Proof. destruct a, b, c; simpl; try congruence; apply ord_trans. Qed.

#[export] Instance BsonOrdLaws_option {K} `{BsonOrdLaws K}
  : BsonOrdLaws (option K).
Proof. split; [exact opt_leb_total | exact opt_leb_trans]. Qed.

(** ** What the store keeps *)

Lemma millis_le t : Bson.millis t <= t.
Proof. unfold Bson.millis. pose proof (Z.mul_div_le t 1000). lia. Qed.

Lemma millis_gt t : t - 1000 < Bson.millis t.
Proof.
  unfold Bson.millis. pose proof (Z.mod_pos_bound t 1000).
  pose proof (Z.div_mod t 1000). lia.
Qed.

Lemma millis_whole t : Bson.millis t mod 1000 = 0.
Proof. unfold Bson.millis. rewrite Z.mul_comm. apply Z.mod_mul. lia. Qed.

Lemma millis_of_whole t : t mod 1000 = 0 -> Bson.millis t = t.
Proof.
  intros Hm. unfold Bson.millis. pose proof (Z.div_mod t 1000). lia.
Qed.

Lemma int64_fits z : Bson.int64 z = true <-> - 2 ^ 63 <= z < 2 ^ 63.
Proof.
  unfold Bson.int64. rewrite andb_true_iff, Z.leb_le, Z.ltb_lt. tauto.
Qed.

Lemma int64_too_big z :
  Bson.int64 z = false <-> z < - 2 ^ 63 \/ 2 ^ 63 <= z.
Proof.
  unfold Bson.int64. rewrite andb_false_iff, Z.leb_gt, Z.ltb_ge. tauto.
Qed.

(** ** Identifiers as text *)

Lemma hex_value_digit d : (d < 16)%N -> Hex.value (Hex.digit d) = Some d.
Proof.
  intros Hd.
  assert (Hn : exists n, (n < 16)%nat /\ d = N.of_nat n).
  { exists (N.to_nat d). split; [lia | now rewrite N2Nat.id]. }
  destruct Hn as (n & Hn & ->).
  do 16 (destruct n as [|n]; [reflexivity|]). lia.
Qed.

Lemma hex_to_N_app acc s1 s2 :
  Hex.to_N acc (s1 ++ s2) =
  match Hex.to_N acc s1 with
  | Some a => Hex.to_N a s2
  | None => None
  end.
Proof.
  revert acc. induction s1 as [|c s1 IH]; intros acc; simpl; [reflexivity|].
  destruct (Hex.value c); [apply IH | reflexivity].
Qed.

Lemma hex_to_N_of_N w acc n :
  Hex.to_N acc (Hex.of_N w n) = Some (acc * 16 ^ N.of_nat w + n mod 16 ^ N.of_nat w)%N.
Proof.
  revert acc n. induction w as [|w IH]; intros acc n.
  - simpl. rewrite N.mod_1_r. f_equal. lia.
  - cbn [Hex.of_N]. rewrite hex_to_N_app, IH. cbn [Hex.to_N].
    rewrite hex_value_digit by (apply N.mod_lt; lia).
    f_equal. rewrite Nat2N.inj_succ, N.pow_succ_r'.
    rewrite (N.Div0.mod_mul_r n 16 (16 ^ N.of_nat w)). lia.
Qed.

Lemma hex_of_N_length w n : String.length (Hex.of_N w n) = w.
Proof.
  revert n. induction w as [|w IH]; intros n; simpl; [reflexivity|].
  assert (Happ : forall s1 s2,
             String.length (s1 ++ s2) = (String.length s1 + String.length s2)%nat).
  { intros s1 s2. induction s1 as [|c s1 IHs]; simpl; [reflexivity|].
    now rewrite IHs. }
  rewrite Happ, IH. simpl. lia.
Qed.

Lemma parse_str_id (o : ObjectId) :
  (o < 2 ^ 96)%N -> Bson.parse (Bson.str o) = Some o.
Proof.
  intros Ho. unfold Bson.parse, Bson.str.
  rewrite hex_of_N_length. cbn [Nat.eqb].
  rewrite hex_to_N_of_N. f_equal.
  change (16 ^ N.of_nat 24)%N with (2 ^ 96)%N.
  rewrite N.mod_small by exact Ho. lia.
Qed.

(** A hex digit is no whitespace. *)
Lemma hex_value_not_space c d :
  Hex.value c = Some d -> Bson.is_space c = false.
Proof.
  unfold Hex.value, Bson.is_space. cbv zeta.
  destruct (N.leb_spec 48 (N_of_ascii c)), (N.leb_spec (N_of_ascii c) 57),
           (N.leb_spec 97 (N_of_ascii c)), (N.leb_spec (N_of_ascii c) 102),
           (N.leb_spec 65 (N_of_ascii c)), (N.leb_spec (N_of_ascii c) 70),
           (N.eqb_spec (N_of_ascii c) 32),
           (N.leb_spec 9 (N_of_ascii c)), (N.leb_spec (N_of_ascii c) 13);
    simpl; intros Hv; try discriminate; try reflexivity; lia.
Qed.

(** On an even number of hex digits, [bytes.fromhex] reads the number
    the digits spell, in half as many bytes. *)
Lemma fromhex_digits k : forall s acc count v,
  String.length s = (2 * k)%nat -> Hex.to_N acc s = Some v ->
  Bson.fromhex acc count s = Some (v, (count + k)%nat).
Proof.
  induction k as [|k IH]; intros s acc count v Hlen Hv.
  - destruct s; [|discriminate]. simpl in *. injection Hv as <-.
    now rewrite Nat.add_0_r.
  - destruct s as [|c [|d s]]; simpl in Hlen; try lia.
    cbn [Hex.to_N] in Hv. cbn [Bson.fromhex].
    destruct (Hex.value c) as [hi|] eqn:Hc; [|discriminate].
    destruct (Hex.value d) as [lo|] eqn:Hd; [|discriminate].
    rewrite (hex_value_not_space _ _ Hc).
    replace (256 * acc + 16 * hi + lo)%N with (16 * (16 * acc + hi) + lo)%N
      by lia.
    rewrite (IH s _ (S count) v); [f_equal; f_equal; lia | lia | exact Hv].
Qed.

(** What [bytes.fromhex] reads has two characters for each byte, and
    more when there is whitespace; with exactly two for each byte, the
    characters are hex digits. *)
Lemma fromhex_length s : forall acc count v n,
  Bson.fromhex acc count s = Some (v, n) ->
  (count <= n)%nat /\ (2 * (n - count) <= String.length s)%nat /\
  ((2 * (n - count))%nat = String.length s -> Hex.to_N acc s = Some v).
Proof.
  induction s as [s IH] using
    (well_founded_induction
       (well_founded_ltof _ String.length)).
  intros acc count v n Hf. destruct s as [|c r].
  - simpl in Hf. injection Hf as <- <-. simpl.
    split; [lia|]. split; [lia|]. reflexivity.
  - cbn [Bson.fromhex] in Hf. destruct (Bson.is_space c) eqn:Hsp.
    + destruct (IH r ltac:(unfold ltof; simpl; lia) _ _ _ _ Hf)
        as (Hle & Hlen & _).
      cbn [String.length]. split; [exact Hle|]. split; [lia|]. lia.
    + destruct (Hex.value c) as [hi|] eqn:Hc; [|discriminate].
      destruct r as [|d r']; [discriminate|].
      destruct (Hex.value d) as [lo|] eqn:Hd; [|discriminate].
      destruct (IH r' ltac:(unfold ltof; simpl; lia) _ _ _ _ Hf)
        as (Hle & Hlen & Hdig).
      cbn [String.length]. split; [lia|]. split; [lia|]. intros Hfull.
      cbn [Hex.to_N]. rewrite Hc, Hd.
      replace (16 * (16 * acc + hi) + lo)%N with (256 * acc + 16 * hi + lo)%N
        by lia.
      apply Hdig. lia.
Qed.

(** [ObjectId(s)] is a 12-byte identifier exactly on the strings of 24
    hex digits, and then the identifier they spell. *)
Lemma construct_Full s o :
  Bson.construct s = Some (Bson.Full o) <-> Bson.parse s = Some o.
Proof.
  unfold Bson.construct, Bson.parse.
  destruct (Nat.eqb_spec (String.length s) 24) as [Hlen | Hlen];
    [|split; discriminate].
  split.
  - destruct (Bson.fromhex 0 0 s) as [[v n]|] eqn:Hf; [|discriminate].
    destruct (Nat.eqb_spec n 12) as [-> | _]; [|discriminate].
    intros [= <-].
    destruct (fromhex_length _ _ _ _ _ Hf) as (_ & _ & Hdig).
    apply Hdig. rewrite Hlen. reflexivity.
  - intros Hv. rewrite (fromhex_digits 12 s 0%N 0%nat o Hlen Hv).
    reflexivity.
Qed.

Lemma construct_parse s o :
  Bson.parse s = Some o -> Bson.construct s = Some (Bson.Full o).
Proof. apply construct_Full. Qed.

Lemma construct_str_id (o : ObjectId) :
  (o < 2 ^ 96)%N -> Bson.construct (Bson.str o) = Some (Bson.Full o).
Proof. intros Ho. apply construct_parse, parse_str_id, Ho. Qed.

(** [bytes.fromhex] reads exactly the strings that are bytes in hex. *)
Lemma fromhex_hex_bytes s : forall acc count v n,
  Bson.fromhex acc count s = Some (v, n) ->
  exists k, n = (count + k)%nat /\ hex_bytes s k.
Proof.
  induction s as [s IH] using
    (well_founded_induction
       (well_founded_ltof _ String.length)).
  intros acc count v n Hf. destruct s as [|c r].
  - simpl in Hf. injection Hf as <- <-. exists 0%nat.
    split; [lia | constructor].
  - cbn [Bson.fromhex] in Hf. destruct (Bson.is_space c) eqn:Hsp.
    + destruct (IH r ltac:(unfold ltof; simpl; lia) _ _ _ _ Hf)
        as (k & -> & Hk).
      exists k. split; [reflexivity | now constructor].
    + destruct (Hex.value c) as [hi|] eqn:Hc; [|discriminate].
      destruct r as [|d r']; [discriminate|].
      destruct (Hex.value d) as [lo|] eqn:Hd; [|discriminate].
      destruct (IH r' ltac:(unfold ltof; simpl; lia) _ _ _ _ Hf)
        as (k & -> & Hk).
      exists (S k). split; [lia | econstructor; eassumption].
Qed.

Lemma hex_bytes_fromhex s k :
  hex_bytes s k ->
  forall acc count, exists v,
    Bson.fromhex acc count s = Some (v, (count + k)%nat).
Proof.
  induction 1 as [|c s n Hsp _ IH|c d s n hi lo Hc Hd _ IH];
    intros acc count.
  - exists acc. simpl. now rewrite Nat.add_0_r.
  - cbn [Bson.fromhex]. rewrite Hsp. apply IH.
  - cbn [Bson.fromhex]. rewrite (hex_value_not_space _ _ Hc), Hc, Hd.
    destruct (IH (256 * acc + 16 * hi + lo)%N (S count)) as (v & Hv).
    exists v. rewrite Hv. f_equal. f_equal. lia.
Qed.

Lemma hex_bytes_length s k :
  hex_bytes s k -> (2 * k <= String.length s)%nat.
Proof. induction 1; simpl; lia. Qed.

(** What [ObjectId(s)] answers, in terms of the string. *)
Lemma construct_spells s o : Bson.construct s = Some o <-> spells s o.
Proof.
  split.
  - destruct o as [oid|].
    + intros Hc. apply construct_Full in Hc. unfold Bson.parse in Hc.
      destruct (Nat.eqb_spec (String.length s) 24) as [Hlen|];
        [|discriminate].
      now constructor.
    + unfold Bson.construct.
      destruct (Nat.eqb_spec (String.length s) 24) as [Hlen|];
        [|discriminate].
      destruct (Bson.fromhex 0 0 s) as [[v n]|] eqn:Hf; [|discriminate].
      destruct (Nat.eqb_spec n 12) as [|Hn]; [discriminate|]. intros _.
      destruct (fromhex_hex_bytes _ _ _ _ _ Hf) as (k & -> & Hk).
      pose proof (hex_bytes_length _ _ Hk). simpl in Hn.
      apply (spells_short s k Hlen Hk). lia.
  - intros Hs. destruct Hs as [s oid Hlen Hv | s n Hlen Hn Hlt].
    + apply construct_Full. unfold Bson.parse. now rewrite Hlen.
    + unfold Bson.construct. rewrite Hlen. cbn [Nat.eqb].
      destruct (hex_bytes_fromhex _ _ Hn 0%N 0%nat) as (v & ->).
      simpl. destruct (Nat.eqb_spec n 12); [lia | reflexivity].
Qed.

Lemma construct_refused s : Bson.construct s = None <-> refused s.
Proof.
  unfold Bson.construct, refused.
  destruct (Nat.eqb_spec (String.length s) 24) as [Hlen | Hlen];
    [|tauto].
  destruct (Bson.fromhex 0 0 s) as [[v n]|] eqn:Hf.
  - destruct (fromhex_hex_bytes _ _ _ _ _ Hf) as (k & _ & Hk).
    split.
    + destruct (Nat.eqb n 12); discriminate.
    + intros [Hne | Hnone]; [contradiction | now destruct (Hnone k)].
  - split; [|reflexivity]. intros _. right. intros n Hn.
    destruct (hex_bytes_fromhex _ _ Hn 0%N 0%nat) as (v & Hv).
    congruence.
Qed.

(** ** Facts about the store operations *)

Section StoreFacts.
Context {A : Type}.
Implicit Types (c : list (doc ObjectId A)) (d : doc ObjectId A).

Lemma find_one_some q c d :
  Store.find_one q c = Some d -> In d c /\ q d = true.
Proof. apply List.find_some. Qed.

Lemma find_one_none q c :
  Store.find_one q c = None -> forall d, In d c -> q d = false.
Proof. apply List.find_none. Qed.

Lemma find_one_none_iff q c :
  Store.find_one q c = None <-> (forall d, In d c -> q d = false).
Proof.
  split; [apply find_one_none|].
  induction c as [|x c IH]; simpl; intros Hall; [reflexivity|].
  rewrite (Hall x (or_introl eq_refl)). apply IH.
  intros d Hd. apply Hall. right; exact Hd.
Qed.

Lemma ids_set_first q f c : ids (Store.set_first q f c) = ids c.
Proof.
  induction c as [|x c IH]; simpl; [reflexivity|].
  destruct (q x); simpl; [reflexivity | now rewrite IH].
Qed.

Lemma ids_append oid a c :
  ids (Store.append oid a c) = (ids c ++ [oid])%list.
Proof. unfold ids, Store.append. now rewrite map_app. Qed.

Lemma ids_delete_one_incl q c i :
  In i (ids (Store.delete_one q c)) -> In i (ids c).
Proof.
  induction c as [|x c IH]; simpl; [tauto|].
  destruct (q x); simpl; intuition.
Qed.

Lemma ids_delete_one_NoDup q c :
  NoDup (ids c) -> NoDup (ids (Store.delete_one q c)).
Proof.
  induction c as [|x c IH]; simpl; intros Hnd; [exact Hnd|].
  inversion Hnd as [|? ? Hnotin Hrest]; subst.
  destruct (q x); simpl; [exact Hrest|].
  constructor; [|apply IH, Hrest].
  intros Hin. apply Hnotin. eapply ids_delete_one_incl, Hin.
Qed.

Lemma ids_ok_weaken n m c : (n <= m)%N -> ids_ok n c -> ids_ok m c.
Proof.
  intros Hle [Hnd Hall]. split; [exact Hnd|].
  eapply Forall_impl; [|exact Hall]. simpl. intros; lia.
Qed.

Lemma ids_ok_set_first n q f c :
  ids_ok n c -> ids_ok n (Store.set_first q f c).
Proof. unfold ids_ok. now rewrite ids_set_first. Qed.

Lemma ids_ok_delete_one n q c :
  ids_ok n c -> ids_ok n (Store.delete_one q c).
Proof.
  intros [Hnd Hall]. split; [apply ids_delete_one_NoDup, Hnd|].
  rewrite Forall_forall in *. intros i Hi.
  apply Hall. eapply ids_delete_one_incl, Hi.
Qed.

Lemma ids_ok_append n a c :
  ids_ok n c -> ids_ok (N.succ n) (Store.append n a c).
Proof.
  intros [Hnd Hall]. unfold ids_ok. rewrite ids_append. split.
  - apply NoDup_app; [exact Hnd | repeat constructor; simpl; tauto |].
    intros i Hi [Heq | []]. subst i.
    rewrite Forall_forall in Hall. specialize (Hall n Hi). lia.
  - apply Forall_app. split.
    + eapply Forall_impl; [|exact Hall]. simpl. intros; lia.
    + repeat constructor. lia.
Qed.

(** With unique identifiers, an update by identifier rewrites the one
    document carrying it and leaves the others alone. *)
Lemma set_first_by_id_In f c d :
  NoDup (ids c) -> In d c ->
  forall x,
    In x (Store.set_first (Store.by_id (_id d)) f c) <->
    x = Doc (_id d) (f (fields d)) \/ (In x c /\ _id x <> _id d).
Proof.
  unfold Store.by_id.
  induction c as [|y c IH]; simpl; intros Hnd Hin x; [tauto|].
  inversion Hnd as [|? ? Hnotin Hrest]; subst.
  destruct (N.eqb_spec (_id y) (_id d)) as [Heq | Hne].
  - assert (y = d) as ->.
    { destruct Hin as [-> | Hin]; [reflexivity|].
      exfalso. apply Hnotin. rewrite Heq. now apply in_map. }
    simpl. split.
    + intros [<- | Hx]; [now left|]. right. split; [now right|].
      intros Hxd. apply Hnotin. rewrite <- Hxd. now apply in_map.
    + intros [-> | [[-> | Hx] Hne]]; [now left | congruence | now right].
  - destruct Hin as [-> | Hin]; [congruence|].
    simpl. rewrite (IH Hrest Hin x). split.
    + intros [<- | [-> | [Hx Hd]]]; [right | left | right]; intuition.
    + intros [-> | [[<- | Hx] Hd]]; intuition.
Qed.

End StoreFacts.

Lemma set_first_In_cases {A} q f (c : list (doc ObjectId A)) x :
  In x (Store.set_first q f c) ->
  In x c \/ exists d, In d c /\ q d = true /\ x = Doc (_id d) (f (fields d)).
Proof.
  induction c as [|y c IH]; simpl; [tauto|].
  destruct (q y) eqn:Hq; simpl.
  - intros [<- | Hx]; [right; exists y; auto | left; auto].
  - intros [<- | Hx]; [left; auto|].
    destruct (IH Hx) as [Hin | (d & Hd & Hqd & ->)]; [left; auto|].
    right; exists d; auto.
Qed.

(** ** The handlers that write, by cases *)

(** What the store keeps of the token a login issues. *)
Lemma admin_login_eq H body rng db now :
  admin_login H body rng db now =
  match Store.find_one (has_email (login_email body)) (adminuser db) with
  | None => (Raise (HTTPException 401 "Invalid credentials"), db)
  | Some a =>
      if negb (String.eqb (admin_password (fields a))
                 (H (login_password body)))
      then (Raise (HTTPException 401 "Invalid credentials"), db)
      else
        (Ok {| token := token_hex rng 24;
               expires_at := now + timedelta_hours 8 |},
         set_adminuser db
           (Store.set_first (Store.by_id (_id a))
              (set_current_token
                 (TokenInfo_kept
                    {| token := token_hex rng 24;
                       expires_at := now + timedelta_hours 8 |}))
              (adminuser db)))
  end.
Proof. reflexivity. Qed.

Lemma seed_admin_eq H body db now :
  seed_admin H body db now =
  match Store.find_one (has_email (seed_email body)) (adminuser db) with
  | Some _ => (Raise (HTTPException 400 "Admin already exists"), db)
  | None =>
      (Ok created,
       set_adminuser (snd (take_oid db))
         (adminuser db ++
          [Doc (next_oid db)
             {| admin_email := seed_email body;
                admin_password := H (seed_password body);
                admin_created_at := Bson.millis now;
                current_token := None |}])%list)
  end.
Proof. reflexivity. Qed.

Lemma create_category_eq body admin db t :
  create_category body admin db t =
  match Store.find_one
          (fun c => String.eqb (cat_slug (data (fields c))) (cat_slug body))
          (categories db) with
  | Some _ => (Raise (HTTPException 400 "Slug already exists"), db)
  | None =>
      (Ok (Bson.str (next_oid db)),
       set_categories (snd (take_oid db))
         (categories db ++
          [Doc (next_oid db) (Stamped body (Bson.millis t))])%list)
  end.
Proof. reflexivity. Qed.

Lemma update_category_eq cat_id body admin db :
  update_category cat_id body admin db =
  match Bson.construct cat_id with
  | None => (invalid_id, db)
  | Some oid =>
      (Ok updated,
       set_categories db
         (Store.set_first (Store.by_oid oid)
            (fun f => Stamped body (stamp f)) (categories db)))
  end.
Proof. reflexivity. Qed.

Lemma create_product_eq body admin db t :
  create_product body admin db t =
  match Store.find_one
          (fun p => String.eqb (slug (data (fields p))) (slug body))
          (products db) with
  | Some _ => (Raise (HTTPException 400 "Slug already exists"), db)
  | None =>
      if Bson.int64 (stock body) then
        (Ok (Bson.str (next_oid db)),
         set_products (snd (take_oid db))
           (products db ++
            [Doc (next_oid db) (Stamped body (Bson.millis t))])%list)
      else (Bson.too_big, db)
  end.
Proof.
  unfold create_product. destruct (Store.find_one _ _); [reflexivity|].
  unfold take_oid, Store.insert_one.
  cbn [encode BsonValue_stamped BsonValue_Product data stamp bind].
  destruct (Bson.int64 (stock body)); reflexivity.
Qed.

Lemma update_product_eq pid body admin db :
  update_product pid body admin db =
  match Bson.construct pid with
  | None => (invalid_id, db)
  | Some oid =>
      if Bson.int64 (stock body) then
        (Ok updated,
         set_products db
           (Store.set_first (Store.by_oid oid)
              (fun f => Stamped body (stamp f)) (products db)))
      else (Bson.too_big, db)
  end.
Proof.
  unfold update_product. destruct (Bson.construct pid); [|reflexivity].
  unfold Store.update_one. cbn [encode BsonValue_Product bind].
  destruct (Bson.int64 (stock body)); reflexivity.
Qed.

Lemma create_order_eq order db now :
  create_order order db now =
  if forallb (fun i => Bson.int64 (quantity i)) (items order) then
    (Ok (Bson.str (next_oid db)),
     set_orders (snd (take_oid db))
       (orders db ++ [Doc (next_oid db) (order_kept order now)])%list)
  else (Bson.too_big, db).
Proof.
  unfold create_order, take_oid, Store.insert_one.
  cbn [encode BsonValue_OrderFields bind set_created_at model_dump o_items].
  destruct (forallb _ (items order)); reflexivity.
Qed.

Lemma update_order_status_eq oid s admin db :
  update_order_status oid s admin db =
  match Bson.construct oid with
  | None => (invalid_id, db)
  | Some i =>
      (Ok updated,
       set_orders db
         (Store.set_first (Store.by_oid i) (set_status s) (orders db)))
  end.
Proof. reflexivity. Qed.

(** ** Tokens *)

Lemma token_hex_nonempty rng n : token_hex rng (S n) <> "".
Proof.
  unfold token_hex, token_bytes. simpl. unfold Hex.of_byte. simpl.
  discriminate.
Qed.

(** ** The invariants hold in every reachable store *)

Lemma wf_empty : wf empty_db.
Proof.
  split; simpl; try (split; simpl; constructor).
  intros a t [].
Qed.

Section Preservation.

Variable sha256_hexdigest : string -> string.

Lemma wf_seed_admin body db now :
  wf db -> wf (snd (seed_admin sha256_hexdigest body db now)).
Proof.
  intros Hwf. rewrite seed_admin_eq.
  destruct (Store.find_one _ _); [exact Hwf|].
  destruct Hwf as [H1 H2 H3 H4 H5]. simpl. split; simpl.
  - apply (ids_ok_append _ _ _ H1).
  - eapply ids_ok_weaken; [|exact H2]; lia.
  - eapply ids_ok_weaken; [|exact H3]; lia.
  - eapply ids_ok_weaken; [|exact H4]; lia.
  - intros a t Hin Ht.
    apply in_app_or in Hin. destruct Hin as [Hin | [<- | []]].
    + eapply H5; eassumption.
    + simpl in Ht. discriminate.
Qed.

Lemma wf_admin_login body rng db now :
  wf db -> wf (snd (admin_login sha256_hexdigest body rng db now)).
Proof.
  intros Hwf. rewrite admin_login_eq.
  destruct (Store.find_one _ _) as [a|]; [|exact Hwf].
  destruct (negb _); [exact Hwf|].
  destruct Hwf as [H1 H2 H3 H4 H5]. simpl. split; simpl; auto.
  - apply ids_ok_set_first, H1.
  - intros x t Hin Ht.
    apply set_first_In_cases in Hin.
    destruct Hin as [Hin | (d & Hd & _ & ->)].
    + eapply H5; eassumption.
    + simpl in Ht. injection Ht as <-. simpl.
      apply token_hex_nonempty.
Qed.

End Preservation.

Lemma wf_Depends {A} db now authorization
    (handler : admin_doc -> result A * DB) :
  wf db -> (forall admin, wf (snd (handler admin))) ->
  wf (snd (Depends_require_admin db now authorization handler)).
Proof.
  intros Hwf Hh. unfold Depends_require_admin.
  destruct (require_admin db now authorization); simpl; auto.
Qed.

Lemma wf_create_category body admin db t :
  wf db -> wf (snd (create_category body admin db t)).
Proof.
  intros Hwf. rewrite create_category_eq.
  destruct (Store.find_one _ _); [exact Hwf|].
  destruct Hwf as [H1 H2 H3 H4 H5]. simpl. split; simpl; auto;
    try (eapply ids_ok_weaken; [|eassumption]; lia).
  apply (ids_ok_append _ _ _ H2).
Qed.

Lemma wf_create_product body admin db t :
  wf db -> wf (snd (create_product body admin db t)).
Proof.
  intros Hwf. rewrite create_product_eq.
  destruct (Store.find_one _ _); [exact Hwf|].
  destruct (Bson.int64 _); [|exact Hwf].
  destruct Hwf as [H1 H2 H3 H4 H5]. simpl. split; simpl; auto;
    try (eapply ids_ok_weaken; [|eassumption]; lia).
  apply (ids_ok_append _ _ _ H3).
Qed.

Lemma wf_create_order order db now :
  wf db -> wf (snd (create_order order db now)).
Proof.
  intros Hwf. rewrite create_order_eq.
  destruct (forallb _ _); [|exact Hwf].
  destruct Hwf as [H1 H2 H3 H4 H5]. simpl.
  split; simpl; auto;
    try (eapply ids_ok_weaken; [|eassumption]; lia).
  apply (ids_ok_append _ _ _ H4).
Qed.

Lemma wf_post_order validate_email body db now :
  wf db -> wf (snd (post_order validate_email body db now)).
Proof.
  intros Hwf. unfold post_order.
  destruct (Order_validate validate_email body); [|exact Hwf].
  now apply wf_create_order.
Qed.

Ltac wf_by_id :=
  match goal with
  | |- wf (snd (match Bson.construct ?s with _ => _ end)) =>
      destruct (Bson.construct s); [|assumption]
  end;
  try match goal with
      | |- context [Bson.int64 ?z] => destruct (Bson.int64 z); [|assumption]
      end;
  match goal with
  | H : wf _ |- _ => destruct H as [? ? ? ? ?]
  end;
  split; simpl; auto using ids_ok_set_first, ids_ok_delete_one.

Lemma wf_update_category cat_id body admin db :
  wf db -> wf (snd (update_category cat_id body admin db)).
Proof. intros Hwf. rewrite update_category_eq. wf_by_id. Qed.

Lemma wf_delete_category cat_id admin db :
  wf db -> wf (snd (delete_category cat_id admin db)).
Proof. intros Hwf. unfold delete_category. wf_by_id. Qed.

Lemma wf_update_product pid body admin db :
  wf db -> wf (snd (update_product pid body admin db)).
Proof. intros Hwf. rewrite update_product_eq. wf_by_id. Qed.

Lemma wf_delete_product pid admin db :
  wf db -> wf (snd (delete_product pid admin db)).
Proof. intros Hwf. unfold delete_product. wf_by_id. Qed.

Lemma wf_update_order_status oid s admin db :
  wf db -> wf (snd (update_order_status oid s admin db)).
Proof. intros Hwf. rewrite update_order_status_eq. wf_by_id. Qed.

Lemma wf_step H db db' : step H db db' -> wf db -> wf db'.
Proof.
  intros Hstep Hwf. destruct Hstep.
  - now apply wf_seed_admin.
  - now apply wf_admin_login.
  - apply wf_Depends; auto using wf_create_category.
  - apply wf_Depends; auto using wf_update_category.
  - apply wf_Depends; auto using wf_delete_category.
  - apply wf_Depends; auto using wf_create_product.
  - apply wf_Depends; auto using wf_update_product.
  - apply wf_Depends; auto using wf_delete_product.
  - now apply wf_post_order.
  - apply wf_Depends; auto using wf_update_order_status.
Qed.

Lemma reachable_wf H db : reachable H db -> wf db.
Proof.
  induction 1 as [|db db' _ IH Hstep]; [apply wf_empty|].
  eapply wf_step; eassumption.
Qed.

(** ** Authentication *)

(** After the test [authorization.startswith("Bearer ")] the second
    component of [authorization.split(" ", 1)] is the rest of the header. *)
Lemma split1_Bearer tok :
  Py.index (Py.split1 " " ("Bearer " ++ tok)) 1 = Ok tok.
Proof. reflexivity. Qed.

Lemma startswith_Bearer tok :
  Py.startswith ("Bearer " ++ tok) "Bearer " = true.
Proof. destruct tok; reflexivity. Qed.

Lemma require_admin_Bearer db now tok :
  require_admin db now (Some ("Bearer " ++ tok)) =
  match get_admin_by_token db now tok with
  | None => Raise (HTTPException 401 "Invalid or expired token")
  | Some admin => Ok admin
  end.
Proof.
  unfold require_admin. cbn [Py.truthy_opt or_default].
  rewrite startswith_Bearer, split1_Bearer. reflexivity.
Qed.

Lemma has_token_true tok (a : admin_doc) :
  has_token tok a = true <->
  exists ct, current_token (fields a) = Some ct /\ token ct = tok.
Proof.
  unfold has_token. destruct (current_token (fields a)) as [ct|].
  - rewrite String.eqb_eq. split; [intros <-; eauto|].
    now intros (ct' & [= <-] & Htok).
  - split; [discriminate | now intros (ct & Hct & _)].
Qed.

Lemma unknown_token_find_one db tok :
  unknown_token db tok ->
  Store.find_one (has_token tok) (adminuser db) = None.
Proof.
  intros Hunk. apply find_one_none_iff. intros a Ha.
  destruct (has_token tok a) eqn:Hhas; [|reflexivity].
  apply has_token_true in Hhas. destruct Hhas as (ct & Hct & Htok).
  exfalso. eapply Hunk; eassumption.
Qed.

Lemma Depends_gated {A} (handler : admin_doc -> DB -> result A * DB) :
  gated (fun authorization db now =>
           Depends_require_admin db now authorization
             (fun admin => handler admin db))
        handler.
Proof.
  intros authorization db now. unfold Depends_require_admin.
  destruct (require_admin db now authorization); reflexivity.
Qed.

(** C1: [require_admin] answers 401 when the header is missing or does
    not start with "Bearer ", when no account stores the presented token,
    and when the clock is past the expiry stored with it; otherwise it
    answers the account the token lookup matched.  Every admin-gated
    route runs its handler only on that answer. *)
Theorem C1_require_admin (db : DB) (now : datetime)
    (authorization : option string) :
  (* missing or malformed header *)
  (authorization = None \/
   (exists h, authorization = Some h /\ Py.startswith h "Bearer " = false) ->
   Unauthorized (require_admin db now authorization)) /\
  (forall tok, authorization = Some ("Bearer " ++ tok) ->
     (* no account stores the token *)
     (unknown_token db tok ->
      Unauthorized (require_admin db now authorization)) /\
     (forall a ct,
        Store.find_one (has_token tok) (adminuser db) = Some a ->
        current_token (fields a) = Some ct ->
        (* the stored expiry has passed *)
        (now > expires_at ct ->
         Unauthorized (require_admin db now authorization)) /\
        (* otherwise *)
        (wf db -> now <= expires_at ct ->
         require_admin db now authorization = Ok a))) /\
  (forall body t,
     gated (fun a d n => Route.create_category body a d n t)
           (fun admin d => create_category body admin d t)) /\
  (forall cat_id body,
     gated (Route.update_category cat_id body)
           (update_category cat_id body)) /\
  (forall cat_id,
     gated (Route.delete_category cat_id) (delete_category cat_id)) /\
  (forall body t,
     gated (fun a d n => Route.create_product body a d n t)
           (fun admin d => create_product body admin d t)) /\
  (forall pid body,
     gated (Route.update_product pid body) (update_product pid body)) /\
  (forall pid,
     gated (Route.delete_product pid) (delete_product pid)) /\
  (forall fold status search,
     gated (Route.list_orders fold status search)
           (fun admin d =>
              (Ok (list_orders fold status search admin d), d))) /\
  (forall oid s,
     gated (Route.update_order_status oid s) (update_order_status oid s)).
Proof.
  split; [|split].
  - intros [-> | (h & -> & Hh)]; [reflexivity|].
    unfold Unauthorized, require_admin. simpl.
    rewrite Hh. simpl. rewrite orb_true_r. reflexivity.
  - intros tok ->. rewrite require_admin_Bearer.
    unfold get_admin_by_token. split.
    + intros Hunk. rewrite (unknown_token_find_one _ _ Hunk).
      destruct (negb (Py.truthy tok)); reflexivity.
    + intros a ct Hfind Hct. rewrite Hfind, Hct. split.
      * intros Hexp. apply Z.gtb_gt in Hexp. rewrite Hexp.
        destruct (negb (Py.truthy tok)); reflexivity.
      * intros Hwf Hle.
        destruct (find_one_some _ _ _ Hfind) as [Hin Hhas].
        apply has_token_true in Hhas.
        destruct Hhas as (ct' & Hct' & Htok).
        assert (ct' = ct) as -> by congruence.
        assert (Hne : tok <> "").
        { rewrite <- Htok. eapply (wf_tokens _ Hwf); eassumption. }
        destruct tok as [|c tok]; [congruence|]. simpl.
        destruct (now >? expires_at ct) eqn:Hgt; [|reflexivity].
        apply Z.gtb_gt in Hgt. lia.
  - repeat split; intros; apply Depends_gated.
Qed.

(** ** Login *)

Lemma hexlify_length bs :
  String.length (Hex.hexlify bs) = (2 * List.length bs)%nat.
Proof.
  induction bs as [|b bs IH]; simpl; [reflexivity|]. rewrite IH. lia.
Qed.

Lemma token_hex_length rng n :
  String.length (token_hex rng n) = (2 * n)%nat.
Proof.
  unfold token_hex, token_bytes.
  now rewrite hexlify_length, length_map, length_seq.
Qed.

(** The two hex digits of a byte tell the byte. *)
Lemma of_byte_inj b b' : Hex.of_byte b = Hex.of_byte b' -> b = b'.
Proof.
  unfold Hex.of_byte. cbv zeta. intros [= Hhi Hlo].
  pose proof (Byte.to_N_bounded b) as Hb.
  pose proof (Byte.to_N_bounded b') as Hb'.
  apply (f_equal Hex.value) in Hhi, Hlo.
  rewrite !hex_value_digit in Hhi, Hlo;
    try (apply N.mod_lt; lia);
    try (apply N.Div0.div_lt_upper_bound; lia).
  injection Hhi as Hhi. injection Hlo as Hlo.
  assert (Heq : Byte.to_N b = Byte.to_N b').
  { rewrite (N.div_mod (Byte.to_N b) 16), (N.div_mod (Byte.to_N b') 16)
      by lia. congruence. }
  pose proof (Byte.of_to_N b) as Hof. rewrite Heq, Byte.of_to_N in Hof.
  congruence.
Qed.

(** The text of a token spells the bytes drawn, two digits each. *)
Lemma token_hex_digits rng n : forall start i,
  (i < n)%nat ->
  String.substring (2 * i) 2
    (Hex.hexlify (map rng (seq start n))) = Hex.of_byte (rng (start + i)%nat).
Proof.
  induction n as [|n IH]; intros start i Hi; [lia|].
  cbn [seq map Hex.hexlify]. destruct i as [|i].
  - rewrite Nat.add_0_r. unfold Hex.of_byte. cbn.
    destruct (Hex.hexlify _); reflexivity.
  - replace (2 * S i)%nat with (S (S (2 * i))) by lia.
    unfold Hex.of_byte at 1. cbn [String.append String.substring].
    rewrite (IH (S start) i) by lia. f_equal. f_equal. lia.
Qed.

Lemma token_hex_byte rng n i :
  (i < n)%nat ->
  String.substring (2 * i) 2 (token_hex rng n) = Hex.of_byte (rng i).
Proof. intros Hi. apply (token_hex_digits rng n 0 i Hi). Qed.

(** Tokens are the same only when the bytes drawn are. *)
Lemma token_hex_inj rng rng' n :
  token_hex rng' n = token_hex rng n ->
  forall i, (i < n)%nat -> rng' i = rng i.
Proof.
  intros Heq i Hi. apply of_byte_inj.
  rewrite <- !(token_hex_byte _ n i Hi). now rewrite Heq.
Qed.

(** C2 (amended): [admin_login] answers 401 and writes nothing when no
    account has the e-mail or when the stored hash is not the hash of
    the password.  Otherwise it draws 24 bytes from the entropy source
    and answers their hex text, 48 digits that tell the 24 bytes, with
    the expiry [now] + 8 hours; the [current_token] of the account
    afterwards, whatever it was before, is that token with the expiry
    as the store keeps it, rounded down to the whole millisecond: less
    than a millisecond before the expiry answered, and the same when
    the clock reads a whole millisecond.  The other accounts and
    collections are as they were. *)
Theorem C2_admin_login (sha256_hexdigest : string -> string)
    (body : LoginBody) (rng : nat -> Byte.byte) (db : DB) (now : datetime) :
  let out := admin_login sha256_hexdigest body rng db now in
  ((forall a, In a (adminuser db) ->
              admin_email (fields a) <> login_email body) ->
   Unauthorized (fst out) /\ snd out = db) /\
  (forall a,
     Store.find_one (has_email (login_email body)) (adminuser db) = Some a ->
     (admin_password (fields a) <> sha256_hexdigest (login_password body) ->
      Unauthorized (fst out) /\ snd out = db) /\
     (admin_password (fields a) = sha256_hexdigest (login_password body) ->
      NoDup (ids (adminuser db)) ->
      exists tok persisted,
        (* the token: the hex text of the 24 bytes drawn *)
        String.length tok = 48%nat /\
        (forall i, (i < 24)%nat ->
           String.substring (2 * i) 2 tok = Hex.of_byte (rng i)) /\
        (forall rng', token_hex rng' 24 = tok ->
           forall i, (i < 24)%nat -> rng' i = rng i) /\
        (* the answer *)
        fst out = Ok {| token := tok;
                        expires_at := now + 8 * 3600 * 1000000 |} /\
        (* the account afterwards *)
        (forall x, In x (adminuser (snd out)) <->
                   x = Doc (_id a)
                         {| admin_email := admin_email (fields a);
                            admin_password := admin_password (fields a);
                            admin_created_at := admin_created_at (fields a);
                            current_token :=
                              Some {| token := tok;
                                      expires_at := persisted |} |} \/
                   (In x (adminuser db) /\ _id x <> _id a)) /\
        persisted = 1000 * ((now + 8 * 3600 * 1000000) / 1000) /\
        now + 8 * 3600 * 1000000 - 1000 < persisted /\
        persisted <= now + 8 * 3600 * 1000000 /\
        (now mod 1000 = 0 -> persisted = now + 8 * 3600 * 1000000) /\
        (* the rest of the store *)
        categories (snd out) = categories db /\
        products (snd out) = products db /\
        orders (snd out) = orders db /\
        next_oid (snd out) = next_oid db)).
Proof.
  intros out. subst out. rewrite admin_login_eq. split.
  - intros Hnone.
    assert (Hf : Store.find_one (has_email (login_email body))
                   (adminuser db) = None).
    { apply find_one_none_iff. intros a Ha. unfold has_email.
      apply String.eqb_neq. now apply Hnone. }
    rewrite Hf. split; reflexivity.
  - intros a Hfind. rewrite Hfind. split.
    + intros Hne. apply String.eqb_neq in Hne.
      rewrite Hne. split; reflexivity.
    + intros Heq Hnd.
      rewrite <- Heq, String.eqb_refl. cbn [negb fst snd].
      destruct (find_one_some _ _ _ Hfind) as [Hin _].
      exists (token_hex rng 24),
             (Bson.millis (now + timedelta_hours 8)).
      split; [apply token_hex_length|].
      split; [intros i Hi; now apply token_hex_byte|].
      split; [intros rng'; apply token_hex_inj|].
      split; [reflexivity|].
      split; [|split; [reflexivity|]].
      { intros x. cbn [adminuser set_adminuser].
        exact (set_first_by_id_In (set_current_token _) _ _ Hnd Hin x). }
      change (8 * 3600 * 1000000) with (timedelta_hours 8).
      split; [apply millis_gt|]. split; [apply millis_le|].
      split; [|repeat split].
      intros Hwhole. apply millis_of_whole.
      unfold timedelta_hours.
      rewrite Z.add_mod, Hwhole by lia. reflexivity.
Qed.

(** ** One session per account *)

Lemma admin_login_inv H body rng db now info :
  fst (admin_login H body rng db now) = Ok info ->
  exists a,
    Store.find_one (has_email (login_email body)) (adminuser db) = Some a /\
    admin_password (fields a) = H (login_password body) /\
    info = {| token := token_hex rng 24;
              expires_at := now + timedelta_hours 8 |} /\
    snd (admin_login H body rng db now) =
    set_adminuser db
      (Store.set_first (Store.by_id (_id a))
         (set_current_token (TokenInfo_kept info)) (adminuser db)).
Proof.
  rewrite admin_login_eq.
  destruct (Store.find_one _ _) as [a|]; [|discriminate].
  destruct (String.eqb_spec (admin_password (fields a))
              (H (login_password body))) as [Heq | Hne];
    simpl; [|discriminate].
  intros [= <-]. exists a. auto.
Qed.

(** A lookup answers the only document that satisfies it. *)
Lemma find_one_unique {A} q (c : list (doc ObjectId A)) d :
  In d c -> q d = true ->
  (forall x, In x c -> q x = true -> x = d) ->
  Store.find_one q c = Some d.
Proof.
  induction c as [|y c IH]; simpl; [tauto|]. intros Hin Hq Huniq.
  destruct (q y) eqn:Hqy.
  - f_equal. apply Huniq; auto.
  - destruct Hin as [-> | Hin]; [congruence|].
    apply IH; auto.
Qed.

(** A rewrite that leaves the queried field alone does not change whose
    document the lookup answers. *)
Lemma find_one_set_first_id {A} q p f (c : list (doc ObjectId A)) :
  (forall d, q (Doc (_id d) (f (fields d))) = q d) ->
  option_map _id (Store.find_one q (Store.set_first p f c)) =
  option_map _id (Store.find_one q c).
Proof.
  intros Hq. induction c as [|y c IH]; simpl; [reflexivity|].
  destruct (p y); simpl.
  - rewrite Hq. destruct (q y); reflexivity.
  - destruct (q y); [reflexivity | exact IH].
Qed.

Section TokenLookup.
Variables (db : DB) (a : admin_doc) (info : TokenInfo).
Hypothesis Hnd : NoDup (ids (adminuser db)).
Hypothesis Hin : In a (adminuser db).

Let accounts' :=
  Store.set_first (Store.by_id (_id a)) (set_current_token info)
    (adminuser db).

(** After the account took [info], a different token that no other
    account holds is found nowhere. *)
Lemma lookup_replaced tok :
  tok <> token info ->
  (forall x ct, In x (adminuser db) -> _id x <> _id a ->
                current_token (fields x) = Some ct -> token ct <> tok) ->
  Store.find_one (has_token tok) accounts' = None.
Proof.
  intros Hne Hothers. apply find_one_none_iff. intros x Hx.
  apply (set_first_by_id_In _ _ _ Hnd Hin) in Hx.
  destruct (has_token tok x) eqn:Hhas; [|reflexivity]. exfalso.
  apply has_token_true in Hhas. destruct Hhas as (ct & Hct & Htok).
  destruct Hx as [-> | [Hx Hid]].
  - simpl in Hct. injection Hct as <-. congruence.
  - eapply Hothers; eassumption.
Qed.

(** The token just issued, held by no account before, is found on the
      account that took it. *)
Lemma lookup_issued :
  unknown_token db (token info) ->
  Store.find_one (has_token (token info)) accounts' =
  Some (Doc (_id a) (set_current_token info (fields a))).
Proof.
  intros Hunk. apply find_one_unique.
  - apply (set_first_by_id_In _ _ _ Hnd Hin). now left.
  - unfold has_token. simpl. apply String.eqb_refl.
  - intros x Hx Hhas.
    apply (set_first_by_id_In _ _ _ Hnd Hin) in Hx.
    destruct Hx as [-> | [Hx _]]; [reflexivity|]. exfalso.
    apply has_token_true in Hhas. destruct Hhas as (ct & Hct & Htok).
    eapply Hunk; eassumption.
Qed.
End TokenLookup.

(** C3: after two successful logins on the same e-mail, the second with
    a token no account held, the token of the first login is refused at
    every time, and the token of the second is accepted up to its expiry
    and refused after it.  Its expiry is the one the account stores, the
    whole millisecond at or before the expiry the login answered. *)
Theorem C3_one_session_per_account (H : string -> string)
    (body1 body2 : LoginBody) (rng1 rng2 : nat -> Byte.byte)
    (db0 : DB) (t1 t2 : datetime) (info1 info2 : TokenInfo) :
  let db1 := snd (admin_login H body1 rng1 db0 t1) in
  let db2 := snd (admin_login H body2 rng2 db1 t2) in
  NoDup (ids (adminuser db0)) ->
  login_email body2 = login_email body1 ->
  fst (admin_login H body1 rng1 db0 t1) = Ok info1 ->
  fst (admin_login H body2 rng2 db1 t2) = Ok info2 ->
  unknown_token db0 (token info1) ->
  unknown_token db1 (token info2) ->
  (forall now,
     Unauthorized
       (require_admin db2 now (Some ("Bearer " ++ token info1)))) /\
  (exists account expiry,
     In account (adminuser db2) /\
     admin_email (fields account) = login_email body1 /\
     current_token (fields account) =
       Some {| token := token info2; expires_at := expiry |} /\
     expiry = 1000 * (expires_at info2 / 1000) /\
     expires_at info2 - 1000 < expiry /\ expiry <= expires_at info2 /\
     forall now,
       (now <= expiry ->
        require_admin db2 now (Some ("Bearer " ++ token info2)) =
        Ok account) /\
       (now > expiry ->
        Unauthorized
          (require_admin db2 now (Some ("Bearer " ++ token info2))))).
Proof.
  intros db1 db2 Hnd Hmail Hok1 Hok2 Hfresh1 Hfresh2.
  destruct (admin_login_inv _ _ _ _ _ _ Hok1)
    as (a & Hfind1 & _ & Hinfo1 & Hdb1).
  destruct (admin_login_inv _ _ _ _ _ _ Hok2)
    as (a' & Hfind2 & _ & Hinfo2 & Hdb2).
  fold db1 in Hfind2, Hdb2. fold db2 in Hdb2.
  destruct (find_one_some _ _ _ Hfind1) as [Hin Hmail1].
  destruct (find_one_some _ _ _ Hfind2) as [Hin' Hmail2].
  assert (Hacc1 : adminuser db1 =
                  Store.set_first (Store.by_id (_id a))
                    (set_current_token (TokenInfo_kept info1))
                    (adminuser db0)).
  { unfold db1. rewrite Hdb1. reflexivity. }
  assert (Hid : _id a' = _id a).
  { pose proof (find_one_set_first_id
                  (has_email (login_email body2)) (Store.by_id (_id a))
                  (set_current_token (TokenInfo_kept info1)) (adminuser db0)
                  (fun d => eq_refl)) as Hsame.
    rewrite <- Hacc1, Hfind2, Hmail, Hfind1 in Hsame.
    now injection Hsame. }
  assert (Hnd1 : NoDup (ids (adminuser db1))).
  { rewrite Hacc1, ids_set_first. exact Hnd. }
  assert (Hacc2 : adminuser db2 =
                  Store.set_first (Store.by_id (_id a'))
                    (set_current_token (TokenInfo_kept info2))
                    (adminuser db1)).
  { rewrite Hdb2. reflexivity. }
  assert (Hheld : In (Doc (_id a)
                        (set_current_token (TokenInfo_kept info1) (fields a)))
                     (adminuser db1)).
  { rewrite Hacc1. apply (set_first_by_id_In _ _ _ Hnd Hin). now left. }
  assert (Hdiff : token info1 <> token info2).
  { intros Heq. eapply Hfresh2; [exact Hheld | reflexivity | exact Heq]. }
  assert (Hne2 : Py.truthy (token info2) = true).
  { rewrite Hinfo2. simpl.
    pose proof (token_hex_nonempty rng2 23) as Hne.
    destruct (token_hex rng2 24); [congruence | reflexivity]. }
  split.
  - intros now. rewrite require_admin_Bearer. unfold get_admin_by_token.
    rewrite Hacc2.
    rewrite (lookup_replaced _ _ (TokenInfo_kept info2) Hnd1 Hin' _ Hdiff).
    + destruct (negb _); reflexivity.
    + intros x ct Hx Hxid Hct. rewrite Hacc1 in Hx.
      apply (set_first_by_id_In _ _ _ Hnd Hin) in Hx.
      destruct Hx as [-> | [Hx _]]; [simpl in Hxid; congruence|].
      eapply Hfresh1; eassumption.
  - exists (Doc (_id a')
              (set_current_token (TokenInfo_kept info2) (fields a'))),
           (Bson.millis (expires_at info2)).
    split; [|split; [|split; [|split; [|split; [|split]]]]].
    + rewrite Hacc2. apply (set_first_by_id_In _ _ _ Hnd1 Hin'). now left.
    + simpl. unfold has_email in Hmail2. apply String.eqb_eq in Hmail2.
      congruence.
    + reflexivity.
    + reflexivity.
    + apply millis_gt.
    + apply millis_le.
    + intros now. rewrite require_admin_Bearer. unfold get_admin_by_token.
      rewrite Hne2, Hacc2. cbn [negb].
      pose proof (lookup_issued _ _ (TokenInfo_kept info2) Hnd1 Hin' Hfresh2)
        as Hissued.
      change (token (TokenInfo_kept info2)) with (token info2) in Hissued.
      rewrite Hissued.
      cbn [fields set_current_token current_token TokenInfo_kept expires_at].
      split; intros Hnow.
      * destruct (now >? Bson.millis (expires_at info2)) eqn:Hgt;
          [|reflexivity].
        apply Z.gtb_gt in Hgt. lia.
      * apply Z.gtb_gt in Hnow. rewrite Hnow. reflexivity.
Qed.

(** ** Cursors *)

Section CursorFacts.
Context {A K : Type} `{BsonOrdLaws K}.
Variables (key : A -> K) (dir : direction).
Implicit Types (l : list (doc ObjectId A)) (x y : doc ObjectId A).

Abbreviation precedes := (fun x y => Store.before key dir x y = true).

Lemma before_total x y :
  Store.before key dir x y = true \/ Store.before key dir y x = true.
Proof. unfold Store.before. destruct dir; apply ord_total. Qed.

Lemma before_trans x y z :
  Store.before key dir x y = true -> Store.before key dir y z = true ->
  Store.before key dir x z = true.
Proof.
  unfold Store.before. destruct dir; intros Hxy Hyz.
  - eapply ord_trans; eassumption.
  - eapply ord_trans; eassumption.
Qed.

Lemma insert_sorted_perm x l :
  Permutation (Store.insert_sorted key dir x l) (x :: l).
Proof.
  induction l as [|y l IH]; simpl; [reflexivity|].
  destruct (Store.before key dir x y); [reflexivity|].
  rewrite IH. apply perm_swap.
Qed.

Lemma sort_perm l : Permutation (Store.sort key dir l) l.
Proof.
  induction l as [|x l IH]; simpl; [reflexivity|].
  rewrite insert_sorted_perm. now constructor.
Qed.

Lemma sort_In l x : In x (Store.sort key dir l) <-> In x l.
Proof.
  split; apply Permutation_in; [|symmetry]; apply sort_perm.
Qed.

Lemma insert_sorted_sorted x l :
  StronglySorted precedes l ->
  StronglySorted precedes (Store.insert_sorted key dir x l).
Proof.
  induction l as [|y l IH]; simpl; intros Hs.
  - repeat constructor.
  - inversion Hs as [|? ? Hl Hy]; subst.
    destruct (Store.before key dir x y) eqn:Hxy.
    + constructor; [exact Hs|]. constructor; [exact Hxy|].
      eapply Forall_impl; [|exact Hy]. simpl. intros z Hyz.
      eapply before_trans; eassumption.
    + constructor; [apply IH, Hl|].
      assert (Hyx : Store.before key dir y x = true).
      { destruct (before_total x y); congruence. }
      rewrite Forall_forall. intros z Hz.
      apply (Permutation_in _ (insert_sorted_perm x l)) in Hz.
      destruct Hz as [<- | Hz]; [exact Hyx|].
      rewrite Forall_forall in Hy. now apply Hy.
Qed.

Lemma sort_sorted l : StronglySorted precedes (Store.sort key dir l).
Proof.
  induction l as [|x l IH]; simpl; [constructor|].
  apply insert_sorted_sorted, IH.
Qed.

End CursorFacts.

Lemma In_firstn {B} n (l : list B) x : In x (firstn n l) -> In x l.
Proof.
  intros Hx. rewrite <- (firstn_skipn n l). apply in_or_app. now left.
Qed.

Lemma In_skipn {B} n (l : list B) x : In x (skipn n l) -> In x l.
Proof.
  intros Hx. rewrite <- (firstn_skipn n l). apply in_or_app. now right.
Qed.

Section SortedFacts.
Context {B : Type} (R : B -> B -> Prop).

Lemma StronglySorted_skipn n (l : list B) :
  StronglySorted R l -> StronglySorted R (skipn n l).
Proof.
  revert l. induction n as [|n IH]; intros [|x l] Hs; simpl; auto.
  inversion Hs; subst. now apply IH.
Qed.

Lemma StronglySorted_firstn n (l : list B) :
  StronglySorted R l -> StronglySorted R (firstn n l).
Proof.
  revert l. induction n as [|n IH]; intros [|x l] Hs; simpl;
    try constructor.
  - inversion Hs; subst. now apply IH.
  - inversion Hs as [|? ? _ Hall]; subst.
    rewrite Forall_forall in *. intros y Hy.
    apply Hall. eapply In_firstn, Hy.
Qed.

Lemma StronglySorted_map {C} (f : C -> B) (l : list C) :
  StronglySorted (fun x y => R (f x) (f y)) l ->
  StronglySorted R (map f l).
Proof.
  induction 1 as [|x l _ IH Hall]; simpl; constructor; [exact IH|].
  rewrite Forall_forall in *. intros y Hy.
  apply in_map_iff in Hy. destruct Hy as (z & <- & Hz). now apply Hall.
Qed.
End SortedFacts.

Lemma limit_incl {A} n (l l' : list (doc ObjectId A)) x :
  Store.limit n l = Ok l' -> In x l' -> In x l.
Proof.
  unfold Store.limit. destruct (2 ^ 63 <=? Z.abs n); [discriminate|].
  intros [= <-]. destruct (n =? 0); [tauto | apply In_firstn].
Qed.

Lemma skip_incl {A} n (l l' : list (doc ObjectId A)) x :
  Store.skip n l = Ok l' -> In x l' -> In x l.
Proof.
  unfold Store.skip. destruct (n <? 0); [discriminate|].
  destruct (2 ^ 63 <=? n); [discriminate|].
  intros [= <-]. apply In_skipn.
Qed.

Lemma limit_sorted {A} (R : doc ObjectId A -> doc ObjectId A -> Prop)
    n l l' :
  Store.limit n l = Ok l' -> StronglySorted R l -> StronglySorted R l'.
Proof.
  unfold Store.limit. destruct (2 ^ 63 <=? Z.abs n); [discriminate|].
  intros [= <-]. destruct (n =? 0); [tauto|].
  apply StronglySorted_firstn.
Qed.

Lemma skip_sorted {A} (R : doc ObjectId A -> doc ObjectId A -> Prop)
    n l l' :
  Store.skip n l = Ok l' -> StronglySorted R l -> StronglySorted R l'.
Proof.
  unfold Store.skip. destruct (n <? 0); [discriminate|].
  destruct (2 ^ 63 <=? n); [discriminate|].
  intros [= <-]. apply StronglySorted_skipn.
Qed.

Lemma skip_ok {A} n (l : list (doc ObjectId A)) :
  0 <= n < 2 ^ 63 -> Store.skip n l = Ok (skipn (Z.to_nat n) l).
Proof.
  intros Hn. unfold Store.skip.
  destruct (Z.ltb_spec n 0); [lia|].
  destruct (Z.leb_spec (2 ^ 63) n); [lia | reflexivity].
Qed.

Lemma limit_ok {A} n (l : list (doc ObjectId A)) :
  1 <= n < 2 ^ 63 -> Store.limit n l = Ok (firstn (Z.to_nat n) l).
Proof.
  intros Hn. unfold Store.limit. rewrite (Z.abs_eq n) by lia.
  destruct (Z.leb_spec (2 ^ 63) n); [lia|].
  destruct (Z.eqb_spec n 0); [lia | reflexivity].
Qed.

Lemma StronglySorted_impl {B} (R R' : B -> B -> Prop) (l : list B) :
  (forall x y, R x y -> R' x y) ->
  StronglySorted R l -> StronglySorted R' l.
Proof.
  intros Himpl. induction 1 as [|x l _ IH Hall]; constructor; [exact IH|].
  eapply Forall_impl; [|exact Hall]. apply Himpl.
Qed.

(** ** The catalog listing *)

Lemma list_products_eq category sort page limit db :
  list_products category sort page limit db =
  (cursor <- Store.skip ((or_default page 1 - 1) * or_default limit 12)
               (catalog_cursor category sort db) ;;
   cursor <- Store.limit (or_default limit 12) cursor ;;
   Ok {| page_items := map Store.stringify cursor;
         page_total :=
           Z.of_nat
             (List.length (filter (product_matches (catalog_query category))
                             (products db)));
         page_page := or_default page 1;
         page_limit := or_default limit 12 |}).
Proof.
  unfold list_products, catalog_cursor, catalog_query.
  destruct (String.eqb (or_default sort "newest") "price_asc");
    [reflexivity|].
  destruct (String.eqb (or_default sort "newest") "price_desc");
    reflexivity.
Qed.

(** A page [p] of [n] products, both at least 1 and within what the
    driver can send. *)
Lemma list_products_page category sort page limit db :
  let p := or_default page 1 in
  let n := or_default limit 12 in
  1 <= p -> 1 <= n -> n < 2 ^ 63 -> (p - 1) * n < 2 ^ 63 ->
  list_products category sort page limit db =
  Ok {| page_items :=
          map Store.stringify
            (firstn (Z.to_nat n)
               (skipn (Z.to_nat ((p - 1) * n))
                  (catalog_cursor category sort db)));
        page_total :=
          Z.of_nat
            (List.length (filter (product_matches (catalog_query category))
                            (products db)));
        page_page := p;
        page_limit := n |}.
Proof.
  intros p n Hp Hn Hnb Hsb. rewrite list_products_eq. fold p n.
  rewrite skip_ok by nia. cbn [bind]. rewrite limit_ok by lia.
  reflexivity.
Qed.

Lemma catalog_cursor_In category sort db d :
  In d (catalog_cursor category sort db) <->
  In d (products db) /\ product_matches (catalog_query category) d = true.
Proof.
  unfold catalog_cursor, Store.find.
  destruct (String.eqb _ "price_asc"); [|destruct (String.eqb _ "price_desc")];
    rewrite sort_In; apply filter_In.
Qed.

Lemma catalog_cursor_perm category sort db :
  Permutation (catalog_cursor category sort db)
    (filter (product_matches (catalog_query category)) (products db)).
Proof.
  unfold catalog_cursor, Store.find.
  destruct (String.eqb _ "price_asc"); [|destruct (String.eqb _ "price_desc")];
    apply sort_perm.
Qed.

Lemma list_products_items category sort page limit db r p :
  list_products category sort page limit db = Ok r ->
  In p (page_items r) ->
  exists d, In d (products db) /\
            product_matches (catalog_query category) d = true /\
            p = Store.stringify d.
Proof.
  rewrite list_products_eq. unfold bind.
  destruct (Store.skip _ _) as [cursor|] eqn:Hskip; [|discriminate].
  destruct (Store.limit _ _) as [shown|] eqn:Hlimit; [|discriminate].
  intros [= <-]. simpl. intros Hp.
  apply in_map_iff in Hp. destruct Hp as (d & <- & Hd).
  eapply limit_incl in Hd; [|exact Hlimit].
  eapply skip_incl in Hd; [|exact Hskip].
  apply catalog_cursor_In in Hd. exists d. tauto.
Qed.

(** C4 (amended): whatever the filters, every listed product is active;
    and when the category filter is a non-empty string other than "All",
    every listed product has that category. *)
Theorem C4_list_products_filter (category_filter sort : option string)
    (page limit : option Z) (db : DB) (r : ProductPage) :
  list_products category_filter sort page limit db = Ok r ->
  forall p, In p (page_items r) ->
    active (data (fields p)) = true /\
    (forall c, category_filter = Some c -> c <> "" -> c <> "All" ->
               category (data (fields p)) = c).
Proof.
  intros Hr p Hp.
  destruct (list_products_items _ _ _ _ _ _ _ Hr Hp) as (d & _ & Hm & ->).
  unfold product_matches, catalog_query in Hm.
  cbn [q_active q_category field_eqb] in Hm.
  apply andb_true_iff in Hm. destruct Hm as [Hact Hcat]. split.
  - cbn [Store.stringify fields]. now apply Bool.eqb_prop in Hact.
  - intros c -> Hne Hall. cbn [Store.stringify fields].
    assert (Htruthy : Py.truthy_opt (Some c) = true).
    { destruct c; [congruence | reflexivity]. }
    apply String.eqb_neq in Hall.
    rewrite Htruthy in Hcat. cbn [or_default] in Hcat.
    rewrite Hall in Hcat. cbn [negb andb field_eqb] in Hcat.
    now apply String.eqb_eq in Hcat.
Qed.

Lemma catalog_cursor_length category_filter sort db :
  List.length (catalog_cursor category_filter sort db) =
  List.length (filter (product_matches (catalog_query category_filter))
                 (products db)).
Proof. apply Permutation_length, catalog_cursor_perm. Qed.

(** C6 (amended): for a page number and a limit that are both at least 1
    (page 1 and limit 12 when left out), and with the limit and the
    count (page-1)*limit both below 2^63, the listing skips
    (page-1)*limit of the sorted matching products and returns the next
    limit of them at most; total counts the matching products before
    skip and limit.  So page 2 with limit 5 on 12 matching products
    returns the 6th to the 10th with total 12.  When the limit or the
    count to skip reaches 2^63 the driver cannot send it and the request
    is answered with 500. *)
Theorem C6_list_products_page (category_filter sort : option string)
    (page limit : option Z) (db : DB) :
  let p := or_default page 1 in
  let n := or_default limit 12 in
  let matching := catalog_cursor category_filter sort db in
  list_products category_filter sort None None db =
  list_products category_filter sort (Some 1) (Some 12) db /\
  (1 <= p -> 1 <= n -> n < 2 ^ 63 -> (p - 1) * n < 2 ^ 63 ->
   exists r,
     list_products category_filter sort page limit db = Ok r /\
     page_items r =
       map Store.stringify
         (firstn (Z.to_nat n) (skipn (Z.to_nat ((p - 1) * n)) matching)) /\
     Z.of_nat (List.length (page_items r)) <= n /\
     page_total r =
       Z.of_nat
         (List.length
            (filter (product_matches (catalog_query category_filter))
               (products db))) /\
     page_page r = p /\ page_limit r = n /\
     (p = 2 -> n = 5 -> List.length matching = 12%nat ->
      page_total r = 12 /\
      exists first5 shown rest : list (doc ObjectId (stamped Product)),
        matching = (first5 ++ shown ++ rest)%list /\
        List.length first5 = 5%nat /\ List.length shown = 5%nat /\
        page_items r = map Store.stringify shown)) /\
  (1 <= p -> 1 <= n -> 2 ^ 63 <= n \/ 2 ^ 63 <= (p - 1) * n ->
   list_products category_filter sort page limit db =
     Raise (OverflowError "MongoDB can only handle up to 8-byte ints") /\
   http_status (list_products category_filter sort page limit db) = 500).
Proof.
  intros p n matching. split; [reflexivity|]. split.
  - intros Hp Hn Hnb Hsb.
    rewrite (list_products_page _ _ _ _ _ Hp Hn Hnb Hsb). fold p n matching.
    eexists. split; [reflexivity|].
    cbn [page_items page_total page_page page_limit].
    split; [reflexivity|]. split.
    { rewrite length_map. pose proof (firstn_le_length (Z.to_nat n)
        (skipn (Z.to_nat ((p - 1) * n)) matching)). lia. }
    split; [reflexivity|]. split; [reflexivity|]. split; [reflexivity|].
    intros Hp2 Hn5 Hlen. split.
    { unfold matching in Hlen. rewrite catalog_cursor_length in Hlen.
      rewrite Hlen. reflexivity. }
    rewrite Hp2, Hn5. change (Z.to_nat ((2 - 1) * 5)) with 5%nat.
    change (Z.to_nat 5) with 5%nat.
    exists (firstn 5 matching), (firstn 5 (skipn 5 matching)),
           (skipn 5 (skipn 5 matching)).
    split; [now rewrite !firstn_skipn|].
    rewrite !length_firstn, length_skipn, Hlen. auto.
  - intros Hp Hn Hbig.
    assert (Hraise : list_products category_filter sort page limit db =
                     Bson.too_big).
    { rewrite list_products_eq. fold p n. unfold Store.skip, Store.limit.
      destruct (Z.ltb_spec ((p - 1) * n) 0); [nia|].
      destruct (Z.leb_spec (2 ^ 63) ((p - 1) * n)); [reflexivity|].
      cbn [bind]. rewrite (Z.abs_eq n) by lia.
      destruct (Z.leb_spec (2 ^ 63) n); [reflexivity | lia]. }
    rewrite Hraise. split; reflexivity.
Qed.

(** The order of the cursor carries over to the page. *)
Lemma page_sorted (R : stamped Product -> stamped Product -> Prop)
    category_filter sort page limit db r :
  StronglySorted (fun x y => R (fields x) (fields y))
    (catalog_cursor category_filter sort db) ->
  list_products category_filter sort page limit db = Ok r ->
  StronglySorted (fun x y : doc string (stamped Product) =>
                    R (fields x) (fields y)) (page_items r).
Proof.
  intros Hs. rewrite list_products_eq. unfold bind.
  destruct (Store.skip _ _) as [cursor|] eqn:Hskip; [|discriminate].
  destruct (Store.limit _ _) as [shown|] eqn:Hlimit; [|discriminate].
  intros [= <-]. cbn [page_items].
  apply StronglySorted_map. cbn [Store.stringify fields].
  eapply limit_sorted; [exact Hlimit|].
  eapply skip_sorted; eassumption.
Qed.

(** The cursor of the listing is in the order [sort] asks for. *)
Lemma catalog_cursor_sorted category_filter sort db :
  (sort = Some "price_asc" ->
   StronglySorted
     (fun x y : doc ObjectId (stamped Product) =>
        (price (data (fields x)) <= price (data (fields y)))%Q)
     (catalog_cursor category_filter sort db)) /\
  (sort = Some "price_desc" ->
   StronglySorted
     (fun x y : doc ObjectId (stamped Product) =>
        (price (data (fields y)) <= price (data (fields x)))%Q)
     (catalog_cursor category_filter sort db)) /\
  (sort <> Some "price_asc" -> sort <> Some "price_desc" ->
   StronglySorted
     (fun x y : doc ObjectId (stamped Product) =>
        stamp (fields y) <= stamp (fields x))
     (catalog_cursor category_filter sort db)).
Proof.
  split; [|split].
  - intros ->.
    unfold catalog_cursor. cbn [or_default String.eqb Ascii.eqb Bool.eqb].
    eapply StronglySorted_impl; [|apply sort_sorted].
    intros x y. cbn. apply Qle_bool_imp_le.
  - intros ->.
    unfold catalog_cursor. cbn [or_default String.eqb Ascii.eqb Bool.eqb].
    eapply StronglySorted_impl; [|apply sort_sorted].
    intros x y. cbn. apply Qle_bool_imp_le.
  - intros Hasc Hdesc.
    unfold catalog_cursor.
    assert (H1 : String.eqb (or_default sort "newest") "price_asc" = false).
    { apply String.eqb_neq. destruct sort; simpl; congruence. }
    assert (H2 : String.eqb (or_default sort "newest") "price_desc" = false).
    { apply String.eqb_neq. destruct sort; simpl; congruence. }
    rewrite H1, H2.
    eapply StronglySorted_impl; [|apply sort_sorted].
    intros x y. cbn. apply Z.leb_le.
Qed.

(** C7: the listing puts the matching products in non-decreasing price
    order for [sort=price_asc], in non-increasing price order for
    [sort=price_desc], and in non-increasing order of creation time for
    any other value of [sort] and when [sort] is left out; the page
    answered is the part of that ordered listing the page number and the
    limit select, so it is in that order too.  Whatever page comes
    back is in that order. *)
Theorem C7_list_products_sorted (category_filter sort : option string)
    (page limit : option Z) (db : DB) :
  let p := or_default page 1 in
  let n := or_default limit 12 in
  (1 <= p -> 1 <= n -> n < 2 ^ 63 -> (p - 1) * n < 2 ^ 63 ->
   exists listing r,
     Permutation listing
       (filter (product_matches (catalog_query category_filter))
          (products db)) /\
     (sort = Some "price_asc" ->
      StronglySorted
        (fun x y => (price (data (fields x)) <= price (data (fields y)))%Q)
        listing) /\
     (sort = Some "price_desc" ->
      StronglySorted
        (fun x y => (price (data (fields y)) <= price (data (fields x)))%Q)
        listing) /\
     (sort <> Some "price_asc" -> sort <> Some "price_desc" ->
      StronglySorted
        (fun x y => stamp (fields y) <= stamp (fields x)) listing) /\
     list_products category_filter sort page limit db = Ok r /\
     page_items r =
       map Store.stringify
         (firstn (Z.to_nat n) (skipn (Z.to_nat ((p - 1) * n)) listing))) /\
  (forall r,
     list_products category_filter sort page limit db = Ok r ->
     (sort = Some "price_asc" ->
      StronglySorted
        (fun x y => (price (data (fields x)) <= price (data (fields y)))%Q)
        (page_items r)) /\
     (sort = Some "price_desc" ->
      StronglySorted
        (fun x y => (price (data (fields y)) <= price (data (fields x)))%Q)
        (page_items r)) /\
     (sort <> Some "price_asc" -> sort <> Some "price_desc" ->
      StronglySorted
        (fun x y => stamp (fields y) <= stamp (fields x))
        (page_items r))).
Proof.
  intros p n.
  destruct (catalog_cursor_sorted category_filter sort db)
    as (Hasc & Hdesc & Hnew).
  split.
  - intros Hp Hn Hnb Hsb.
    exists (catalog_cursor category_filter sort db). eexists.
    split; [apply catalog_cursor_perm|].
    split; [exact Hasc|]. split; [exact Hdesc|]. split; [exact Hnew|].
    split; [apply (list_products_page _ _ _ _ _ Hp Hn Hnb Hsb)|].
    reflexivity.
  - intros r Hr. split; [|split].
    + intros Hs.
      apply (page_sorted (fun f g => (price (data f) <= price (data g))%Q)
               _ _ _ _ _ _) with (2 := Hr). now apply Hasc.
    + intros Hs.
      apply (page_sorted (fun f g => (price (data g) <= price (data f))%Q)
               _ _ _ _ _ _) with (2 := Hr). now apply Hdesc.
    + intros Hs1 Hs2.
      apply (page_sorted (fun f g => stamp g <= stamp f)
               _ _ _ _ _ _) with (2 := Hr). now apply Hnew.
Qed.

(** ** The admin order listing *)













(** ** Order creation *)

Lemma int64_all (l : list OrderItem) :
  (forall i, In i l -> - 2 ^ 63 <= quantity i < 2 ^ 63) ->
  forallb (fun i => Bson.int64 (quantity i)) l = true.
Proof.
  intros Hfit. apply forallb_forall. intros i Hi.
  apply int64_fits. now apply Hfit.
Qed.

Lemma int64_some (l : list OrderItem) :
  (exists i, In i l /\ (quantity i < - 2 ^ 63 \/ 2 ^ 63 <= quantity i)) ->
  forallb (fun i => Bson.int64 (quantity i)) l = false.
Proof.
  intros (i & Hi & Hq). apply int64_too_big in Hq.
  destruct (forallb _ l) eqn:Hall; [|reflexivity].
  rewrite forallb_forall in Hall. rewrite (Hall i Hi) in Hq. discriminate.
Qed.

(** C8 (amended): [POST /api/orders] answers 422 and stores nothing
    when the customer's e-mail is refused by the validation of the body,
    and raises in the driver, storing nothing, when a quantity does not
    fit 8 bytes.  Otherwise it appends one order under a fresh
    identifier of the store and answers that identifier; the order is
    stored with [created_at] equal to the server's clock, rounded down
    to the whole millisecond as the store keeps it, whatever the body
    said; with the status of the body, which is Pending when the body
    leaves it out; and with the customer's e-mail as the validation
    normalised it. *)
Theorem C8_post_order (validate_email : string -> option string)
    (body : OrderBody) (db : DB) (now : datetime) :
  wf db ->
  let oid := next_oid db in
  let out := post_order validate_email body db now in
  (validate_email (email (body_customer body)) = None ->
   http_status (fst out) = 422 /\ snd out = db) /\
  (forall e, validate_email (email (body_customer body)) = Some e ->
     ((exists i, In i (body_items body) /\
                 (quantity i < - 2 ^ 63 \/ 2 ^ 63 <= quantity i)) ->
      fst out =
        Raise (OverflowError "MongoDB can only handle up to 8-byte ints") /\
      snd out = db) /\
     ((forall i, In i (body_items body) ->
                 - 2 ^ 63 <= quantity i < 2 ^ 63) ->
      exists stored,
        out =
          (Ok (Bson.str oid),
           set_orders (snd (take_oid db))
             (orders db ++ [Doc oid stored])) /\
        ~ In oid (ids (orders db)) /\
        o_created_at stored = Some (1000 * (now / 1000)) /\
        now - 1000 < 1000 * (now / 1000) <= now /\
        o_status stored =
          OrderStatus_str (or_default (body_status body) Pending) /\
        (body_status body = None -> o_status stored = "Pending") /\
        o_items stored = body_items body /\
        o_customer stored = set_email (body_customer body) e /\
        email (o_customer stored) = e /\
        o_subtotal stored = body_subtotal body /\
        o_shipping stored = body_shipping body /\
        o_total stored = body_total body)).
Proof.
  intros Hwf oid out. subst out. unfold post_order, Order_validate. split.
  - intros ->. split; reflexivity.
  - intros e ->. rewrite create_order_eq. cbn [items]. split.
    + intros Hbig. rewrite (int64_some _ Hbig). split; reflexivity.
    + intros Hfit. rewrite (int64_all _ Hfit).
      eexists. split; [reflexivity|]. split.
      * intros Hin. destruct (wf_orders _ Hwf) as [_ Hall].
        rewrite Forall_forall in Hall. specialize (Hall _ Hin).
        unfold oid in Hall. lia.
      * unfold order_kept.
        cbn [o_created_at o_status o_items o_customer o_subtotal o_shipping
             o_total OrderFields_kept set_created_at model_dump option_map
             items customer status subtotal shipping total email set_email].
        split; [reflexivity|].
        pose proof (millis_le now). pose proof (millis_gt now).
        unfold Bson.millis in *.
        split; [lia|]. split; [reflexivity|].
        split; [now intros ->|]. repeat split.
Qed.

(** ** Single products *)

Lemma get_product_by_slug_eq s db :
  get_product_by_slug s db =
  match Store.find_one (active_slug s) (products db) with
  | None => not_found "Product not found"
  | Some p => Ok (Store.stringify p)
  end.
Proof. reflexivity. Qed.

Lemma by_id_absent {A} oid (c : list (doc ObjectId A)) :
  ~ In oid (ids c) -> forall d, In d c -> Store.by_id oid d = false.
Proof.
  intros Hnot d Hd. unfold Store.by_id. apply N.eqb_neq.
  intros Heq. apply Hnot. rewrite <- Heq. now apply in_map.
Qed.

Lemma NoDup_ids_same {A} (c : list (doc ObjectId A)) x y :
  NoDup (ids c) -> In x c -> In y c -> _id x = _id y -> x = y.
Proof.
  unfold ids. induction c as [|z c IH]; simpl; [tauto|].
  intros Hnd Hx Hy Hid. inversion Hnd as [|? ? Hnotin Hrest]; subst.
  destruct Hx as [-> | Hx], Hy as [-> | Hy]; auto.
  - exfalso. apply Hnotin. rewrite Hid. now apply in_map.
  - exfalso. apply Hnotin. rewrite <- Hid. now apply in_map.
Qed.

Lemma find_one_by_id {A} (c : list (doc ObjectId A)) d :
  NoDup (ids c) -> In d c -> Store.find_one (Store.by_id (_id d)) c = Some d.
Proof.
  intros Hnd Hd. apply find_one_unique; [exact Hd | apply N.eqb_refl |].
  intros x Hx Hq. apply N.eqb_eq in Hq. eapply NoDup_ids_same; eassumption.
Qed.

(** C9: the slug route answers 404 unless some product with the slug is
    active, and then answers an active product with the slug.  The
    identifier route answers 404 when no product carries the identifier
    and otherwise the product that carries it, active or not; the
    identifier is the one 24 hex digits spell, and a stored product is
    fetched under the text of its identifier.  Of the other strings,
    24 characters of hex digits and whitespace that spell fewer than
    12 bytes are an identifier no product carries, hence 404, and every
    string [ObjectId] refuses is answered with 400. *)
Theorem C9_get_product (db : DB) :
  (forall s,
     (forall d, In d (products db) -> slug (data (fields d)) = s ->
                active (data (fields d)) = false) ->
     get_product_by_slug s db =
       Raise (HTTPException 404 "Product not found")) /\
  (forall s d, In d (products db) -> slug (data (fields d)) = s ->
     active (data (fields d)) = true ->
     exists d', In d' (products db) /\
                slug (data (fields d')) = s /\
                active (data (fields d')) = true /\
                get_product_by_slug s db = Ok (Store.stringify d')) /\
  (forall pid oid,
     String.length pid = 24%nat -> Hex.to_N 0 pid = Some oid ->
     ((forall d, In d (products db) -> _id d <> oid) ->
      get_product_by_id pid db =
        Raise (HTTPException 404 "Product not found")) /\
     (forall d, NoDup (ids (products db)) -> In d (products db) ->
        _id d = oid ->
        get_product_by_id pid db = Ok (Store.stringify d))) /\
  (forall d, NoDup (ids (products db)) -> In d (products db) ->
     (_id d < 2 ^ 96)%N ->
     get_product_by_id (Bson.str (_id d)) db = Ok (Store.stringify d)) /\
  (forall pid n,
     String.length pid = 24%nat -> hex_bytes pid n -> (n < 12)%nat ->
     get_product_by_id pid db =
       Raise (HTTPException 404 "Product not found")) /\
  (forall pid,
     String.length pid <> 24%nat \/ (forall n, ~ hex_bytes pid n) ->
     get_product_by_id pid db = Raise (HTTPException 400 "Invalid ID")).
Proof.
  assert (Hfull : forall pid oid,
             Bson.construct pid = Some (Bson.Full oid) ->
             forall d, NoDup (ids (products db)) -> In d (products db) ->
                       _id d = oid ->
                       get_product_by_id pid db = Ok (Store.stringify d)).
  { intros pid oid Hc d Hnd Hd <-. unfold get_product_by_id.
    rewrite Hc. cbn [Store.by_oid]. now rewrite (find_one_by_id _ _ Hnd Hd). }
  split; [|split; [|split; [|split; [|split]]]].
  - intros s Hnone. rewrite get_product_by_slug_eq.
    assert (Hf : Store.find_one (active_slug s) (products db) = None).
    { apply find_one_none_iff. intros d Hd. unfold active_slug.
      destruct (String.eqb_spec (slug (data (fields d))) s) as [Hs | _];
        [|reflexivity].
      now rewrite (Hnone d Hd Hs). }
    now rewrite Hf.
  - intros s d Hd Hs Hact. rewrite get_product_by_slug_eq.
    destruct (Store.find_one (active_slug s) (products db)) as [d'|] eqn:Hf.
    + destruct (find_one_some _ _ _ Hf) as [Hd' Hq].
      unfold active_slug in Hq. apply andb_true_iff in Hq.
      destruct Hq as [Hs' Hact']. apply String.eqb_eq in Hs'.
      apply Bool.eqb_prop in Hact'. exists d'. auto.
    + exfalso. pose proof (find_one_none _ _ Hf d Hd) as Hq.
      unfold active_slug in Hq. rewrite Hact in Hq.
      apply String.eqb_eq in Hs. rewrite Hs in Hq. discriminate.
  - intros pid oid Hlen Hv.
    assert (Hc : Bson.construct pid = Some (Bson.Full oid))
      by (apply construct_spells; now constructor).
    split; [|now apply Hfull].
    intros Hnone. unfold get_product_by_id. rewrite Hc.
    cbn [Store.by_oid].
    assert (Hf : Store.find_one (Store.by_id oid) (products db) = None).
    { apply find_one_none_iff. intros d Hd. unfold Store.by_id.
      apply N.eqb_neq. now apply Hnone. }
    now rewrite Hf.
  - intros d Hnd Hd Hbound.
    apply (Hfull _ (_id d) (construct_str_id _ Hbound) d Hnd Hd eq_refl).
  - intros pid n Hlen Hn Hlt.
    assert (Hc : Bson.construct pid = Some Bson.Short)
      by (apply construct_spells; econstructor; eassumption).
    unfold get_product_by_id. rewrite Hc.
    assert (Hf : Store.find_one (Store.by_oid Bson.Short) (products db)
                 = None).
    { apply find_one_none_iff. reflexivity. }
    now rewrite Hf.
  - intros pid Hbad. apply construct_refused in Hbad.
    unfold get_product_by_id. now rewrite Hbad.
Qed.

(** ** Categories *)

(** C10: with [active=false] the category listing holds every
    category, active or not; when [active] is left out or true it holds
    the active categories only; in both cases in ascending order of
    name. *)
Theorem C10_list_categories (active_param : option bool) (db : DB) :
  (active_param = Some false ->
   Permutation (list_categories active_param db)
     (map Store.stringify (categories db))) /\
  (active_param <> Some false ->
   Permutation (list_categories active_param db)
     (map Store.stringify
        (filter (fun c => cat_active (data (fields c))) (categories db)))) /\
  StronglySorted
    (fun x y => str_leb (cat_name (data (fields x)))
                  (cat_name (data (fields y))) = true)
    (list_categories active_param db).
Proof.
  unfold list_categories. change (direction_of 1) with ASCENDING.
  split; [|split].
  - intros ->. cbn [or_default]. apply Permutation_map.
    rewrite sort_perm. unfold Store.find.
    rewrite forallb_filter_id; [reflexivity|].
    apply forallb_forall. reflexivity.
  - intros Hne.
    assert (Hact : or_default active_param true = true).
    { destruct active_param as [[|]|]; simpl; congruence. }
    rewrite Hact. apply Permutation_map. rewrite sort_perm.
    unfold Store.find. erewrite filter_ext; [reflexivity|].
    intros c. simpl. now destruct (cat_active (data (fields c))).
  - apply StronglySorted_map. cbn [Store.stringify fields].
    eapply StronglySorted_impl; [|apply sort_sorted].
    intros x y Hxy. exact Hxy.
Qed.

(** * The theorems at work on the shop *)

Lemma wf_shop_db : wf shop_db.
Proof.
  split; try (split; simpl;
              [repeat constructor; simpl; intuition discriminate
              |repeat constructor]).
  intros a t [<- | []]. simpl. intros [= <-]. discriminate.
Qed.

(** C1 on the shop: the stored token is accepted before its expiry and
    refused after it; an unknown token and a header without the
    Bearer prefix are refused. *)
Lemma C1_require_admin_witness :
  require_admin shop_db 999 (Some "Bearer c0ffee") = Ok root /\
  Unauthorized (require_admin shop_db 1001 (Some "Bearer c0ffee")) /\
  Unauthorized (require_admin shop_db 999 (Some "Bearer decaf")) /\
  Unauthorized (require_admin shop_db 999 (Some "c0ffee")).
Proof.
  split; [|split; [|split]].
  - destruct (C1_require_admin shop_db 999 (Some "Bearer c0ffee"))
      as (_ & Hbearer & _).
    destruct (Hbearer "c0ffee" eq_refl) as [_ Hfound].
    apply (Hfound root _ eq_refl eq_refl); [apply wf_shop_db | simpl; lia].
  - destruct (C1_require_admin shop_db 1001 (Some "Bearer c0ffee"))
      as (_ & Hbearer & _).
    destruct (Hbearer "c0ffee" eq_refl) as [_ Hfound].
    apply (Hfound root _ eq_refl eq_refl). simpl. lia.
  - destruct (C1_require_admin shop_db 999 (Some "Bearer decaf"))
      as (_ & Hbearer & _).
    destruct (Hbearer "decaf" eq_refl) as [Hunknown _].
    apply Hunknown. intros a ct [<- | []]. simpl.
    intros [= <-]. discriminate.
  - destruct (C1_require_admin shop_db 999 (Some "c0ffee")) as (Hbad & _).
    apply Hbad. right. exists "c0ffee". split; reflexivity.
Defined.

(** C2 as stated fails: the pair the login answers is not the pair the
    account holds afterwards, when the clock does not read a whole
    millisecond. *)
Lemma C2_counterexample :
  exists answered account persisted,
    fst (admin_login toy_digest root_login (fun _ => Byte.x2a) shop_db
           1234567) = Ok answered /\
    In account
       (adminuser
          (snd (admin_login toy_digest root_login (fun _ => Byte.x2a)
                  shop_db 1234567))) /\
    admin_email (fields account) = login_email root_login /\
    current_token (fields account) = Some persisted /\
    expires_at answered = 28801234567 /\
    expires_at persisted = 28801234000 /\
    persisted <> answered.
Proof.
  eexists. eexists. eexists. split; [reflexivity|].
  split; [left; reflexivity|]. split; [reflexivity|].
  split; [reflexivity|]. split; [reflexivity|]. split; [reflexivity|].
  discriminate.
Qed.

(** C2 (amended) on the shop: a login at a clock reading of 1.234567
    seconds answers the hex text of the 24 bytes drawn with the expiry
    8 hours later, and the account holds the token with the expiry
    rounded down to the millisecond. *)
Lemma C2_admin_login_witness :
  exists tok persisted,
    fst (admin_login toy_digest root_login (fun _ => Byte.x2a) shop_db
           1234567) =
    Ok {| token := tok; expires_at := 28801234567 |} /\
    tok = "2a2a2a2a2a2a2a2a2a2a2a2a2a2a2a2a2a2a2a2a2a2a2a2a" /\
    persisted = 28801234000 /\
    In (Doc 0%N
          {| admin_email := "root@shop.example";
             admin_password := "digest-of-secret";
             admin_created_at := 0;
             current_token :=
               Some {| token := tok; expires_at := persisted |} |})
       (adminuser
          (snd (admin_login toy_digest root_login (fun _ => Byte.x2a)
                  shop_db 1234567))).
Proof.
  pose proof (C2_admin_login toy_digest root_login (fun _ => Byte.x2a)
                shop_db 1234567) as Hlogin.
  cbv zeta in Hlogin. destruct Hlogin as [_ Hfound].
  destruct (Hfound root eq_refl) as [_ Hok].
  destruct Hok as (tok & persisted & _ & _ & _ & Hout & Hacc & Hkept & _).
  - reflexivity.
  - repeat constructor. simpl. tauto.
  - exists tok, persisted. split; [exact Hout|].
    assert (Htok : tok = "2a2a2a2a2a2a2a2a2a2a2a2a2a2a2a2a2a2a2a2a2a2a2a2a").
    { vm_compute in Hout. now injection Hout as <-. }
    split; [exact Htok|]. split; [rewrite Hkept; reflexivity|].
    apply Hacc. left. reflexivity.
Defined.

(** C3 on the shop: after two logins the first token is refused and the
    second accepted, up to the whole millisecond at or before the expiry
    answered (9 microseconds past 8 hours). *)
Lemma C3_one_session_per_account_witness :
  Unauthorized
    (require_admin relogged_db 10
       (Some "Bearer 2a2a2a2a2a2a2a2a2a2a2a2a2a2a2a2a2a2a2a2a2a2a2a2a")) /\
  exists account,
    require_admin relogged_db 28800000000
      (Some "Bearer 2b2b2b2b2b2b2b2b2b2b2b2b2b2b2b2b2b2b2b2b2b2b2b2b") =
    Ok account /\
    Unauthorized
      (require_admin relogged_db 28800000001
         (Some "Bearer 2b2b2b2b2b2b2b2b2b2b2b2b2b2b2b2b2b2b2b2b2b2b2b2b")).
Proof.
  pose proof (C3_one_session_per_account toy_digest root_login root_login
                (fun _ => Byte.x2a) (fun _ => Byte.x2b) shop_db 5 9
                {| token := token_hex (fun _ => Byte.x2a) 24;
                   expires_at := 5 + timedelta_hours 8 |}
                {| token := token_hex (fun _ => Byte.x2b) 24;
                   expires_at := 9 + timedelta_hours 8 |}) as Hsession.
  cbv zeta in Hsession.
  destruct Hsession
    as [Hold (account & expiry & _ & _ & _ & Hexp & _ & _ & Hnew)].
  - repeat constructor. simpl. tauto.
  - reflexivity.
  - reflexivity.
  - reflexivity.
  - intros a ct [<- | []]. simpl. intros [= <-]. discriminate.
  - intros a ct [<- | []]. simpl. intros [= <-]. discriminate.
  - split; [exact (Hold 10)|]. exists account.
    assert (Hexpiry : expiry = 28800000000) by (rewrite Hexp; reflexivity).
    split.
    + apply (proj1 (Hnew 28800000000)). rewrite Hexpiry. lia.
    + apply (proj2 (Hnew 28800000001)). rewrite Hexpiry. lia.
Defined.

(** C4 as stated fails: the empty string as category filter is a filter
    other than "All", and the listing still holds a product of another
    category. *)
Lemma C4_counterexample :
  exists r p,
    list_products (Some "") None None None shop_db = Ok r /\
    In p (page_items r) /\
    "" <> "All" /\
    category (data (fields p)) <> "".
Proof.
  eexists. eexists. split; [reflexivity|]. split; [left; reflexivity|].
  split; discriminate.
Qed.

(** C4 (amended) on the shop, for the category filter [vases]. *)
Lemma C4_list_products_filter_witness :
  exists r,
    list_products (Some "vases") None None None shop_db = Ok r /\
    Forall (fun p => active (data (fields p)) = true /\
                     category (data (fields p)) = "vases")
      (page_items r).
Proof.
  eexists. split; [reflexivity|]. apply Forall_forall. intros p Hp.
  destruct (C4_list_products_filter (Some "vases") None None None shop_db _
              eq_refl p Hp) as [Hact Hcat].
  split; [exact Hact|]. apply Hcat; [reflexivity | discriminate..].
Defined.



(** C6 as stated fails: with [limit=0] the listing holds every matching
    product, more than the limit. *)
Lemma C6_counterexample :
  exists r,
    list_products None None (Some 1) (Some 0) shop_db = Ok r /\
    page_limit r = 0 /\
    List.length (page_items r) = 2%nat /\
    ~ Z.of_nat (List.length (page_items r)) <= page_limit r.
Proof.
  eexists. split; [reflexivity|]. split; [reflexivity|].
  split; [reflexivity|]. simpl. lia.
Qed.

(** C6 (amended) on the shop, for page 2 with limit 1, and for a limit
    the driver cannot send. *)
Lemma C6_list_products_page_witness :
  (exists r,
     list_products None None (Some 2) (Some 1) shop_db = Ok r /\
     map (fun p => title (data (fields p))) (page_items r) = ["Mug"] /\
     Z.of_nat (List.length (page_items r)) <= 1 /\
     page_total r = 2) /\
  http_status
    (list_products None None (Some 1) (Some (2 ^ 63)) shop_db) = 500.
Proof.
  split.
  - destruct (C6_list_products_page None None (Some 2) (Some 1) shop_db)
      as (_ & Hpage & _).
    destruct Hpage as (r & Hr & Hitems & Hlen & Htotal & _).
    + simpl. lia.
    + simpl. lia.
    + simpl. lia.
    + simpl. lia.
    + exists r. split; [exact Hr|]. split; [now rewrite Hitems|].
      split; assumption.
  - destruct (C6_list_products_page None None (Some 1) (Some (2 ^ 63))
                shop_db) as (_ & _ & Hbig).
    apply Hbig; simpl; lia.
Defined.

(** C7 on the shop, for [sort=price_desc]: the vase at 30 comes before
    the mug at 12. *)
Lemma C7_list_products_sorted_witness :
  exists r,
    list_products None (Some "price_desc") None None shop_db = Ok r /\
    map (fun p => title (data (fields p))) (page_items r) =
      ["Vase"; "Mug"] /\
    StronglySorted
      (fun x y => (price (data (fields y)) <= price (data (fields x)))%Q)
      (page_items r).
Proof.
  pose proof (C7_list_products_sorted None (Some "price_desc") None None
                shop_db) as Hsorted.
  cbv zeta in Hsorted. destruct Hsorted as [Hpage Hany].
  destruct Hpage as (listing & r & _ & _ & _ & _ & Hr & _).
  - simpl. lia.
  - simpl. lia.
  - simpl. lia.
  - simpl. lia.
  - exists r. split; [exact Hr|]. split.
    + vm_compute in Hr. injection Hr as <-. reflexivity.
    + destruct (Hany r Hr) as (_ & Hdesc & _). apply Hdesc. reflexivity.
Defined.

(** C8 as stated fails: a body that says [Cancelled] is stored as a
    cancelled order, and not under the clock reading of the server but
    under the whole millisecond before it. *)
Lemma C8_counterexample :
  exists d,
    In d (orders (snd (post_order toy_validate_email cancelled_order
                         empty_db 1234567))) /\
    o_status (fields d) <> "Pending" /\
    o_created_at (fields d) <> Some 1234567.
Proof.
  eexists. split; [left; reflexivity|]. split; discriminate.
Qed.

(** C8 (amended) on the shop: the order is stored under identifier 8
    with the server's time to the millisecond, not the body's, and with
    the e-mail as normalised. *)
Lemma C8_post_order_witness :
  exists stored,
    post_order toy_validate_email cancelled_order shop_db 1234567 =
      (Ok "000000000000000000000008",
       set_orders (snd (take_oid shop_db))
         (orders shop_db ++ [Doc 8%N stored])) /\
    o_created_at stored = Some 1234000 /\
    o_status stored = "Cancelled" /\
    email (o_customer stored) = "eve@example.com".
Proof.
  destruct (C8_post_order toy_validate_email cancelled_order shop_db 1234567
              wf_shop_db) as [_ Hvalid].
  destruct (Hvalid "eve@example.com" eq_refl) as [_ Hfit].
  destruct Hfit as (stored & Hpost & _ & Hcreated & _ & Hstatus & _ & _ &
                    _ & Hmail & _).
  - intros i [].
  - exists stored. split; [exact Hpost|]. split; [exact Hcreated|].
    split; [exact Hstatus | exact Hmail].
Defined.

(** C9 on the shop: the inactive bowl is 404 by slug and returned by
    identifier; 24 characters with whitespace at the end, which spell
    11 bytes, are 404 and not 400; 24 characters with a letter that is
    no hex digit are 400. *)
Lemma C9_get_product_witness :
  get_product_by_slug "bowl" shop_db =
    Raise (HTTPException 404 "Product not found") /\
  (exists p, get_product_by_id "000000000000000000000005" shop_db = Ok p /\
             active (data (fields p)) = false) /\
  get_product_by_id "0000000000000000000005  " shop_db =
    Raise (HTTPException 404 "Product not found") /\
  get_product_by_id "00000000000000000000000g" shop_db =
    Raise (HTTPException 400 "Invalid ID") /\
  get_product_by_id "5" shop_db = Raise (HTTPException 400 "Invalid ID").
Proof.
  destruct (C9_get_product shop_db)
    as (Hslug & _ & Hid & _ & Hshort & Hbad).
  split; [|split; [|split; [|split]]].
  - apply Hslug. intros d [<- | [<- | [<- | []]]]; simpl;
      intros Hs; try discriminate; reflexivity.
  - destruct (Hid "000000000000000000000005" 5%N eq_refl eq_refl)
      as [_ Hfound].
    eexists. split.
    + apply (Hfound bowl_doc).
      * repeat constructor; simpl; intuition discriminate.
      * simpl. tauto.
      * reflexivity.
    + reflexivity.
  - apply (Hshort _ 11%nat); [reflexivity | | lia].
    do 11 (eapply hex_bytes_byte; [reflexivity | reflexivity |]).
    do 2 (apply hex_bytes_space; [reflexivity|]). constructor.
  - apply Hbad.
    exact (proj1 (construct_refused "00000000000000000000000g") eq_refl).
  - apply Hbad. left. discriminate.
Defined.

(** C10 on the shop: [active=false] lists both categories, the default
    only the active one. *)
Lemma C10_list_categories_witness :
  Permutation (list_categories (Some false) shop_db)
    (map Store.stringify (categories shop_db)) /\
  List.length (list_categories None shop_db) = 1%nat.
Proof.
  destruct (C10_list_categories (Some false) shop_db) as (Hall & _).
  destruct (C10_list_categories None shop_db) as (_ & Hactive & _).
  split; [apply Hall; reflexivity|].
  rewrite (Permutation_length (Hactive ltac:(discriminate))). reflexivity.
Defined.

(** * Further properties of the handlers *)

(** ** More facts about the store operations *)

Lemma find_one_app {A} q (c c' : list (doc ObjectId A)) :
  Store.find_one q (c ++ c') =
  match Store.find_one q c with
  | Some d => Some d
  | None => Store.find_one q c'
  end.
Proof.
  induction c as [|x c IH]; simpl; [reflexivity|].
  destruct (q x); [reflexivity | exact IH].
Qed.

Lemma set_first_none {A} q f (c : list (doc ObjectId A)) :
  (forall d, In d c -> q d = false) -> Store.set_first q f c = c.
Proof.
  induction c as [|x c IH]; simpl; intros Hq; [reflexivity|].
  rewrite (Hq x (or_introl eq_refl)). f_equal. apply IH. auto.
Qed.

Lemma delete_one_none {A} q (c : list (doc ObjectId A)) :
  (forall d, In d c -> q d = false) -> Store.delete_one q c = c.
Proof.
  induction c as [|x c IH]; simpl; intros Hq; [reflexivity|].
  rewrite (Hq x (or_introl eq_refl)). f_equal. apply IH. auto.
Qed.

Lemma map_set_first {A B} (g : doc ObjectId A -> B) q f
    (c : list (doc ObjectId A)) :
  (forall d, g (Doc (_id d) (f (fields d))) = g d) ->
  map g (Store.set_first q f c) = map g c.
Proof.
  intros Hg. induction c as [|x c IH]; simpl; [reflexivity|].
  destruct (q x); simpl; [now rewrite Hg | now rewrite IH].
Qed.

Lemma by_oid_absent {A} o (c : list (doc ObjectId A)) :
  ~ carried o c -> forall d, In d c -> Store.by_oid o d = false.
Proof.
  destruct o as [oid|]; [apply by_id_absent | reflexivity].
Qed.

Lemma find_one_by_id_updated {A} f (c : list (doc ObjectId A)) d :
  NoDup (ids c) -> In d c ->
  Store.find_one (Store.by_id (_id d))
    (Store.set_first (Store.by_id (_id d)) f c) =
  Some (Doc (_id d) (f (fields d))).
Proof.
  intros Hnd Hd. apply find_one_unique.
  - apply (set_first_by_id_In _ _ _ Hnd Hd). now left.
  - apply N.eqb_refl.
  - intros x Hx Hq. apply (set_first_by_id_In _ _ _ Hnd Hd) in Hx.
    destruct Hx as [-> | [_ Hne]]; [reflexivity|].
    apply N.eqb_eq in Hq. contradiction.
Qed.

Lemma delete_one_by_id_In {A} oid (c : list (doc ObjectId A)) x :
  NoDup (ids c) ->
  In x (Store.delete_one (Store.by_id oid) c) <-> In x c /\ _id x <> oid.
Proof.
  unfold Store.by_id, ids.
  induction c as [|y c IH]; simpl; intros Hnd; [tauto|].
  inversion Hnd as [|? ? Hnotin Hrest]; subst.
  destruct (N.eqb_spec (_id y) oid) as [Heq | Hne].
  - split.
    + intros Hx. split; [now right|]. intros Hxo. apply Hnotin.
      rewrite Heq, <- Hxo. now apply in_map.
    + intros [[-> | Hx] Hxo]; [contradiction | exact Hx].
  - simpl. rewrite (IH Hrest). split.
    + intros [-> | [Hx Hxo]]; auto.
    + intros [[-> | Hx] Hxo]; auto.
Qed.

Lemma set_categories_same db : set_categories db (categories db) = db.
Proof. now destruct db. Qed.

Lemma set_products_same db : set_products db (products db) = db.
Proof. now destruct db. Qed.

Lemma set_orders_same db : set_orders db (orders db) = db.
Proof. now destruct db. Qed.

(** ** Admin accounts over time *)

(** The catalog and order handlers leave the admin accounts alone. *)
Lemma adminuser_Depends {A} db now authorization
    (handler : admin_doc -> result A * DB) :
  (forall admin, adminuser (snd (handler admin)) = adminuser db) ->
  adminuser (snd (Depends_require_admin db now authorization handler)) =
  adminuser db.
Proof.
  intros Hh. unfold Depends_require_admin.
  destruct (require_admin db now authorization); simpl; auto.
Qed.

Ltac by_cases :=
  repeat match goal with
         | |- context [Store.find_one ?q ?c] => destruct (Store.find_one q c)
         | |- context [Bson.construct ?s] => destruct (Bson.construct s)
         | |- context [Bson.int64 ?z] => destruct (Bson.int64 z)
         | |- context [forallb ?f ?l] => destruct (forallb f l)
         end.

Lemma adminuser_create_category body admin db t :
  adminuser (snd (create_category body admin db t)) = adminuser db.
Proof. rewrite create_category_eq. by_cases; reflexivity. Qed.

Lemma adminuser_update_category cat_id body admin db :
  adminuser (snd (update_category cat_id body admin db)) = adminuser db.
Proof. rewrite update_category_eq. by_cases; reflexivity. Qed.

Lemma adminuser_delete_category cat_id admin db :
  adminuser (snd (delete_category cat_id admin db)) = adminuser db.
Proof. unfold delete_category. by_cases; reflexivity. Qed.

Lemma adminuser_create_product body admin db t :
  adminuser (snd (create_product body admin db t)) = adminuser db.
Proof. rewrite create_product_eq. by_cases; reflexivity. Qed.

Lemma adminuser_update_product pid body admin db :
  adminuser (snd (update_product pid body admin db)) = adminuser db.
Proof. rewrite update_product_eq. by_cases; reflexivity. Qed.

Lemma adminuser_delete_product pid admin db :
  adminuser (snd (delete_product pid admin db)) = adminuser db.
Proof. unfold delete_product. by_cases; reflexivity. Qed.

Lemma adminuser_update_order_status oid s admin db :
  adminuser (snd (update_order_status oid s admin db)) = adminuser db.
Proof. rewrite update_order_status_eq. by_cases; reflexivity. Qed.

Lemma adminuser_post_order validate_email body db now :
  adminuser (snd (post_order validate_email body db now)) = adminuser db.
Proof.
  unfold post_order. destruct (Order_validate _ _); [|reflexivity].
  rewrite create_order_eq. by_cases; reflexivity.
Qed.

Lemma adminuser_seed_admin H body db now :
  adminuser (snd (seed_admin H body db now)) = adminuser db \/
  (Store.find_one (has_email (seed_email body)) (adminuser db) = None /\
   adminuser (snd (seed_admin H body db now)) =
   (adminuser db ++
    [Doc (next_oid db)
       {| admin_email := seed_email body;
          admin_password := H (seed_password body);
          admin_created_at := Bson.millis now;
          current_token := None |}])%list).
Proof.
  rewrite seed_admin_eq.
  destruct (Store.find_one _ _) eqn:Hf; [left | right; split]; reflexivity.
Qed.

Lemma adminuser_admin_login H body rng db now :
  adminuser (snd (admin_login H body rng db now)) = adminuser db \/
  exists (a : admin_doc) info,
    adminuser (snd (admin_login H body rng db now)) =
    Store.set_first (Store.by_id (_id a)) (set_current_token info)
      (adminuser db).
Proof.
  rewrite admin_login_eq. destruct (Store.find_one _ _) as [a|]; [|now left].
  destruct (negb _); [now left|]. right. eexists. eexists. reflexivity.
Qed.

(** What a request does to the admin accounts: nothing, one account
    appended by [seed_admin], or one token set by [admin_login]. *)
Lemma step_adminuser H db db' :
  step H db db' ->
  adminuser db' = adminuser db \/
  (exists body now,
     Store.find_one (has_email (seed_email body)) (adminuser db) = None /\
     adminuser db' =
     (adminuser db ++
      [Doc (next_oid db)
         {| admin_email := seed_email body;
            admin_password := H (seed_password body);
            admin_created_at := Bson.millis now;
            current_token := None |}])%list) \/
  (exists body rng now, db' = snd (admin_login H body rng db now)).
Proof.
  intros Hstep. destruct Hstep.
  - destruct (adminuser_seed_admin H body db now) as [Hs | Hs];
      [now left | right; left; eauto].
  - right. right. eauto.
  - left. apply adminuser_Depends. intros. apply adminuser_create_category.
  - left. apply adminuser_Depends. intros. apply adminuser_update_category.
  - left. apply adminuser_Depends. intros. apply adminuser_delete_category.
  - left. apply adminuser_Depends. intros. apply adminuser_create_product.
  - left. apply adminuser_Depends. intros. apply adminuser_update_product.
  - left. apply adminuser_Depends. intros. apply adminuser_delete_product.
  - left. apply adminuser_post_order.
  - left. apply adminuser_Depends. intros.
    apply adminuser_update_order_status.
Qed.

Lemma emails_admin_login H body rng db now :
  emails (snd (admin_login H body rng db now)) = emails db.
Proof.
  unfold emails.
  destruct (adminuser_admin_login H body rng db now) as [-> | (a & info & ->)];
    [reflexivity|].
  apply map_set_first. reflexivity.
Qed.

Lemma step_emails H db db' e :
  step H db db' -> In e (emails db) -> In e (emails db').
Proof.
  intros Hstep He.
  destruct (step_adminuser H db db' Hstep)
    as [Heq | [(body & now & _ & Heq) | (body & rng & now & ->)]].
  - unfold emails. now rewrite Heq.
  - unfold emails. rewrite Heq, map_app. apply in_or_app. now left.
  - now rewrite emails_admin_login.
Qed.

Lemma has_email_In db e :
  In e (emails db) <->
  Store.find_one (has_email e) (adminuser db) <> None.
Proof.
  unfold emails. split.
  - intros He Hnone. apply in_map_iff in He. destruct He as (a & <- & Ha).
    pose proof (find_one_none _ _ Hnone a Ha) as Hq.
    unfold has_email in Hq. now rewrite String.eqb_refl in Hq.
  - intros Hsome.
    destruct (Store.find_one (has_email e) (adminuser db)) as [a|] eqn:Hf;
      [|contradiction].
    destruct (find_one_some _ _ _ Hf) as [Ha Hq].
    apply String.eqb_eq in Hq. apply in_map_iff. now exists a.
Qed.

(** X1: once [seed_admin] has created an account, every later
    [seed_admin] with the same e-mail answers 400 and writes nothing,
    whatever requests were served in between. *)
Theorem seed_admin_email_stays_taken (H : string -> string)
    (body body' : SeedAdminBody) (db db' : DB) (now now' : datetime) :
  fst (seed_admin H body db now) = Ok created ->
  steps H (snd (seed_admin H body db now)) db' ->
  seed_email body' = seed_email body ->
  seed_admin H body' db' now' =
  (Raise (HTTPException 400 "Admin already exists"), db').
Proof.
  intros Hok Hsteps Hmail.
  assert (Hseeded : In (seed_email body)
                      (emails (snd (seed_admin H body db now)))).
  { rewrite seed_admin_eq in *.
    destruct (Store.find_one _ _); [discriminate|].
    unfold emails. simpl. rewrite map_app.
    apply in_or_app. right. now left. }
  assert (Htaken : In (seed_email body) (emails db')).
  { clear Hok. revert Hsteps Hseeded.
    generalize (snd (seed_admin H body db now)) as seeded.
    intros seeded Hsteps Hseeded.
    induction Hsteps as [|d0 d1 d2 _ IH Hstep]; [exact Hseeded|].
    eapply step_emails; [exact Hstep | now apply IH]. }
  apply has_email_In in Htaken. rewrite seed_admin_eq, Hmail.
  destruct (Store.find_one _ _); [reflexivity | contradiction].
Qed.

Lemma tokens_48_admin_login H body rng db now :
  (forall a t, In a (adminuser db) -> current_token (fields a) = Some t ->
               String.length (token t) = 48%nat) ->
  forall a t, In a (adminuser (snd (admin_login H body rng db now))) ->
              current_token (fields a) = Some t ->
              String.length (token t) = 48%nat.
Proof.
  intros Hold a t. rewrite admin_login_eq.
  destruct (Store.find_one _ _) as [found|]; [|apply Hold].
  destruct (negb _); [apply Hold|]. simpl. intros Ha Ht.
  apply set_first_In_cases in Ha.
  destruct Ha as [Ha | (d & Hd & _ & ->)]; [eauto|].
  simpl in Ht. injection Ht as <-. apply token_hex_length.
Qed.

(** X2: in every store the service can reach from the empty one, the
    e-mails of the admin accounts are pairwise different, and every
    session token an account holds is 48 characters long. *)
Theorem reachable_invariants (H : string -> string) (db : DB) :
  reachable H db ->
  NoDup (emails db) /\
  (forall a t, In a (adminuser db) -> current_token (fields a) = Some t ->
               String.length (token t) = 48%nat).
Proof.
  intros Hreach.
  induction Hreach as [|db db' Hreach [IHmail IHtok] Hstep].
  - split; [constructor | intros a t []].
  - destruct (step_adminuser H db db' Hstep)
      as [Heq | [(body & now & Hfree & Heq) | (body & rng & now & ->)]].
    + unfold emails. rewrite Heq. split; assumption.
    + split.
      * unfold emails. rewrite Heq, map_app. apply NoDup_app.
        -- exact IHmail.
        -- repeat constructor. simpl. tauto.
        -- intros e He [<- | []]. apply has_email_In in He. contradiction.
      * intros a t Ha Ht. rewrite Heq in Ha. apply in_app_or in Ha.
        destruct Ha as [Ha | [<- | []]]; [eauto | discriminate].
    + split; [now rewrite emails_admin_login|].
      now apply tokens_48_admin_login.
Qed.

(** X3: the token a successful login answers, if no account held it
    before, authenticates exactly the account that logged in: as a
    Bearer header it is accepted up to the expiry the account stores,
    which is the whole millisecond at or before the expiry answered, and
    refused afterwards. *)
Theorem login_token_authenticates (H : string -> string) (body : LoginBody)
    (rng : nat -> Byte.byte) (db : DB) (now : datetime) (info : TokenInfo) :
  NoDup (ids (adminuser db)) ->
  fst (admin_login H body rng db now) = Ok info ->
  unknown_token db (token info) ->
  exists account expiry,
    admin_email (fields account) = login_email body /\
    current_token (fields account) =
      Some {| token := token info; expires_at := expiry |} /\
    expiry = 1000 * (expires_at info / 1000) /\
    expires_at info - 1000 < expiry /\ expiry <= expires_at info /\
    forall t,
      (t <= expiry ->
       require_admin (snd (admin_login H body rng db now)) t
         (Some ("Bearer " ++ token info)) = Ok account) /\
      (t > expiry ->
       Unauthorized
         (require_admin (snd (admin_login H body rng db now)) t
            (Some ("Bearer " ++ token info)))).
Proof.
  intros Hnd Hok Hfresh.
  destruct (admin_login_inv _ _ _ _ _ _ Hok) as (a & Hfind & _ & Hinfo & Hdb).
  destruct (find_one_some _ _ _ Hfind) as [Hin Hmail].
  exists (Doc (_id a) (set_current_token (TokenInfo_kept info) (fields a))),
         (Bson.millis (expires_at info)).
  split; [now apply String.eqb_eq in Hmail|]. split; [reflexivity|].
  split; [reflexivity|]. split; [apply millis_gt|]. split; [apply millis_le|].
  assert (Htruthy : Py.truthy (token info) = true).
  { rewrite Hinfo. simpl.
    pose proof (token_hex_nonempty rng 23) as Hne.
    destruct (token_hex rng 24); [congruence | reflexivity]. }
  intros t. rewrite require_admin_Bearer, Hdb. unfold get_admin_by_token.
  rewrite Htruthy. cbn [negb adminuser set_adminuser].
  pose proof (lookup_issued _ _ (TokenInfo_kept info) Hnd Hin Hfresh)
    as Hissued.
  change (token (TokenInfo_kept info)) with (token info) in Hissued.
  rewrite Hissued.
  cbn [fields set_current_token current_token TokenInfo_kept expires_at].
  split; intros Ht.
  - destruct (t >? Bson.millis (expires_at info)) eqn:Hgt; [|reflexivity].
    apply Z.gtb_gt in Hgt. lia.
  - apply Z.gtb_gt in Ht. rewrite Ht. reflexivity.
Qed.

(** X4: after [seed_admin] created an account, a login with the same
    e-mail succeeds for every password with the same digest as the
    seeded one, and answers 401 without writing for every password with
    another digest. *)
Theorem seed_then_login (H : string -> string) (body : SeedAdminBody)
    (rng : nat -> Byte.byte) (db : DB) (t0 t1 : datetime) (pw : string) :
  fst (seed_admin H body db t0) = Ok created ->
  let db1 := snd (seed_admin H body db t0) in
  let attempt :=
    admin_login H {| login_email := seed_email body; login_password := pw |}
      rng db1 t1 in
  (H pw = H (seed_password body) ->
   fst attempt = Ok {| token := token_hex rng 24;
                       expires_at := t1 + 8 * 3600 * 1000000 |}) /\
  (H pw <> H (seed_password body) ->
   Unauthorized (fst attempt) /\ snd attempt = db1).
Proof.
  intros Hok db1 attempt.
  assert (Hfind : Store.find_one (has_email (seed_email body)) (adminuser db1) =
                  Some (Doc (next_oid db)
                          {| admin_email := seed_email body;
                             admin_password := H (seed_password body);
                             admin_created_at := Bson.millis t0;
                             current_token := None |})).
  { unfold db1. rewrite seed_admin_eq in *.
    destruct (Store.find_one _ (adminuser db)) eqn:Hf; [discriminate|].
    cbn [snd adminuser set_adminuser take_oid fst].
    rewrite find_one_app. rewrite Hf. simpl.
    unfold has_email. simpl. now rewrite String.eqb_refl. }
  unfold attempt. rewrite admin_login_eq. cbn [login_email login_password].
  rewrite Hfind. cbn [fields admin_password]. split.
  - intros Hpw. rewrite Hpw, String.eqb_refl. reflexivity.
  - intros Hpw.
    assert (Hne : String.eqb (H (seed_password body)) (H pw) = false).
    { apply String.eqb_neq. congruence. }
    rewrite Hne. split; reflexivity.
Qed.

Lemma get_admin_by_token_adminuser db db' :
  adminuser db' = adminuser db ->
  forall now tok,
    get_admin_by_token db' now tok = get_admin_by_token db now tok.
Proof. intros Heq now tok. unfold get_admin_by_token. now rewrite Heq. Qed.

(** The requests are the steps of the service. *)
Lemma step_serve H db db' :
  step H db db' <-> exists req, db' = serve H req db.
Proof.
  split.
  - intros Hstep. destruct Hstep.
    + now exists (Seed body now).
    + now exists (Login body rng now).
    + now exists (CreateCategory body auth now t).
    + now exists (UpdateCategory cat_id body auth now).
    + now exists (DeleteCategory cat_id auth now).
    + now exists (CreateProduct body auth now t).
    + now exists (UpdateProduct pid body auth now).
    + now exists (DeleteProduct pid auth now).
    + now exists (PostOrder validate_email body now).
    + now exists (UpdateOrderStatus oid s auth now).
  - intros (req & ->). destruct req; cbn [serve]; constructor.
Qed.

(** X5: only [admin_login] changes who is authenticated: after any
    other request that may write to the store, whatever it is and
    however it is answered, every token is answered by
    [get_admin_by_token] as before the request, at every time. *)
Theorem sessions_change_only_by_login (H : string -> string)
    (req : request) (db : DB) :
  is_login req = false ->
  step H db (serve H req db) /\
  forall now tok,
    get_admin_by_token (serve H req db) now tok =
    get_admin_by_token db now tok.
Proof.
  intros Hreq. split; [apply step_serve; now exists req|].
  destruct req; try discriminate; cbn [serve];
    try (apply get_admin_by_token_adminuser;
         first [ apply adminuser_post_order
               | apply adminuser_Depends; intros;
                 first [ apply adminuser_create_category
                       | apply adminuser_update_category
                       | apply adminuser_delete_category
                       | apply adminuser_create_product
                       | apply adminuser_update_product
                       | apply adminuser_delete_product
                       | apply adminuser_update_order_status ] ]).
  intros t tok.
  destruct (adminuser_seed_admin H body db now) as [Heq | [_ Heq]].
  - now apply get_admin_by_token_adminuser.
  - unfold get_admin_by_token. rewrite Heq, find_one_app.
    destruct (Store.find_one (has_token tok) (adminuser db)); reflexivity.
Qed.

(** ** The catalog over time *)

(** The query [{"slug": s}] on products. *)
Lemma find_slug_free (body : Product) (db : DB) :
  (forall d, In d (products db) ->
             slug (data (fields d)) <> slug body) ->
  Store.find_one
    (fun p : doc ObjectId (stamped Product) =>
       String.eqb (slug (data (fields p))) (slug body))
    (products db) = None.
Proof.
  intros Hfree. apply find_one_none_iff. intros d Hd.
  apply String.eqb_neq. now apply Hfree.
Qed.

Lemma fresh_oid_absent {A} (n : ObjectId) (c : list (doc ObjectId A)) :
  ids_ok n c -> ~ In n (ids c).
Proof.
  intros [_ Hall] Hin. rewrite Forall_forall in Hall.
  specialize (Hall n Hin). lia.
Qed.

(** X7: a product created under a slug no product has, with a stock
    that fits 8 bytes, can be fetched back at once: by the identifier
    the call answered, as the body that was sent stamped with the
    creation time to the millisecond; and by its slug, which finds it
    when the body is active and answers 404 when it is not.  With a
    stock beyond 8 bytes the driver raises and nothing is stored. *)
Theorem create_product_then_get (body : Product) (admin : admin_doc)
    (db : DB) (t : datetime) :
  wf db -> (next_oid db < 2 ^ 96)%N ->
  (forall d, In d (products db) ->
             slug (data (fields d)) <> slug body) ->
  let pid := Bson.str (next_oid db) in
  let db' := snd (create_product body admin db t) in
  let stored := Stamped body (1000 * (t / 1000)) in
  (- 2 ^ 63 <= stock body < 2 ^ 63 ->
   fst (create_product body admin db t) = Ok pid /\
   get_product_by_id pid db' = Ok (Doc pid stored) /\
   (active body = true ->
    get_product_by_slug (slug body) db' = Ok (Doc pid stored)) /\
   (active body = false ->
    get_product_by_slug (slug body) db' =
    Raise (HTTPException 404 "Product not found"))) /\
  (stock body < - 2 ^ 63 \/ 2 ^ 63 <= stock body ->
   create_product body admin db t =
   (Raise (OverflowError "MongoDB can only handle up to 8-byte ints"), db)).
Proof.
  intros Hwf Hbound Hfree pid db' stored.
  unfold db'. rewrite create_product_eq, (find_slug_free _ _ Hfree).
  split; intros Hstock;
    [apply int64_fits in Hstock | apply int64_too_big in Hstock];
    rewrite Hstock; [|reflexivity].
  cbn [fst snd take_oid]. split; [reflexivity|].
  pose proof (fresh_oid_absent _ _ (wf_products _ Hwf)) as Hfresh.
  assert (Hnone : Store.find_one (active_slug (slug body)) (products db)
                  = None).
  { apply find_one_none_iff. intros d Hd. unfold active_slug.
    apply andb_false_iff. left. apply String.eqb_neq. now apply Hfree. }
  split; [|split].
  - unfold get_product_by_id, pid. rewrite (construct_str_id _ Hbound).
    cbn [products set_products Store.by_oid].
    rewrite find_one_app.
    assert (Hnone' : Store.find_one (Store.by_id (next_oid db)) (products db)
                     = None).
    { apply find_one_none_iff. now apply by_id_absent. }
    rewrite Hnone'. simpl. unfold Store.by_id. simpl.
    now rewrite N.eqb_refl.
  - intros Hact. rewrite get_product_by_slug_eq.
    cbn [products set_products]. rewrite find_one_app, Hnone.
    simpl. unfold active_slug. simpl.
    now rewrite String.eqb_refl, Hact.
  - intros Hact. rewrite get_product_by_slug_eq.
    cbn [products set_products]. rewrite find_one_app, Hnone.
    simpl. unfold active_slug. simpl.
    now rewrite String.eqb_refl, Hact.
Qed.

(** The slugs of the products, in store order. *)
Lemma slug_taken_find (s : string) (db : DB) :
  (exists d, In d (products db) /\ slug (data (fields d)) = s) ->
  Store.find_one
    (fun p : doc ObjectId (stamped Product) =>
       String.eqb (slug (data (fields p))) s)
    (products db) <> None.
Proof.
  intros (d & Hd & Hs) Hnone.
  pose proof (find_one_none _ _ Hnone d Hd) as Hq. simpl in Hq.
  rewrite Hs, String.eqb_refl in Hq. discriminate.
Qed.

(** X8: [create_product] answers 400 and writes nothing when some
    product already has the slug, so a second creation under the slug
    of a product just created is refused; and it keeps the slugs
    pairwise different if they were. *)
Theorem create_product_slug_conflict (body : Product) (admin : admin_doc)
    (db : DB) (t : datetime) :
  ((exists d, In d (products db) /\
              slug (data (fields d)) = slug body) ->
   create_product body admin db t =
   (Raise (HTTPException 400 "Slug already exists"), db)) /\
  (forall pid body' admin' t',
     fst (create_product body admin db t) = Ok pid ->
     slug body' = slug body ->
     create_product body' admin' (snd (create_product body admin db t)) t' =
     (Raise (HTTPException 400 "Slug already exists"),
      snd (create_product body admin db t))) /\
  (NoDup (map (fun d => slug (data (fields d))) (products db)) ->
   NoDup (map (fun d => slug (data (fields d)))
            (products (snd (create_product body admin db t))))).
Proof.
  split; [|split].
  - intros Htaken. apply slug_taken_find in Htaken.
    rewrite create_product_eq.
    destruct (Store.find_one _ _); [reflexivity | contradiction].
  - intros pid body' admin' t' Hok Hslug.
    assert (Htaken : exists d,
               In d (products (snd (create_product body admin db t))) /\
               slug (data (fields d)) = slug body').
    { rewrite create_product_eq in *.
      destruct (Store.find_one _ _); [discriminate|].
      destruct (Bson.int64 _); [|discriminate].
      exists (Doc (next_oid db) (Stamped body (Bson.millis t))).
      split; [|now rewrite Hslug].
      cbn. apply in_or_app. right. now left. }
    apply slug_taken_find in Htaken.
    rewrite (create_product_eq body').
    destruct (Store.find_one _ _); [reflexivity | contradiction].
  - intros Hnd. rewrite create_product_eq.
    destruct (Store.find_one _ _) eqn:Hf; [exact Hnd|].
    destruct (Bson.int64 _); [|exact Hnd].
    cbn. rewrite map_app. apply NoDup_app.
    + exact Hnd.
    + repeat constructor. simpl. tauto.
    + intros s Hs [<- | []]. apply in_map_iff in Hs.
      destruct Hs as (d & Hds & Hd).
      pose proof (find_one_none _ _ Hf d Hd) as Hq. simpl in Hq.
      rewrite Hds, String.eqb_refl in Hq. discriminate.
Qed.

Lemma list_categories_length (active_param : option bool) (db : DB) :
  List.length (list_categories active_param db) =
  List.length
    (filter (fun c : doc ObjectId (stamped Category) =>
               if or_default active_param true
               then Bool.eqb (cat_active (data (fields c))) true
               else true)
       (categories db)).
Proof.
  unfold list_categories. rewrite length_map.
  rewrite (Permutation_length (sort_perm _ _ _)). unfold Store.find.
  destruct (or_default active_param true); reflexivity.
Qed.

(** X9: [create_category] answers 400 and writes nothing when some
    category already has the slug.  Otherwise the listing of all
    categories grows by the new category, under the identifier the call
    answered and with the creation time to the millisecond, and the
    default listing grows by it exactly when the body is active. *)
Theorem create_category_then_list (body : Category) (admin : admin_doc)
    (db : DB) (t : datetime) :
  let db' := snd (create_category body admin db t) in
  ((exists d, In d (categories db) /\
              cat_slug (data (fields d)) = cat_slug body) ->
   create_category body admin db t =
   (Raise (HTTPException 400 "Slug already exists"), db)) /\
  ((forall d, In d (categories db) ->
              cat_slug (data (fields d)) <> cat_slug body) ->
   fst (create_category body admin db t) = Ok (Bson.str (next_oid db)) /\
   In (Doc (Bson.str (next_oid db)) (Stamped body (1000 * (t / 1000))))
      (list_categories (Some false) db') /\
   List.length (list_categories (Some false) db') =
   S (List.length (list_categories (Some false) db)) /\
   List.length (list_categories None db') =
   (List.length (list_categories None db) +
    (if cat_active body then 1 else 0))%nat).
Proof.
  intros db'. split.
  - intros (d & Hd & Hs). rewrite create_category_eq.
    destruct (Store.find_one _ _) eqn:Hf; [reflexivity|].
    pose proof (find_one_none _ _ Hf d Hd) as Hq. simpl in Hq.
    rewrite Hs, String.eqb_refl in Hq. discriminate.
  - intros Hfree.
    assert (Hnone : Store.find_one
                      (fun c : doc ObjectId (stamped Category) =>
                         String.eqb (cat_slug (data (fields c)))
                           (cat_slug body))
                      (categories db) = None).
    { apply find_one_none_iff. intros d Hd. apply String.eqb_neq.
      now apply Hfree. }
    assert (Hcats : categories db' =
                    (categories db ++
                     [Doc (next_oid db) (Stamped body (Bson.millis t))])%list).
    { unfold db'. rewrite create_category_eq. now rewrite Hnone. }
    split; [rewrite create_category_eq; now rewrite Hnone|].
    split; [|split].
    + unfold list_categories. cbn [or_default]. apply in_map_iff.
      exists (Doc (next_oid db) (Stamped body (Bson.millis t))).
      split; [reflexivity|].
      apply sort_In. unfold Store.find. apply filter_In.
      split; [|reflexivity]. rewrite Hcats. apply in_or_app. right. now left.
    + rewrite !list_categories_length, Hcats, filter_app, length_app.
      cbn. lia.
    + rewrite !list_categories_length, Hcats, filter_app, length_app.
      cbn. destruct (cat_active body); reflexivity.
Qed.

(** X10: an update or a delete under a string [ObjectId] accepts (24
    hex digits, or 24 characters of hex digits and whitespace that spell
    fewer than 12 bytes), whose identifier no document of the collection
    carries, reports success and leaves the store as it was; only an
    update of a product with a stock beyond 8 bytes raises in the
    driver.  Under a string [ObjectId] refuses the handlers answer 400
    and leave the store as it was. *)
Theorem unknown_id_is_silent (db : DB) (admin : admin_doc)
    (id : string) :
  (forall o, spells id o ->
     (~ carried o (categories db) ->
      (forall body, update_category id body admin db = (Ok updated, db)) /\
      delete_category id admin db = (Ok deleted, db)) /\
     (~ carried o (products db) ->
      (forall body, - 2 ^ 63 <= stock body < 2 ^ 63 ->
                    update_product id body admin db = (Ok updated, db)) /\
      (forall body, stock body < - 2 ^ 63 \/ 2 ^ 63 <= stock body ->
                    update_product id body admin db =
                    (Raise (OverflowError
                              "MongoDB can only handle up to 8-byte ints"),
                     db)) /\
      delete_product id admin db = (Ok deleted, db)) /\
     (~ carried o (orders db) ->
      forall s, update_order_status id s admin db = (Ok updated, db))) /\
  (refused id ->
   (forall body,
      update_category id body admin db =
      (Raise (HTTPException 400 "Invalid ID"), db)) /\
   delete_category id admin db =
     (Raise (HTTPException 400 "Invalid ID"), db) /\
   (forall body,
      update_product id body admin db =
      (Raise (HTTPException 400 "Invalid ID"), db)) /\
   delete_product id admin db =
     (Raise (HTTPException 400 "Invalid ID"), db) /\
   (forall s,
      update_order_status id s admin db =
      (Raise (HTTPException 400 "Invalid ID"), db))).
Proof.
  split.
  - intros o Hparse. apply construct_spells in Hparse.
    split; [|split]; intros Habsent.
    + split; [intros body|].
      * rewrite update_category_eq, Hparse.
        rewrite set_first_none by now apply by_oid_absent.
        now rewrite set_categories_same.
      * unfold delete_category. rewrite Hparse.
        rewrite delete_one_none by now apply by_oid_absent.
        now rewrite set_categories_same.
    + split; [intros body Hstock | split; [intros body Hstock|]].
      * apply int64_fits in Hstock.
        rewrite update_product_eq, Hparse, Hstock.
        rewrite set_first_none by now apply by_oid_absent.
        now rewrite set_products_same.
      * apply int64_too_big in Hstock.
        now rewrite update_product_eq, Hparse, Hstock.
      * unfold delete_product. rewrite Hparse.
        rewrite delete_one_none by now apply by_oid_absent.
        now rewrite set_products_same.
    + intros s. rewrite update_order_status_eq, Hparse.
      rewrite set_first_none by now apply by_oid_absent.
      now rewrite set_orders_same.
  - intros Hparse. apply construct_refused in Hparse.
    unfold delete_category, delete_product. rewrite Hparse.
    split; [intros body; now rewrite update_category_eq, Hparse|].
    split; [reflexivity|].
    split; [intros body; now rewrite update_product_eq, Hparse|].
    split; [reflexivity|].
    intros s. now rewrite update_order_status_eq, Hparse.
Qed.

(** X11: after [delete_product] the identifier fetches 404, every other
    product is still stored as it was, and deleting again changes
    nothing and still reports success. *)
Theorem delete_product_then_get (pid : string) (oid : ObjectId)
    (admin : admin_doc) (db : DB) :
  NoDup (ids (products db)) ->
  Bson.parse pid = Some oid ->
  let db' := snd (delete_product pid admin db) in
  fst (delete_product pid admin db) = Ok deleted /\
  get_product_by_id pid db' =
    Raise (HTTPException 404 "Product not found") /\
  (forall d, In d (products db') <-> In d (products db) /\ _id d <> oid) /\
  delete_product pid admin db' = (Ok deleted, db').
Proof.
  intros Hnd Hparse db'. apply construct_parse in Hparse.
  assert (Hdb' : db' = set_products db
                         (Store.delete_one (Store.by_id oid) (products db))).
  { unfold db', delete_product. now rewrite Hparse. }
  assert (Hin : forall d, In d (products db') <->
                          In d (products db) /\ _id d <> oid).
  { intros d. rewrite Hdb'. cbn [products set_products].
    now apply delete_one_by_id_In. }
  assert (Hgone : forall d, In d (products db') -> Store.by_id oid d = false).
  { intros d Hd. apply Hin in Hd. unfold Store.by_id. now apply N.eqb_neq. }
  split; [unfold delete_product; now rewrite Hparse|].
  split; [|split; [exact Hin|]].
  - unfold get_product_by_id. rewrite Hparse. cbn [Store.by_oid].
    now rewrite (proj2 (find_one_none_iff _ _) Hgone).
  - unfold delete_product. rewrite Hparse. cbn [Store.by_oid].
    rewrite (delete_one_none _ _ Hgone). now rewrite set_products_same.
Qed.

(** X12: [update_product] under the identifier of a stored product,
    with a stock that fits 8 bytes, replaces its fields by the body and
    keeps its identifier and its creation time; a fetch by that
    identifier answers the new fields, and the other products are as
    they were.  With a stock beyond 8 bytes the driver raises and the
    product stays as it was. *)
Theorem update_product_then_get (pid : string) (body : Product)
    (admin : admin_doc) (db : DB) (d : doc ObjectId (stamped Product)) :
  NoDup (ids (products db)) -> In d (products db) ->
  Bson.parse pid = Some (_id d) ->
  let db' := snd (update_product pid body admin db) in
  (- 2 ^ 63 <= stock body < 2 ^ 63 ->
   fst (update_product pid body admin db) = Ok updated /\
   get_product_by_id pid db' =
     Ok (Doc (Bson.str (_id d)) (Stamped body (stamp (fields d)))) /\
   (forall x, In x (products db') <->
              x = Doc (_id d) (Stamped body (stamp (fields d))) \/
              (In x (products db) /\ _id x <> _id d)) /\
   ids (products db') = ids (products db)) /\
  (stock body < - 2 ^ 63 \/ 2 ^ 63 <= stock body ->
   update_product pid body admin db =
     (Raise (OverflowError "MongoDB can only handle up to 8-byte ints"), db) /\
   get_product_by_id pid db' = Ok (Store.stringify d)).
Proof.
  intros Hnd Hd Hparse db'. apply construct_parse in Hparse.
  unfold db'. rewrite update_product_eq, Hparse. cbn [Store.by_oid].
  split; intros Hstock;
    [apply int64_fits in Hstock | apply int64_too_big in Hstock];
    rewrite Hstock; cbn [fst snd].
  - split; [reflexivity|]. split; [|split].
    + unfold get_product_by_id. rewrite Hparse.
      cbn [Store.by_oid products set_products].
      now rewrite (find_one_by_id_updated _ _ _ Hnd Hd).
    + intros x. cbn [products set_products].
      exact (set_first_by_id_In (fun f => Stamped body (stamp f))
               _ _ Hnd Hd x).
    + cbn [products set_products]. apply ids_set_first.
  - split; [reflexivity|].
    unfold get_product_by_id. rewrite Hparse. cbn [Store.by_oid].
    now rewrite (find_one_by_id _ _ Hnd Hd).
Qed.

(** X13: [update_category] under the identifier of a stored category
    replaces its fields by the body and keeps its identifier and its
    creation time: the category is listed with the new fields, and as
    many categories are stored as before. *)
Theorem update_category_then_list (cat_id : string) (body : Category)
    (admin : admin_doc) (db : DB) (d : doc ObjectId (stamped Category)) :
  NoDup (ids (categories db)) -> In d (categories db) ->
  Bson.parse cat_id = Some (_id d) ->
  let db' := snd (update_category cat_id body admin db) in
  fst (update_category cat_id body admin db) = Ok updated /\
  In (Doc (Bson.str (_id d)) (Stamped body (stamp (fields d))))
     (list_categories (Some false) db') /\
  (forall x, In x (categories db') <->
             x = Doc (_id d) (Stamped body (stamp (fields d))) \/
             (In x (categories db) /\ _id x <> _id d)) /\
  ids (categories db') = ids (categories db).
Proof.
  intros Hnd Hd Hparse db'. apply construct_parse in Hparse.
  assert (Hdb' : categories db' =
                 Store.set_first (Store.by_id (_id d))
                   (fun f => Stamped body (stamp f)) (categories db)).
  { unfold db'. rewrite update_category_eq. now rewrite Hparse. }
  assert (Hin : forall x, In x (categories db') <->
                  x = Doc (_id d) (Stamped body (stamp (fields d))) \/
                  (In x (categories db) /\ _id x <> _id d)).
  { intros x. rewrite Hdb'.
    exact (set_first_by_id_In (fun f => Stamped body (stamp f))
             _ _ Hnd Hd x). }
  split; [rewrite update_category_eq; now rewrite Hparse|].
  split; [|split; [exact Hin|]].
  - unfold list_categories. cbn [or_default]. apply in_map_iff.
    exists (Doc (_id d) (Stamped body (stamp (fields d)))).
    split; [reflexivity|]. apply sort_In. unfold Store.find.
    apply filter_In. split; [|reflexivity]. apply Hin. now left.
  - rewrite Hdb'. apply ids_set_first.
Qed.

Lemma delete_one_length {A} q (c : list (doc ObjectId A)) d :
  In d c -> q d = true ->
  S (List.length (Store.delete_one q c)) = List.length c.
Proof.
  induction c as [|x c IH]; simpl; [tauto|]. intros Hd Hq.
  destruct (q x) eqn:Hqx; [reflexivity|].
  destruct Hd as [-> | Hd]; [congruence|]. simpl. f_equal. now apply IH.
Qed.

(** X14: after [delete_category] under the identifier of a stored
    category, no stored category carries the identifier, every other
    category is still stored as it was, the listing of all categories is
    one shorter, and deleting again changes nothing. *)
Theorem delete_category_then_list (cat_id : string) (admin : admin_doc)
    (db : DB) (d : doc ObjectId (stamped Category)) :
  NoDup (ids (categories db)) -> In d (categories db) ->
  Bson.parse cat_id = Some (_id d) ->
  let db' := snd (delete_category cat_id admin db) in
  fst (delete_category cat_id admin db) = Ok deleted /\
  (forall x, In x (categories db') <->
             In x (categories db) /\ _id x <> _id d) /\
  S (List.length (list_categories (Some false) db')) =
  List.length (list_categories (Some false) db) /\
  delete_category cat_id admin db' = (Ok deleted, db').
Proof.
  intros Hnd Hd Hparse db'. apply construct_parse in Hparse.
  assert (Hdb' : db' = set_categories db
                         (Store.delete_one (Store.by_id (_id d))
                            (categories db))).
  { unfold db', delete_category. now rewrite Hparse. }
  assert (Hin : forall x, In x (categories db') <->
                          In x (categories db) /\ _id x <> _id d).
  { intros x. rewrite Hdb'. cbn [categories set_categories].
    now apply delete_one_by_id_In. }
  split; [unfold delete_category; now rewrite Hparse|].
  split; [exact Hin|]. split.
  - rewrite !list_categories_length. cbn [or_default].
    rewrite !forallb_filter_id
      by (apply forallb_forall; intros; reflexivity).
    rewrite Hdb'. cbn [categories set_categories].
    apply (delete_one_length _ _ d Hd). apply N.eqb_refl.
  - unfold delete_category. rewrite Hparse. cbn [Store.by_oid].
    rewrite delete_one_none; [now rewrite set_categories_same|].
    intros x Hx. apply Hin in Hx. unfold Store.by_id.
    now apply N.eqb_neq.
Qed.

(** ** Orders over time *)

(** X15: for a body the validation accepts, with quantities that fit 8
    bytes, the identifier [POST /api/orders] answers fetches the order
    just stored: the body with the e-mail as the validation normalised
    it, the defaults filled in, and [created_at] set to the server's
    clock to the millisecond; the orders stored before are still there,
    and the unfiltered admin listing holds the new order. *)
Theorem post_order_then_get (validate_email : string -> option string)
    (body : OrderBody) (db : DB) (now : datetime) (e : string) :
  wf db -> (next_oid db < 2 ^ 96)%N ->
  validate_email (email (body_customer body)) = Some e ->
  (forall i, In i (body_items body) -> - 2 ^ 63 <= quantity i < 2 ^ 63) ->
  let oid := Bson.str (next_oid db) in
  let out := post_order validate_email body db now in
  let stored :=
    {| o_items := body_items body;
       o_subtotal := body_subtotal body;
       o_shipping := body_shipping body;
       o_total := body_total body;
       o_customer := set_email (body_customer body) e;
       o_shipping_method :=
         ShippingMethod_str
           (or_default (body_shipping_method body) Standard_Shipping);
       o_status := OrderStatus_str (or_default (body_status body) Pending);
       o_created_at := Some (1000 * (now / 1000)) |} in
  fst out = Ok oid /\
  get_order oid (snd out) = Ok (Doc oid stored) /\
  (forall d, In d (orders db) -> In d (orders (snd out))) /\
  (forall fold admin, exists listed,
     list_orders fold None None admin (snd out) = Some listed /\
     In (Doc oid stored) listed).
Proof.
  intros Hwf Hbound Hmail Hfit oid out stored. subst out.
  unfold post_order, Order_validate. rewrite Hmail, create_order_eq.
  cbn [items]. rewrite (int64_all _ Hfit).
  cbn [fst snd take_oid orders set_orders].
  change (order_kept _ now) with stored.
  split; [reflexivity|]. split; [|split].
  - unfold get_order, oid. rewrite (construct_str_id _ Hbound).
    cbn [Store.by_oid orders set_orders]. rewrite find_one_app.
    assert (Hnone : Store.find_one (Store.by_id (next_oid db)) (orders db)
                    = None).
    { apply find_one_none_iff. apply by_id_absent.
      apply (fresh_oid_absent _ _ (wf_orders _ Hwf)). }
    rewrite Hnone. simpl. unfold Store.by_id. simpl.
    now rewrite N.eqb_refl.
  - intros d Hd. apply in_or_app. now left.
  - intros fold admin. eexists. split; [reflexivity|].
    apply in_map_iff.
    exists (Doc (next_oid db) stored).
    split; [reflexivity|]. apply sort_In. unfold Store.find.
    apply filter_In. split; [|reflexivity].
    apply in_or_app. right. now left.
Qed.

(** X16: [update_order_status] under the identifier of a stored order
    sets its status to the string sent, whatever it is, and changes no
    other field; a fetch by that identifier answers the order with the
    new status, the other orders are as they were, and the admin
    listing filtered by the new status, if it is not empty, holds the
    order. *)
Theorem update_order_status_then_get (oid : string) (new_status : string)
    (admin : admin_doc) (db : DB) (d : doc ObjectId OrderFields) :
  NoDup (ids (orders db)) -> In d (orders db) ->
  Bson.parse oid = Some (_id d) ->
  let db' := snd (update_order_status oid new_status admin db) in
  fst (update_order_status oid new_status admin db) = Ok updated /\
  (exists stored,
     get_order oid db' = Ok (Doc (Bson.str (_id d)) stored) /\
     o_status stored = new_status /\
     same_but_status stored (fields d)) /\
  (forall x, In x (orders db) -> _id x <> _id d -> In x (orders db')) /\
  (new_status <> "" ->
   forall fold admin', exists listed,
     list_orders fold (Some new_status) None admin' db' = Some listed /\
     In (Doc (Bson.str (_id d)) (set_status new_status (fields d))) listed).
Proof.
  intros Hnd Hd Hparse db'. apply construct_parse in Hparse.
  assert (Hdb' : orders db' =
                 Store.set_first (Store.by_id (_id d))
                   (set_status new_status) (orders db)).
  { unfold db'. rewrite update_order_status_eq. now rewrite Hparse. }
  split; [rewrite update_order_status_eq; now rewrite Hparse|].
  split; [|split].
  - exists (set_status new_status (fields d)). split; [|split].
    + unfold get_order. rewrite Hparse, Hdb'. cbn [Store.by_oid].
      now rewrite (find_one_by_id_updated _ _ _ Hnd Hd).
    + reflexivity.
    + repeat split.
  - intros x Hx Hne. rewrite Hdb'.
    apply (set_first_by_id_In _ _ _ Hnd Hd). right. now split.
  - intros Hne fold admin'. eexists. split; [reflexivity|].
    apply in_map_iff.
    exists (Doc (_id d) (set_status new_status (fields d))).
    split; [reflexivity|]. apply sort_In. unfold Store.find.
    apply filter_In. split.
    + rewrite Hdb'. apply (set_first_by_id_In _ _ _ Hnd Hd). now left.
    + unfold order_matches. cbn.
      destruct new_status as [|c r]; [contradiction|]. cbn.
      now rewrite Ascii.eqb_refl, String.eqb_refl.
Qed.

Lemma set_first_keeps {A} q f (c : list (doc ObjectId A)) d :
  In d c ->
  exists d', In d' (Store.set_first q f c) /\ _id d' = _id d /\
             (d' = d \/ fields d' = f (fields d)).
Proof.
  induction c as [|x c IH]; simpl; [tauto|]. intros [-> | Hd].
  - destruct (q d).
    + eexists. split; [left; reflexivity|]. split; [reflexivity | now right].
    + exists d. split; [now left|]. split; [reflexivity | now left].
  - destruct (q x).
    + exists d. split; [now right|]. split; [reflexivity | now left].
    + destruct (IH Hd) as (d' & Hd' & Hid & Hf).
      exists d'. split; [now right|]. now split.
Qed.

(** The handlers of the catalog and of the accounts leave the orders
    alone. *)
Lemma orders_Depends {A} db now authorization
    (handler : admin_doc -> result A * DB) (P : list (doc ObjectId OrderFields) -> Prop) :
  P (orders db) -> (forall admin, P (orders (snd (handler admin)))) ->
  P (orders (snd (Depends_require_admin db now authorization handler))).
Proof.
  intros Hdb Hh. unfold Depends_require_admin.
  destruct (require_admin db now authorization); simpl; auto.
Qed.

(** What a request does to the orders: nothing, one order appended,
    or the status set in one order. *)
Lemma step_orders H db db' :
  step H db db' ->
  orders db' = orders db \/
  (exists f, orders db' = (orders db ++ [Doc (next_oid db) f])%list) \/
  (exists q s,
     orders db' = Store.set_first q (set_status s) (orders db)).
Proof.
  pose (P := fun l : list (doc ObjectId OrderFields) =>
               l = orders db \/
               (exists f, l = (orders db ++ [Doc (next_oid db) f])%list) \/
               (exists q s,
                  l = Store.set_first q (set_status s) (orders db))).
  assert (Hsame : P (orders db)) by now left.
  intros Hstep. change (P (orders db')).
  destruct Hstep;
    unfold Route.create_category, Route.update_category,
      Route.delete_category, Route.create_product, Route.update_product,
      Route.delete_product, Route.update_order_status;
    try (apply orders_Depends; [exact Hsame|]; intros admin).
  - left. rewrite seed_admin_eq. by_cases; reflexivity.
  - left. rewrite admin_login_eq. by_cases; [|reflexivity].
    destruct (negb _); reflexivity.
  - left. rewrite create_category_eq. by_cases; reflexivity.
  - left. rewrite update_category_eq. by_cases; reflexivity.
  - left. unfold delete_category. by_cases; reflexivity.
  - left. rewrite create_product_eq. by_cases; reflexivity.
  - left. rewrite update_product_eq. by_cases; reflexivity.
  - left. unfold delete_product. by_cases; reflexivity.
  - unfold post_order. destruct (Order_validate _ _); [|now left].
    rewrite create_order_eq. destruct (forallb _ _); [|now left].
    right. left. eexists. reflexivity.
  - rewrite update_order_status_eq.
    destruct (Bson.construct oid); [|now left].
    right. right. eexists. eexists. reflexivity.
Qed.

Lemma same_but_status_refl f : same_but_status f f.
Proof. repeat split. Qed.

Lemma same_but_status_trans f g h :
  same_but_status f g -> same_but_status g h -> same_but_status f h.
Proof.
  unfold same_but_status. intros (A1 & A2 & A3 & A4 & A5 & A6 & A7)
                                 (B1 & B2 & B3 & B4 & B5 & B6 & B7).
  repeat split; congruence.
Qed.

(** X17: no request removes an order or changes anything in it but its
    status: an order stored at some point is still stored, under the
    same identifier and with the same items, amounts, customer,
    shipping method and creation time, after any number of requests. *)
Theorem orders_are_kept (H : string -> string) (db db' : DB) :
  steps H db db' ->
  forall d, In d (orders db) ->
    exists d', In d' (orders db') /\ _id d' = _id d /\
               same_but_status (fields d') (fields d).
Proof.
  induction 1 as [db | db db1 db2 _ IH Hstep]; intros d Hd.
  - exists d. split; [exact Hd|]. split; [reflexivity|].
    apply same_but_status_refl.
  - destruct (IH d Hd) as (d1 & Hd1 & Hid1 & Hsame1).
    destruct (step_orders H db1 db2 Hstep)
      as [Heq | [(f & Heq) | (q & s & Heq)]].
    + exists d1. rewrite Heq. auto.
    + exists d1. rewrite Heq. split; [apply in_or_app; now left | auto].
    + destruct (set_first_keeps q (set_status s)
                  (orders db1) d1 Hd1) as (d2 & Hd2 & Hid2 & Hf).
      exists d2. rewrite Heq. split; [exact Hd2|].
      split; [congruence|].
      eapply same_but_status_trans; [|exact Hsame1].
      destruct Hf as [-> | Hf]; [apply same_but_status_refl|].
      rewrite Hf. repeat split.
Qed.

(** ** Pages of the catalog *)

Lemma firstn_add {B} (a b : nat) (l : list B) :
  firstn (a + b) l = (firstn a l ++ firstn b (skipn a l))%list.
Proof.
  revert l. induction a as [|a IH]; intros l; simpl; [reflexivity|].
  destruct l as [|x l]; simpl; [now rewrite firstn_nil|].
  now rewrite IH.
Qed.

Lemma list_products_page_items category_filter sort (i : nat) (n : Z) db :
  1 <= n -> n < 2 ^ 63 -> Z.of_nat i * n < 2 ^ 63 ->
  items_of (list_products category_filter sort (Some (Z.of_nat i + 1))
              (Some n) db) =
  map Store.stringify
    (firstn (Z.to_nat n)
       (skipn (i * Z.to_nat n) (catalog_cursor category_filter sort db))).
Proof.
  intros Hn Hnb Hsb.
  rewrite list_products_page; cbn [or_default]; try lia.
  cbn [items_of page_items].
  replace (Z.to_nat ((Z.of_nat i + 1 - 1) * n)) with (i * Z.to_nat n)%nat
    by nia.
  reflexivity.
Qed.

(** Two sorted listings of the same documents are the same listing,
    when no two of the documents tie. *)
Lemma sorted_perm_unique {B} (R : B -> B -> Prop) (l1 : list B) :
  forall l2,
    (forall x y, In x l1 -> In y l1 -> R x y -> R y x -> x = y) ->
    StronglySorted R l1 -> StronglySorted R l2 -> Permutation l1 l2 ->
    l1 = l2.
Proof.
  induction l1 as [|x l1 IH]; intros l2 Hanti Hs1 Hs2 Hperm.
  - apply Permutation_nil in Hperm. now subst.
  - destruct l2 as [|y l2].
    { symmetry in Hperm. now apply Permutation_nil in Hperm. }
    inversion Hs1 as [|? ? Hs1' Hx]; subst.
    inversion Hs2 as [|? ? Hs2' Hy]; subst.
    rewrite Forall_forall in Hx, Hy.
    assert (Hxy : x = y).
    { assert (Hin_x : In x (y :: l2))
        by (eapply Permutation_in; [exact Hperm | now left]).
      assert (Hin_y : In y (x :: l1))
        by (eapply Permutation_in; [symmetry; exact Hperm | now left]).
      destruct Hin_x as [-> | Hin_x]; [reflexivity|].
      destruct Hin_y as [-> | Hin_y]; [reflexivity|].
      apply Hanti; [now left | now right | now apply Hx | now apply Hy]. }
    subst y. f_equal. apply IH.
    + intros a b Ha Hb. apply Hanti; now right.
    + exact Hs1'.
    + exact Hs2'.
    + eapply Permutation_cons_inv. exact Hperm.
Qed.

Lemma catalog_cursor_sorted_as category_filter sort db :
  StronglySorted (sorted_as sort) (catalog_cursor category_filter sort db).
Proof.
  unfold catalog_cursor.
  destruct (String.eqb (or_default sort "newest") "price_asc") eqn:H1;
    [|destruct (String.eqb (or_default sort "newest") "price_desc") eqn:H2];
    (eapply StronglySorted_impl; [|apply sort_sorted]);
    intros x y; unfold sorted_as; rewrite H1, ?H2; cbn;
    first [apply Qle_bool_imp_le | apply Z.leb_le].
Qed.

Lemma sorted_as_antisym sort x y :
  sorted_as sort x y -> sorted_as sort y x -> same_sort_key sort x y.
Proof.
  unfold sorted_as, same_sort_key.
  destruct (String.eqb (or_default sort "newest") "price_asc");
    [|destruct (String.eqb (or_default sort "newest") "price_desc")];
    cbn [orb]; intros Hxy Hyx.
  - now apply Qle_antisym.
  - now apply Qle_antisym.
  - lia.
Qed.

(** X18: the pages tile the listing.  Take the matching products in
    the order [sort] asks for, no two of them with the same sort key,
    so that this order is the only one; for a limit of at least 1, and
    as long as the driver can send the counts, the pages 1, 2, ..., k
    laid end to end are the first k*limit products of that listing,
    each once and in order; once k*limit reaches the total they are all
    of them. *)
Theorem pages_cover_listing (category_filter sort : option string)
    (n : Z) (k : nat) (db : DB)
    (listing : list (doc ObjectId (stamped Product))) :
  1 <= n -> n < 2 ^ 63 -> Z.of_nat k * n < 2 ^ 63 ->
  Permutation listing
    (filter (product_matches (catalog_query category_filter))
       (products db)) ->
  StronglySorted (sorted_as sort) listing ->
  (forall x y, In x listing -> In y listing ->
               same_sort_key sort x y -> x = y) ->
  let pages :=
    List.concat
      (map (fun i => items_of
                       (list_products category_filter sort
                          (Some (Z.of_nat i + 1)) (Some n) db))
         (seq 0 k)) in
  pages = map Store.stringify (firstn (k * Z.to_nat n) listing) /\
  ((List.length listing <= k * Z.to_nat n)%nat ->
   pages = map Store.stringify listing).
Proof.
  intros Hn Hnb Hkb Hperm Hsorted Hties pages.
  assert (Hcursor : listing = catalog_cursor category_filter sort db).
  { apply (sorted_perm_unique (sorted_as sort)).
    - intros x y Hx Hy Hxy Hyx. apply Hties; [exact Hx | exact Hy|].
      now apply sorted_as_antisym.
    - exact Hsorted.
    - apply catalog_cursor_sorted_as.
    - rewrite Hperm. symmetry. apply catalog_cursor_perm. }
  assert (Hpages : pages =
                   map Store.stringify (firstn (k * Z.to_nat n) listing)).
  { unfold pages. clear pages. rewrite Hcursor.
    clear Hperm Hsorted Hties Hcursor.
    induction k as [|k IH]; [reflexivity|].
    rewrite seq_S, map_app, List.concat_app, IH by nia.
    cbn [map List.concat plus].
    rewrite app_nil_r, (list_products_page_items _ _ _ _ _ Hn Hnb) by nia.
    rewrite <- map_app. f_equal.
    replace (S k * Z.to_nat n)%nat with (k * Z.to_nat n + Z.to_nat n)%nat
      by lia.
    now rewrite firstn_add. }
  split; [exact Hpages|].
  intros Hall. rewrite Hpages. now rewrite firstn_all2.
Qed.

(** X19: a page past the end of the listing, for a page number and a
    limit of at least 1 that the driver can send, is answered with no
    items, while total still counts every matching product. *)
Theorem list_products_past_the_end (category_filter sort : option string)
    (page limit : option Z) (db : DB) :
  let p := or_default page 1 in
  let n := or_default limit 12 in
  let total :=
    List.length
      (filter (product_matches (catalog_query category_filter))
         (products db)) in
  1 <= p -> 1 <= n -> n < 2 ^ 63 -> (p - 1) * n < 2 ^ 63 ->
  Z.of_nat total <= (p - 1) * n ->
  list_products category_filter sort page limit db =
  Ok {| page_items := []; page_total := Z.of_nat total;
        page_page := p; page_limit := n |}.
Proof.
  intros p n total Hp Hn Hnb Hsb Hpast.
  rewrite (list_products_page _ _ _ _ _ Hp Hn Hnb Hsb). fold p n total.
  rewrite skipn_all2 by (rewrite catalog_cursor_length; fold total; lia).
  now rewrite firstn_nil.
Qed.

(** ** Sessions of different accounts *)

Lemma find_one_set_first_same {A} q p f (c : list (doc ObjectId A)) :
  (forall d, In d c -> p d = true ->
             q d = false /\ q (Doc (_id d) (f (fields d))) = false) ->
  Store.find_one q (Store.set_first p f c) = Store.find_one q c.
Proof.
  induction c as [|y c IH]; simpl; intros Hp; [reflexivity|].
  destruct (p y) eqn:Hpy; simpl.
  - destruct (Hp y (or_introl eq_refl) Hpy) as [-> ->]. reflexivity.
  - destruct (q y); [reflexivity|]. apply IH. auto.
Qed.

(** X6: a login touches the session of its own account only: a token
    other than the one just issued, and not held by an account with the
    e-mail that logged in, is answered by [get_admin_by_token] after the
    login as before it, at every time. *)
Theorem login_keeps_other_sessions (H : string -> string) (body : LoginBody)
    (rng : nat -> Byte.byte) (db : DB) (now : datetime) (tok : string) :
  NoDup (ids (adminuser db)) ->
  tok <> token_hex rng 24 ->
  (forall a ct, In a (adminuser db) ->
                admin_email (fields a) = login_email body ->
                current_token (fields a) = Some ct -> token ct <> tok) ->
  forall t,
    get_admin_by_token (snd (admin_login H body rng db now)) t tok =
    get_admin_by_token db t tok.
Proof.
  intros Hnd Hnew Hown t. rewrite admin_login_eq.
  destruct (Store.find_one (has_email _) _) as [a|] eqn:Hf; [|reflexivity].
  destruct (negb _); [reflexivity|]. cbn [snd].
  destruct (find_one_some _ _ _ Hf) as [Ha Hmail].
  apply String.eqb_eq in Hmail.
  unfold get_admin_by_token. cbn [adminuser set_adminuser].
  rewrite find_one_set_first_same; [reflexivity|].
  intros d Hd Hid. unfold Store.by_id in Hid. apply N.eqb_eq in Hid.
  assert (d = a) as -> by (eapply NoDup_ids_same; eassumption).
  split.
  - destruct (has_token tok a) eqn:Hhas; [|reflexivity]. exfalso.
    apply has_token_true in Hhas. destruct Hhas as (ct & Hct & Htok).
    eapply Hown; eassumption.
  - unfold has_token.
    cbn [fields set_current_token current_token token TokenInfo_kept].
    apply String.eqb_neq. congruence.
Qed.

(** * The further properties at work on the shop *)

(** X1: seeding the same e-mail again, an order later. *)
Lemma seed_admin_email_stays_taken_witness :
  seed_admin toy_digest ops_seed
    (snd (post_order toy_validate_email cancelled_order
            (snd (seed_admin toy_digest ops_seed shop_db 600)) 700)) 800 =
  (Raise (HTTPException 400 "Admin already exists"),
   snd (post_order toy_validate_email cancelled_order
          (snd (seed_admin toy_digest ops_seed shop_db 600)) 700)).
Proof.
  apply (seed_admin_email_stays_taken toy_digest ops_seed ops_seed shop_db
           _ 600 800).
  - reflexivity.
  - eapply steps_step; [apply steps_refl|].
    apply (step_post_order toy_digest toy_validate_email cancelled_order 700).
  - reflexivity.
Defined.

Lemma reachable_duo_db : reachable toy_digest duo_db.
Proof.
  unfold duo_db.
  eapply reachable_step; [|apply step_admin_login].
  eapply reachable_step; [|apply step_seed_admin].
  eapply reachable_step; [|apply step_seed_admin].
  apply reachable_empty.
Qed.

(** X2 on the store after two seeds and a login: two accounts with
    different e-mails, the first holding a token of 48 characters. *)
Lemma reachable_invariants_witness :
  emails duo_db = ["ops@shop.example"; "ana@shop.example"] /\
  NoDup (emails duo_db) /\
  exists a t,
    In a (adminuser duo_db) /\
    admin_email (fields a) = "ops@shop.example" /\
    current_token (fields a) = Some t /\
    token t = "2a2a2a2a2a2a2a2a2a2a2a2a2a2a2a2a2a2a2a2a2a2a2a2a" /\
    String.length (token t) = 48%nat.
Proof.
  destruct (reachable_invariants toy_digest duo_db reachable_duo_db)
    as [Hmails Htokens].
  split; [reflexivity|]. split; [exact Hmails|].
  eexists. eexists. split; [left; reflexivity|]. split; [reflexivity|].
  split; [reflexivity|]. split; [reflexivity|].
  eapply Htokens; [left; reflexivity | reflexivity].
Defined.

(** X3: the token of a login at a clock reading of 1.234567 seconds,
    answered with the expiry 28801.234567 seconds, is accepted up to
    28801.234 seconds and refused a microsecond later. *)
Lemma login_token_authenticates_witness :
  exists account,
    require_admin
      (snd (admin_login toy_digest root_login (fun _ => Byte.x2a) shop_db
              1234567))
      28801234000
      (Some "Bearer 2a2a2a2a2a2a2a2a2a2a2a2a2a2a2a2a2a2a2a2a2a2a2a2a") =
    Ok account /\
    Unauthorized
      (require_admin
         (snd (admin_login toy_digest root_login (fun _ => Byte.x2a) shop_db
                 1234567))
         28801234001
         (Some "Bearer 2a2a2a2a2a2a2a2a2a2a2a2a2a2a2a2a2a2a2a2a2a2a2a2a")).
Proof.
  destruct (login_token_authenticates toy_digest root_login
              (fun _ => Byte.x2a) shop_db 1234567
              {| token := token_hex (fun _ => Byte.x2a) 24;
                 expires_at := 1234567 + timedelta_hours 8 |})
    as (account & expiry & _ & _ & Hexp & _ & _ & Hauth).
  - repeat constructor. simpl. tauto.
  - reflexivity.
  - intros a ct [<- | []]. simpl. intros [= <-]. discriminate.
  - assert (Hexpiry : expiry = 28801234000) by (rewrite Hexp; reflexivity).
    exists account. split.
    + apply (proj1 (Hauth 28801234000)). rewrite Hexpiry. lia.
    + apply (proj2 (Hauth 28801234001)). rewrite Hexpiry. lia.
Defined.

(** X4: seeding [ops] and logging in with the seeded password. *)
Lemma seed_then_login_witness :
  fst (admin_login toy_digest ops_login (fun _ => Byte.x2a)
         (snd (seed_admin toy_digest ops_seed shop_db 600)) 700) =
  Ok {| token := token_hex (fun _ => Byte.x2a) 24;
        expires_at := 700 + 8 * 3600 * 1000000 |}.
Proof.
  pose proof (seed_then_login toy_digest ops_seed (fun _ => Byte.x2a)
                shop_db 600 700 "hunter2" eq_refl) as Hlogin.
  cbv zeta in Hlogin. apply (proj1 Hlogin). reflexivity.
Defined.

(** X5: placing an order, or seeding another account, does not change
    who is authenticated. *)
Lemma sessions_change_only_by_login_witness :
  get_admin_by_token
    (serve toy_digest (PostOrder toy_validate_email cancelled_order 5)
       shop_db) 999 "c0ffee" = Some root /\
  get_admin_by_token
    (serve toy_digest (Seed ops_seed 600) shop_db) 999 "c0ffee" = Some root.
Proof.
  split.
  - rewrite (proj2 (sessions_change_only_by_login toy_digest
                      (PostOrder toy_validate_email cancelled_order 5)
                      shop_db eq_refl)).
    reflexivity.
  - rewrite (proj2 (sessions_change_only_by_login toy_digest
                      (Seed ops_seed 600) shop_db eq_refl)).
    reflexivity.
Defined.

(** X7: creating the plate and fetching it back. *)
Lemma create_product_then_get_witness :
  get_product_by_id "000000000000000000000008"
    (snd (create_product plate root shop_db 1234567)) =
  Ok (Doc "000000000000000000000008" (Stamped plate 1234000)).
Proof.
  pose proof (create_product_then_get plate root shop_db 1234567 wf_shop_db)
    as Hget.
  cbv zeta in Hget. destruct Hget as [Hfit _].
  - reflexivity.
  - intros d [<- | [<- | [<- | []]]]; discriminate.
  - destruct Hfit as (_ & Hid & _); [simpl; lia | exact Hid].
Defined.

(** X8: a second product under the slug [mug] is refused. *)
Lemma create_product_slug_conflict_witness :
  create_product (mk_product "Mug 2" "mug" "mugs" 9 true) root shop_db 600 =
  (Raise (HTTPException 400 "Slug already exists"), shop_db).
Proof.
  apply (proj1 (create_product_slug_conflict _ root shop_db 600)).
  eexists. split; [left; reflexivity | reflexivity].
Defined.

(** X9: the category of cups is created and listed, and a second
    category under the slug [vases] is refused. *)
Lemma create_category_then_list_witness :
  fst (create_category cups root shop_db 1234567) =
    Ok "000000000000000000000008" /\
  In (Doc "000000000000000000000008" (Stamped cups 1234000))
     (list_categories (Some false)
        (snd (create_category cups root shop_db 1234567))) /\
  List.length
    (list_categories (Some false)
       (snd (create_category cups root shop_db 1234567))) = 3%nat /\
  create_category (mk_category "Vessels" "vases" true) root shop_db 600 =
  (Raise (HTTPException 400 "Slug already exists"), shop_db).
Proof.
  pose proof (create_category_then_list cups root shop_db 1234567)
    as Hcreate.
  cbv zeta in Hcreate. destruct Hcreate as [_ Hfree].
  destruct Hfree as (Hid & Hin & Hlen & _).
  { intros d [<- | [<- | []]]; discriminate. }
  split; [exact Hid|]. split; [exact Hin|]. split; [exact Hlen|].
  pose proof (create_category_then_list
                  (mk_category "Vessels" "vases" true) root shop_db 600)
    as Htaken.
  cbv zeta in Htaken. apply (proj1 Htaken).
  eexists. split; [left; reflexivity | reflexivity].
Defined.

(** X10: updating under an identifier nobody stored, under 24
    characters that end in whitespace and spell 11 bytes, and under 23
    characters. *)
Lemma unknown_id_is_silent_witness :
  update_category "000000000000000000000063" cups root shop_db =
    (Ok updated, shop_db) /\
  update_product "0000000000000000000005  " plate root shop_db =
    (Ok updated, shop_db) /\
  update_product "00000000000000000000005" plate root shop_db =
    (Raise (HTTPException 400 "Invalid ID"), shop_db).
Proof.
  split; [|split].
  - destruct (unknown_id_is_silent shop_db root "000000000000000000000063")
      as [Hknown _].
    destruct (Hknown (Bson.Full 99%N)
                (spells_id "000000000000000000000063" 99%N eq_refl eq_refl))
      as [Hcat _].
    apply Hcat. simpl. intuition discriminate.
  - destruct (unknown_id_is_silent shop_db root "0000000000000000000005  ")
      as [Hknown _].
    assert (Hbytes : hex_bytes "0000000000000000000005  " 11).
    { do 11 (eapply hex_bytes_byte; [reflexivity | reflexivity |]).
      do 2 (apply hex_bytes_space; [reflexivity|]). constructor. }
    destruct (Hknown Bson.Short
                (spells_short "0000000000000000000005  " 11 eq_refl Hbytes
                   ltac:(lia)))
      as (_ & Hprod & _).
    destruct Hprod as (Hupd & _); [simpl; tauto|].
    apply Hupd. simpl. lia.
  - destruct (unknown_id_is_silent shop_db root "00000000000000000000005")
      as (_ & Hbad).
    destruct Hbad as (_ & _ & Hupd & _); [left; discriminate|].
    apply Hupd.
Defined.

(** X11: the bowl is gone after its deletion. *)
Lemma delete_product_then_get_witness :
  get_product_by_id "000000000000000000000005"
    (snd (delete_product "000000000000000000000005" root shop_db)) =
  Raise (HTTPException 404 "Product not found").
Proof.
  pose proof (delete_product_then_get "000000000000000000000005" 5%N root
                shop_db) as Hdel.
  cbv zeta in Hdel. destruct Hdel as (_ & Hgone & _).
  - repeat constructor; simpl; intuition discriminate.
  - reflexivity.
  - exact Hgone.
Defined.

(** X12: the bowl becomes a plate and keeps its creation time. *)
Lemma update_product_then_get_witness :
  get_product_by_id "000000000000000000000005"
    (snd (update_product "000000000000000000000005" plate root shop_db)) =
  Ok (Doc "000000000000000000000005" (Stamped plate 300000)).
Proof.
  pose proof (update_product_then_get "000000000000000000000005" plate root
                shop_db bowl_doc) as Hupd.
  cbv zeta in Hupd. destruct Hupd as [Hfit _].
  - repeat constructor; simpl; intuition discriminate.
  - simpl. tauto.
  - reflexivity.
  - destruct Hfit as (_ & Hget & _); [simpl; lia | exact Hget].
Defined.

(** X13: the category of vases is renamed. *)
Lemma update_category_then_list_witness :
  In (Doc "000000000000000000000001"
        (Stamped (mk_category "Vessels" "vessels" true) 10000))
     (list_categories (Some false)
        (snd (update_category "000000000000000000000001"
                (mk_category "Vessels" "vessels" true) root shop_db))).
Proof.
  pose proof (update_category_then_list "000000000000000000000001"
                (mk_category "Vessels" "vessels" true) root shop_db
                vases_doc) as Hupd.
  cbv zeta in Hupd. destruct Hupd as (_ & Hlisted & _).
  - repeat constructor; simpl; intuition discriminate.
  - simpl. tauto.
  - reflexivity.
  - exact Hlisted.
Defined.

(** X14: one category fewer after the deletion of the vases. *)
Lemma delete_category_then_list_witness :
  S (List.length
       (list_categories (Some false)
          (snd (delete_category "000000000000000000000001" root shop_db)))) =
  List.length (list_categories (Some false) shop_db).
Proof.
  pose proof (delete_category_then_list "000000000000000000000001" root
                shop_db vases_doc) as Hdel.
  cbv zeta in Hdel. destruct Hdel as (_ & _ & Hlen & _).
  - repeat constructor; simpl; intuition discriminate.
  - simpl. tauto.
  - reflexivity.
  - exact Hlen.
Defined.

(** X15: the cancelled order is fetched under the identifier answered,
    with the e-mail normalised and the time to the millisecond. *)
Lemma post_order_then_get_witness :
  exists stored,
    get_order "000000000000000000000008"
      (snd (post_order toy_validate_email cancelled_order shop_db 1234567)) =
    Ok (Doc "000000000000000000000008" stored) /\
    email (o_customer stored) = "eve@example.com" /\
    o_status stored = "Cancelled" /\
    o_created_at stored = Some 1234000.
Proof.
  pose proof (post_order_then_get toy_validate_email cancelled_order shop_db
                1234567 "eve@example.com" wf_shop_db) as Hpost.
  cbv zeta in Hpost. destruct Hpost as (_ & Hget & _).
  - reflexivity.
  - reflexivity.
  - intros i [].
  - eexists. split; [exact Hget|]. repeat split.
Defined.

(** X16: Alice's order takes a status outside the four of the schema. *)
Lemma update_order_status_then_get_witness :
  exists stored,
    get_order "000000000000000000000006"
      (snd (update_order_status "000000000000000000000006" "Refunded" root
              shop_db)) =
    Ok (Doc "000000000000000000000006" stored) /\
    o_status stored = "Refunded".
Proof.
  pose proof (update_order_status_then_get "000000000000000000000006"
                "Refunded" root shop_db alice_order) as Hupd.
  cbv zeta in Hupd.
  destruct Hupd as (_ & (stored & Hget & Hstatus & _) & _).
  - repeat constructor; simpl; intuition discriminate.
  - simpl. tauto.
  - reflexivity.
  - exists stored. split; assumption.
Defined.

(** X17: Alice's order survives a change of its status. *)
Lemma orders_are_kept_witness :
  exists d',
    In d' (orders
             (snd (Route.update_order_status "000000000000000000000006"
                     "Shipped" (Some "Bearer c0ffee") shop_db 999))) /\
    _id d' = 6%N /\
    same_but_status (fields d') (fields alice_order).
Proof.
  refine (orders_are_kept toy_digest shop_db _ _ alice_order _).
  - eapply steps_step; [apply steps_refl|].
    apply (step_update_order_status toy_digest "000000000000000000000006"
             "Shipped" (Some "Bearer c0ffee") 999).
  - simpl. tauto.
Defined.

(** X18: two pages of one product are the whole listing of the shop,
    the vase and then the mug. *)
Lemma pages_cover_listing_witness :
  List.concat
    (map (fun i => items_of
                     (list_products None None (Some (Z.of_nat i + 1))
                        (Some 1) shop_db))
       (seq 0 2)) =
  map Store.stringify [vase_doc; mug_doc].
Proof.
  pose proof (pages_cover_listing None None 1 2 shop_db [vase_doc; mug_doc])
    as Hpages.
  cbv zeta in Hpages. destruct Hpages as [_ Hall]; try (simpl; lia).
  - apply perm_swap.
  - repeat constructor. unfold sorted_as. simpl. lia.
  - intros x y [<- | [<- | []]] [<- | [<- | []]];
      try reflexivity; discriminate.
  - apply Hall. simpl. lia.
Defined.

(** X19: page 3 of pages of one product is empty, with a total of 2. *)
Lemma list_products_past_the_end_witness :
  list_products None None (Some 3) (Some 1) shop_db =
  Ok {| page_items := []; page_total := 2; page_page := 3;
        page_limit := 1 |}.
Proof.
  pose proof (list_products_past_the_end None None (Some 3) (Some 1) shop_db)
    as Hend.
  cbv zeta in Hend. apply Hend; simpl; lia.
Defined.

(** X6: the login of [ops] leaves the session of [root] valid. *)
Lemma login_keeps_other_sessions_witness :
  get_admin_by_token
    (snd (admin_login toy_digest ops_login (fun _ => Byte.x2a) staffed_db 700))
    999 "c0ffee" =
  get_admin_by_token staffed_db 999 "c0ffee".
Proof.
  apply login_keeps_other_sessions.
  - repeat constructor; simpl; intuition discriminate.
  - discriminate.
  - intros a ct [<- | [<- | []]]; simpl; intros Hmail Hct; discriminate.
Defined.
